(** * The 3D building processing tool: orchestration and decimation

    A shallow embedding of [main.py] (the [ProcessingGUI] class: discovery of
    the folders to process, generation of the per-folder shell script, the
    worker loop that launches the script, and the stop handler) and of
    [func/decimate/decimate.py].

    Conventions of the model:
    - the file system is a tree; the order of a directory's entries is the
      order in which the operating system lists them; names are compared
      case-sensitively, as on POSIX systems; there are no symbolic links;
    - the Python side handles a path as [pathlib] does, by its parts, and
      resolves the parts from the root of the tree: for the Python side
      the tree is rooted at the working directory;
    - the shell side and the decimation tool resolve a path text against
      an explicit working directory [cwd] inside a tree that is the whole
      file system: absolute texts start at the root, [..] leads to the
      parent.  The worker machine runs the program with [cwd] the root,
      where the two readings of a relative path agree;
    - text produced with f-strings is kept structured (a record for the
      values pasted into the shell script, a constructor per log message and
      per diagnostic);
    - bash reads the values pasted into the script between double quotes:
      the model follows the script only when no pasted value holds a
      character that bash treats specially there ([plain]); any other script
      is a black box ([Reparsed]) that may print, change files, ignore
      SIGTERM and exit with any status;
    - the stage programs are black boxes too: they may change the file tree,
      print lines and exit with any status; no black box touches the worker
      otherwise than through its pipe, its exit status and the file tree;
    - SIGTERM ends the bash of a plain script at once; the stage program bash
      was waiting for is not signalled and may live on;
    - a pipe takes a line as long as it holds fewer than [pipe_capacity]
      bytes; a writer that finds it full waits. *)

From Stdlib Require Import String Ascii List Bool ZArith Lia Sorted.
Import ListNotations.
Local Open Scope string_scope.
Local Open Scope list_scope.

(** ** Strings and paths *)

(** [str.endswith] *)
Definition endswith (s suffix : string) : bool :=
  Nat.leb (String.length suffix) (String.length s) &&
  String.eqb
    (substring (String.length s - String.length suffix) (String.length suffix) s)
    suffix.

Definition lower_ascii (c : ascii) : ascii :=
  let n := nat_of_ascii c in
  if Nat.leb 65 n && Nat.leb n 90 then ascii_of_nat (n + 32) else c.

(** [str.lower], on the ASCII letters. *)
Fixpoint lower (s : string) : string :=
  match s with
  | EmptyString => EmptyString
  | String c s' => String (lower_ascii c) (lower s')
  end.

(** [fnmatch] for the patterns the program uses: a leading star followed by
    literal text.  [pathlib]'s star also matches a leading dot. *)
Definition fnmatch (pattern file : string) : bool :=
  match pattern with
  | String "*"%char suffix => endswith file suffix
  | _ => String.eqb file pattern
  end.

Definition Path := list string.

(** [Path.name]: the final part, empty for a path without parts. *)
Definition name (p : Path) : string := last p "".

(** [str(path)] *)
Definition str (p : Path) : string := String.concat "/" p.

Fixpoint split_on (sep : ascii) (s cur : string) : list string :=
  match s with
  | EmptyString => [cur]
  | String c s' =>
      if Ascii.eqb c sep then cur :: split_on sep s' ""
      else split_on sep s' (cur ++ String c "")
  end.

(** [Path(text)]: parts are separated by slashes; empty parts and single dots
    are dropped. *)
Definition mkPath (s : string) : Path :=
  filter (fun c => negb (String.eqb c "" || String.eqb c "."))
         (split_on "/"%char s "").

(** ** The file system *)

#[warnings="-register-all"]
Inductive node :=
| File (content : string)
| Dir (entries : list (string * node)).

Fixpoint lookup_entry (c : string) (es : list (string * node)) : option node :=
  match es with
  | [] => None
  | (n, x) :: es' => if String.eqb n c then Some x else lookup_entry c es'
  end.

Fixpoint resolve (p : Path) (t : node) : option node :=
  match p with
  | [] => Some t
  | c :: p' =>
      match t with
      | Dir es =>
          match lookup_entry c es with
          | Some t' => resolve p' t'
          | None => None
          end
      | File _ => None
      end
  end.

Definition exists_fs (t : node) (p : Path) : bool :=
  match resolve p t with Some _ => true | None => false end.

Definition is_dir_fs (t : node) (p : Path) : bool :=
  match resolve p t with Some (Dir _) => true | _ => false end.

(** The names a directory lists, in listing order; nothing for a file or a
    missing path. *)
Definition listdir_fs (t : node) (p : Path) : list string :=
  match resolve p t with
  | Some (Dir es) => map fst es
  | _ => []
  end.

(** [Path.glob(pattern)] for a one-level pattern: the children whose name
    matches, in listing order; empty when the path is not a directory. *)
Definition glob_fs (t : node) (p : Path) (pattern : string) : list Path :=
  map (fun n => p ++ [n]) (filter (fnmatch pattern) (listdir_fs t p)).

(** [mkdir -p] and [os.makedirs(..., exist_ok=True)]: create the directory
    and its missing parents; [None] when a part of the path is a file. *)
Fixpoint mkdir_entries (c : string) (f : node -> option node)
  (es : list (string * node)) : option (list (string * node)) :=
  match es with
  | [] =>
      match f (Dir []) with
      | Some t' => Some [(c, t')]
      | None => None
      end
  | (n, x) :: es' =>
      if String.eqb n c then
        match f x with
        | Some x' => Some ((n, x') :: es')
        | None => None
        end
      else
        match mkdir_entries c f es' with
        | Some es'' => Some ((n, x) :: es'')
        | None => None
        end
  end.

Fixpoint mkdir_p (p : Path) (t : node) : option node :=
  match p with
  | [] => match t with Dir _ => Some t | File _ => None end
  | c :: p' =>
      match t with
      | Dir es =>
          match mkdir_entries c (mkdir_p p') es with
          | Some es' => Some (Dir es')
          | None => None
          end
      | File _ => None
      end
  end.

(** ** Effects: a state and exception monad over the world *)

Inductive exn :=
| ValueError (folder : Path)      (* Missing required files in folder *)
| FileNotFoundError (p : Path)
| NotADirectoryError (p : Path)
| OSError (msg : string).

Inductive result (A : Type) :=
| Ok (a : A)
| Raise (e : exn).
Arguments Ok {A} a.
Arguments Raise {A} e.

(** The world a function of the program can touch: the file tree and the
    external programs launched so far (their argument vectors). *)
Record World := mkWorld {
  fs : node;
  spawned : list (list string)
}.

Definition M (A : Type) : Type := World -> result A * World.

Definition ret {A} (a : A) : M A := fun w => (Ok a, w).

Definition raise {A} (e : exn) : M A := fun w => (Raise e, w).

Definition bind {A B} (m : M A) (k : A -> M B) : M B :=
  fun w =>
    match m w with
    | (Ok a, w') => k a w'
    | (Raise e, w') => (Raise e, w')
    end.

Notation "x <- m ;; k" := (bind m (fun x => k))
  (at level 61, m at next level, right associativity).

Definition glob (p : Path) (pattern : string) : M (list Path) :=
  fun w => (Ok (glob_fs (fs w) p pattern), w).

Definition is_dir (p : Path) : M bool :=
  fun w => (Ok (is_dir_fs (fs w) p), w).

(** [Path.iterdir()]: raises when the path is missing or is a file. *)
Definition iterdir (p : Path) : M (list Path) :=
  fun w =>
    match resolve p (fs w) with
    | Some (Dir es) => (Ok (map (fun n => p ++ [n]) (map fst es)), w)
    | Some (File _) => (Raise (NotADirectoryError p), w)
    | None => (Raise (FileNotFoundError p), w)
    end.

(** [subprocess.Popen(argv)] as far as the world records it. *)
Definition popen (argv : list string) : M unit :=
  fun w => (Ok tt, mkWorld (fs w) (spawned w ++ [argv])).

(** ** [ProcessingGUI]: the form fields *)

Record ProcessingGUI := mkGUI {
  data_folder : string;
  dtm_path : string;
  output_folder : string;
  batch_mode : bool
}.

(** [has_required_files] *)
Definition has_required_files (folder_path : Path) : M bool :=
  obj_files <- glob folder_path "*.obj" ;;
  geojson_files <- glob folder_path "*.geojson" ;;
  txt_files <- glob folder_path "*.txt" ;;
  ret (Nat.ltb 0 (List.length obj_files) &&
       Nat.ltb 0 (List.length geojson_files) &&
       Nat.ltb 0 (List.length txt_files)).

(** The loop of [get_processing_folders] over the listing of the data
    folder. *)
Fixpoint valid_subfolders (subfolders : list Path) : M (list Path) :=
  match subfolders with
  | [] => ret []
  | subfolder :: rest =>
      d <- is_dir subfolder ;;
      ok <- (if d then has_required_files subfolder else ret false) ;;
      tl <- valid_subfolders rest ;;
      ret (if ok then subfolder :: tl else tl)
  end.

(** [get_processing_folders] *)
Definition get_processing_folders (self : ProcessingGUI) : M (list Path) :=
  if String.eqb (data_folder self) "" then ret []
  else
    let data_path := mkPath (data_folder self) in
    if batch_mode self then
      subfolders <- iterdir data_path ;;
      valid_subfolders subfolders
    else
      ok <- has_required_files data_path ;;
      ret (if ok then [data_path] else []).

(** ** The shell script *)

(** The values [create_shell_script] interpolates into the script text; the
    rest of the text is constant. *)
Record script := mkScript {
  TXT : Path;
  OBJ : Path;
  BO : Path;
  DTM : string;
  SUBGRID_PREFIX : string;
  OUTPUT_PATH : string
}.

(** [create_shell_script] *)
Definition create_shell_script (self : ProcessingGUI) (folder_path : Path)
  (subgrid_prefix : string) : M script :=
  obj_files <- glob folder_path "*.obj" ;;
  geojson_files <- glob folder_path "*.geojson" ;;
  txt_files <- glob folder_path "*.txt" ;;
  match obj_files, geojson_files, txt_files with
  | obj_file :: _, geojson_file :: _, txt_file :: _ =>
      ret (mkScript txt_file obj_file geojson_file (dtm_path self)
                    subgrid_prefix (output_folder self))
  | _, _, _ => raise (ValueError folder_path)
  end.

(** *** What the script text denotes *)

Inductive stage :=
| Separation
| Decimation
| Translation
| Elevation
| SemanticMapping
| ConvertCityGML
| MergeCityGML.

(** The two variables the script sets while it runs. *)
Inductive coordinate_variable := CX | CY.

(** A word of a command line: literal text and expansions of [$X], [$Y]. *)
Inductive piece :=
| Text (s : string)
| Var (v : coordinate_variable).

Definition word := list piece.

(** An argument as the script text has it: inside double quotes or a
    literal without special characters ([Quoted]), or holding an expansion
    outside quotes ([Unquoted]). *)
Inductive arg :=
| Quoted (w : word)
| Unquoted (w : word).

(** The commands of the script, in the order of the text. *)
Inductive command :=
| Substitute (v : coordinate_variable) (k : nat) (file : string)
    (* v=$(sed -n 'kp' "$TXT" | tr -d '\r') *)
| Mkdir_p (dir : string)
| Echo (w : word)
| Run (st : stage) (argv : list arg)
| Reparsed.
    (* the script text, when bash does not read the pasted values as
       they were pasted *)

(** The directory variables of the script. *)
Definition out_separate (s : script) : string :=
  "temp/" ++ SUBGRID_PREFIX s ++ "/separate".
Definition out_decimate (s : script) : string :=
  "temp/" ++ SUBGRID_PREFIX s ++ "/decimate".
Definition out_translate (s : script) : string :=
  "temp/" ++ SUBGRID_PREFIX s ++ "/translate".
Definition out_semantic (s : script) : string :=
  "temp/" ++ SUBGRID_PREFIX s ++ "/split".
Definition out_elevate (s : script) : string :=
  "temp/" ++ SUBGRID_PREFIX s ++ "/elevate".
Definition out_citygml (s : script) : string :=
  "temp/" ++ SUBGRID_PREFIX s ++ "/citygml".
Definition final_output_dir (s : script) : string :=
  OUTPUT_PATH s ++ "/" ++ SUBGRID_PREFIX s.
Definition final_output_citygml (s : script) : string :=
  OUTPUT_PATH s ++ "/" ++ SUBGRID_PREFIX s ++ "/" ++ SUBGRID_PREFIX s ++ ".gml".

Definition NUL : ascii := ascii_of_nat 0.
Definition TAB : ascii := ascii_of_nat 9.
Definition LF : ascii := ascii_of_nat 10.
Definition CR : ascii := ascii_of_nat 13.
Definition DQUOTE : ascii := ascii_of_nat 34.
Definition DOLLAR : ascii := ascii_of_nat 36.
Definition BACKSLASH : ascii := ascii_of_nat 92.
Definition BACKTICK : ascii := ascii_of_nat 96.

Fixpoint all_chars (f : ascii -> bool) (s : string) : bool :=
  match s with
  | EmptyString => true
  | String c s' => f c && all_chars f s'
  end.

(** The characters bash does not take literally between double quotes, and
    the byte that cannot be part of a script. *)
Definition special (c : ascii) : bool :=
  Ascii.eqb c DOLLAR || Ascii.eqb c BACKTICK || Ascii.eqb c DQUOTE ||
  Ascii.eqb c BACKSLASH || Ascii.eqb c NUL.

(** Text that bash reads, between double quotes, as the text itself. *)
Definition quotable (s : string) : bool :=
  all_chars (fun c => negb (special c)) s.

Definition single_line (s : string) : bool :=
  all_chars (fun c => negb (Ascii.eqb c LF || Ascii.eqb c CR)) s.

(** An operand that [sed] or [mkdir] would take for an option. *)
Definition option_like (s : string) : bool :=
  match s with
  | String "-"%char _ => true
  | _ => false
  end.

(** The scripts the model follows command by command: bash reads the six
    pasted values as they were pasted, each line echoed is one line, and the
    operands of [sed] and [mkdir] are operands. *)
Definition plain (s : script) : bool :=
  quotable (str (TXT s)) && quotable (str (OBJ s)) && quotable (str (BO s)) &&
  quotable (DTM s) && quotable (SUBGRID_PREFIX s) &&
  quotable (OUTPUT_PATH s) &&
  single_line (SUBGRID_PREFIX s) &&
  negb (option_like (str (TXT s))) && negb (option_like (OUTPUT_PATH s)).

(** The body of the script of [create_shell_script], with the values of the
    six assignments in place; [$X] and [$Y] are expanded when a command
    runs. *)
Definition script_commands (s : script) : list command :=
  [ Substitute CX 1 (str (TXT s));
    Substitute CY 2 (str (TXT s));
    Mkdir_p (out_separate s);
    Mkdir_p (out_decimate s);
    Mkdir_p (out_translate s);
    Mkdir_p (out_semantic s);
    Mkdir_p (out_elevate s);
    Mkdir_p (out_citygml s);
    Mkdir_p (final_output_dir s);
    Echo [Text ("Processing " ++ SUBGRID_PREFIX s ++ "...")];
    Echo [Text "X coordinate: "; Var CX];
    Echo [Text "Y coordinate: "; Var CY];
    Echo [Text "Step 1: Separation..."];
    Run Separation
        [Quoted [Text "go"]; Quoted [Text "run"];
         Quoted [Text "func/separator/objseparator.go"];
         Unquoted [Text "-cx="; Var CX];
         Unquoted [Text "-cy="; Var CY];
         Quoted [Text (str (OBJ s))];
         Quoted [Text (str (BO s))];
         Quoted [Text (out_separate s)]];
    Echo [Text "Step 2: Decimation..."];
    Run Decimation
        [Quoted [Text "python"]; Quoted [Text "func/decimate/decimate.py"];
         Quoted [Text "-i"]; Quoted [Text (out_separate s)];
         Quoted [Text "-o"]; Quoted [Text (out_decimate s)];
         Quoted [Text "-a"]; Quoted [Text "25"]];
    Echo [Text "Step 3: Translation..."];
    Run Translation
        [Quoted [Text "go"]; Quoted [Text "run"];
         Quoted [Text "func/translate/translate.go"];
         Quoted [Text ("-input=" ++ out_decimate s)];
         Quoted [Text ("-output=" ++ out_translate s)];
         Unquoted [Text "-tx="; Var CX];
         Unquoted [Text "-ty="; Var CY];
         Quoted [Text "-tz=0"]];
    Echo [Text "Step 4: Elevation..."];
    Run Elevation
        [Quoted [Text "go"]; Quoted [Text "run"];
         Quoted [Text "func/elevate/elevate.go"];
         Quoted [Text "--input"]; Quoted [Text (out_translate s)];
         Quoted [Text "--output"]; Quoted [Text (out_elevate s)];
         Quoted [Text "--dtm"]; Quoted [Text (DTM s)]];
    Echo [Text "Step 5: Semantic mapping..."];
    Run SemanticMapping
        [Quoted [Text "go"]; Quoted [Text "run"];
         Quoted [Text "func/semantic/semantic-mapping.go"];
         Quoted [Text "--obj-dir"]; Quoted [Text (out_elevate s)];
         Quoted [Text "--geojson"]; Quoted [Text (str (BO s))];
         Quoted [Text "--output"]; Quoted [Text (out_semantic s)]];
    Echo [Text "Step 6: Convert to CityGML..."];
    Run ConvertCityGML
        [Quoted [Text "go"]; Quoted [Text "run"];
         Quoted [Text "func/building-lod2/to-citygml-lod2.go"];
         Quoted [Text "-input"]; Quoted [Text (out_semantic s)];
         Quoted [Text "-output"]; Quoted [Text (out_citygml s)]];
    Echo [Text "Step 7: Merge CityGML..."];
    Run MergeCityGML
        [Quoted [Text "go"]; Quoted [Text "run"];
         Quoted [Text "func/merge-citygml/merge-building-lod2.go"];
         Quoted [Text "--input"]; Quoted [Text (out_citygml s)];
         Quoted [Text "--output"]; Quoted [Text (final_output_citygml s)]];
    Echo [Text ("Processing completed for " ++ SUBGRID_PREFIX s)] ].

(** What bash runs when it is given the script. *)
Definition script_body (s : script) : list command :=
  if plain s then script_commands s else [Reparsed].

(** *** Where a path text leads *)

Definition is_absolute (text : string) : bool :=
  match text with
  | String "/"%char _ => true
  | _ => false
  end.

(** One part of a path text, taken from the directory at [cur]. *)
Definition enter (cur : Path) (c : string) : Path :=
  if String.eqb c "" || String.eqb c "." then cur
  else if String.eqb c ".." then removelast cur
  else cur ++ [c].

Definition start_of (cwd : Path) (text : string) : Path :=
  if is_absolute text then [] else cwd.

(** The place a path text names, as a list of names from the root: the
    text is read from the working directory unless it begins with a slash.
    This is also [os.path.abspath]. *)
Definition locate (cwd : Path) (text : string) : Path :=
  fold_left enter (split_on "/"%char text "") (start_of cwd text).

(** Pathname resolution by the operating system: every part is taken from
    a directory that exists. *)
Fixpoint walk_parts (t : node) (cur : Path) (parts : list string)
  : option Path :=
  match parts with
  | [] => Some cur
  | c :: rest =>
      if is_dir_fs t cur then walk_parts t (enter cur c) rest else None
  end.

(** The file or directory a path text names, if any. *)
Definition lookup_text (cwd : Path) (t : node) (text : string) : option node :=
  if String.eqb text "" then None
  else
    match walk_parts t (start_of cwd text) (split_on "/"%char text "") with
    | Some place => resolve place t
    | None => None
    end.

(** [mkdir -p text]: part by part, each directory is made unless it
    exists; the tree reached and whether the command succeeded. *)
Fixpoint mkdir_parts (cur : Path) (parts : list string) (t : node)
  : node * bool :=
  match parts with
  | [] => (t, true)
  | c :: rest =>
      match mkdir_p (enter cur c) t with
      | Some t' => mkdir_parts (enter cur c) rest t'
      | None => (t, false)
      end
  end.

Definition mkdir_text (cwd : Path) (text : string) (t : node) : node * bool :=
  if String.eqb text "" then (t, false)
  else mkdir_parts (start_of cwd text) (split_on "/"%char text "") t.

(** *** The two command substitutions *)

(** The lines of a text; a final line need not be terminated. *)
Fixpoint lines_from (s cur : string) : list string :=
  match s with
  | EmptyString => if String.eqb cur "" then [] else [cur]
  | String c s' =>
      if Ascii.eqb c LF then cur :: lines_from s' ""
      else lines_from s' (cur ++ String c "")
  end.

Definition lines (s : string) : list string := lines_from s "".

(** [sed -n 'kp'] inside a command substitution: line [k], or nothing. *)
Definition sed_n_p (k : nat) (content : string) : string :=
  nth (k - 1) (lines content) "".

(** [tr -d c] *)
Fixpoint tr_d (c : ascii) (s : string) : string :=
  match s with
  | EmptyString => EmptyString
  | String a s' => if Ascii.eqb a c then tr_d c s' else String a (tr_d c s')
  end.

(** What the commands of the script write to standard error, by kind. *)
Inductive diagnostic :=
| SedCannotRead (file : string)     (* sed: the file cannot be read *)
| NulIgnored                        (* bash: ignored null byte in input *)
| MkdirCannotCreate (dir : string). (* mkdir: cannot create directory *)

(** A line on the pipe of a script: text that a command or a black box
    printed, or a diagnostic. *)
Inductive outline :=
| Line (text : string)
| Diagnostic (d : diagnostic).

(** [$(sed -n 'kp' file | tr -d '\r')] on the content of the file: bash
    drops null bytes from the output of the pipeline and says so. *)
Definition substituted (k : nat) (content : string)
  : string * list diagnostic :=
  let line := tr_d CR (sed_n_p k content) in
  (tr_d NUL line,
   if all_chars (fun c => negb (Ascii.eqb c NUL)) line then []
   else [NulIgnored]).

(** The value the substitution gives and what it writes to standard error;
    [sed] fails on a missing file or a directory and the value is empty. *)
Definition substitution (cwd : Path) (t : node) (k : nat) (file : string)
  : string * list diagnostic :=
  match lookup_text cwd t file with
  | Some (File content) => substituted k content
  | _ => (EmptyString, [SedCannotRead file])
  end.

(** *** Expansion of the words of a command *)

Definition env := (string * string)%type.

Definition value (e : env) (v : coordinate_variable) : string :=
  match v with
  | CX => fst e
  | CY => snd e
  end.

Definition assign (e : env) (v : coordinate_variable) (x : string) : env :=
  match v with
  | CX => (x, snd e)
  | CY => (fst e, x)
  end.

Fixpoint expand (e : env) (w : word) : string :=
  match w with
  | [] => EmptyString
  | Text s :: w' => s ++ expand e w'
  | Var v :: w' => value e v ++ expand e w'
  end.

Definition is_ifs (c : ascii) : bool :=
  Ascii.eqb c " "%char || Ascii.eqb c TAB || Ascii.eqb c LF.

(** Field splitting of an unquoted word after expansion. *)
Fixpoint ifs_split_from (s cur : string) : list string :=
  match s with
  | EmptyString => if String.eqb cur "" then [] else [cur]
  | String c s' =>
      if is_ifs c then
        (if String.eqb cur "" then [] else [cur]) ++ ifs_split_from s' ""
      else ifs_split_from s' (cur ++ String c "")
  end.

Definition is_glob (c : ascii) : bool :=
  Ascii.eqb c "*"%char || Ascii.eqb c "?"%char || Ascii.eqb c "["%char.

(** An argument a program receives: a text, or the file names that match a
    pattern (the pattern itself when none does); the model does not compute
    which. *)
Inductive argument :=
| Arg (s : string)
| Pattern (s : string).

Definition field (s : string) : argument :=
  if all_chars (fun c => negb (is_glob c)) s then Arg s else Pattern s.

Definition eval_arg (e : env) (a : arg) : list argument :=
  match a with
  | Quoted w => [Arg (expand e w)]
  | Unquoted w => map field (ifs_split_from (expand e w) "")
  end.

Definition eval_argv (e : env) (argv : list arg) : list argument :=
  flat_map (eval_arg e) argv.

(** *** Running the script to its end

    The script sets no [errexit] option and joins no commands with [&&]:
    bash runs every command in turn and exits with the status of the last
    one.  Standard error goes where standard output goes. *)

Record sh_state := mkSh {
  sh_fs : node;
  sh_env : env;                     (* $X and $Y *)
  sh_status : Z;                    (* $? *)
  sh_out : list outline;            (* lines written so far *)
  sh_ran : list (stage * Z);        (* the stage programs run so far, each
                                       with its exit status *)
  sh_calls : list (stage * list argument)
                                    (* and the arguments each received *)
}.

Section Bash.
Variable cwd : Path.
Variable tool : stage -> list argument -> node -> node * list string * Z.
Variable shell : node -> node * list string * Z.

Definition exec_command (c : command) (st : sh_state) : sh_state :=
  match c with
  | Substitute v k file =>
      match substitution cwd (sh_fs st) k file with
      | (x, diagnostics) =>
          mkSh (sh_fs st) (assign (sh_env st) v x) 0
               (sh_out st ++ map Diagnostic diagnostics)
               (sh_ran st) (sh_calls st)
      end
  | Mkdir_p dir =>
      match mkdir_text cwd dir (sh_fs st) with
      | (t', true) =>
          mkSh t' (sh_env st) 0 (sh_out st) (sh_ran st) (sh_calls st)
      | (t', false) =>
          mkSh t' (sh_env st) 1
               (sh_out st ++ [Diagnostic (MkdirCannotCreate dir)])
               (sh_ran st) (sh_calls st)
      end
  | Echo w =>
      mkSh (sh_fs st) (sh_env st) 0
           (sh_out st ++ [Line (expand (sh_env st) w)])
           (sh_ran st) (sh_calls st)
  | Run stg argv =>
      let received := eval_argv (sh_env st) argv in
      match tool stg received (sh_fs st) with
      | (t', out, code) =>
          mkSh t' (sh_env st) code (sh_out st ++ map Line out)
               (sh_ran st ++ [(stg, code)])
               (sh_calls st ++ [(stg, received)])
      end
  | Reparsed =>
      match shell (sh_fs st) with
      | (t', out, code) =>
          mkSh t' (sh_env st) code (sh_out st ++ map Line out)
               (sh_ran st) (sh_calls st)
      end
  end.

Fixpoint bash (cmds : list command) (st : sh_state) : sh_state :=
  match cmds with
  | [] => st
  | c :: rest => bash rest (exec_command c st)
  end.

(** [bash script_path] on a fresh process, its output being read. *)
Definition run_script (s : script) (t : node) : sh_state :=
  bash (script_body s) (mkSh t (EmptyString, EmptyString) 0 [] [] []).
End Bash.

(** ** The worker thread, the script processes and the stop handler

    [start_processing] sets [self.processing] and starts [run_processing] on
    a thread of its own; the Stop button runs [stop_processing] on the GUI
    thread while the worker and the scripts are running.  They are modelled
    as a machine whose steps are labelled: the worker runs to its next
    program point, a bash process begins its next command, a program in
    flight prints a line or exits, the stop handler runs its next statement,
    or the file tree changes.  A program point of the worker lies between
    two statements that another thread can tell apart. *)

(** What the handlers of [run_processing] catch: an exception raised by the
    code of the model, or any other one. *)
Inductive exception :=
| Known (e : exn)
| Other (what : string).

Inductive log_entry :=
| LogStarting (total_folders : nat)
    (* Starting processing of {total_folders} folder(s)... *)
| LogFolder (i total_folders : nat) (subgrid_prefix : string)
    (* --- Processing folder {i}/{total_folders}: {subgrid_prefix} --- *)
| LogLine (line : outline)
    (* a line of the script's output, as read from the pipe; the log shows
       it stripped *)
| LogSuccess (subgrid_prefix : string)
    (* Successfully processed {subgrid_prefix} *)
| LogExit (subgrid_prefix : string) (returncode : Z)
    (* Error processing {subgrid_prefix} (exit code: {returncode}) *)
| LogException (subgrid_prefix : string) (e : exception)
    (* Error processing {subgrid_prefix}: {str(e)} *)
| LogCompleted
    (* === Processing completed! === *)
| LogStopped
    (* === Processing stopped by user === *)
| LogError (e : exception).
    (* Error: {str(e)} *)

(** [self.progress_var] *)
Inductive progress :=
| Ready
| ProcessingFolder (subgrid_prefix : string) (i total_folders : nat)
| Stopping
| Completed
| Stopped
| Error.

(** What a bash process waits for: a stage program, or whatever the
    re-parsed text of the script runs. *)
Inductive program :=
| StageProgram (st : stage)
| Foreign.

(** A bash process started by [Popen], with the pipe the worker reads. *)
Record subprocess := mkProc {
  p_unit : string;                  (* the folder the script belongs to *)
  p_plain : bool;                   (* whether the model follows the script *)
  p_todo : list command;            (* commands bash has not begun yet *)
  p_env : env;                      (* $X and $Y *)
  p_running : option program;       (* the program in flight *)
  p_last : Z;                       (* $? *)
  returncode : option Z;            (* [None] while bash is alive *)
  p_pipe : list outline             (* lines written and not yet read *)
}.

(** SIGTERM, as [returncode] reports a signal. *)
Definition SIGTERM_status : Z := (-15)%Z.

(** [Popen.terminate()]: nothing happens to a process that has exited; the
    bash of a plain script ends at once; a re-parsed script may go on. *)
Definition terminate (p : subprocess) : subprocess :=
  match returncode p with
  | Some _ => p
  | None =>
      if p_plain p then
        mkProc (p_unit p) (p_plain p) (p_todo p) (p_env p) (p_running p)
               (p_last p) (Some SIGTERM_status) (p_pipe p)
      else p
  end.

(** The size of a pipe in bytes; the length of a diagnostic is left out. *)
Definition pipe_capacity : nat := Nat.pow 2 16.

Definition outline_bytes (l : outline) : nat :=
  match l with
  | Line text => S (String.length text)
  | Diagnostic _ => 1
  end.

Definition pipe_bytes (pipe : list outline) : nat :=
  fold_right (fun l n => outline_bytes l + n) 0 pipe.

(** A writer finds room in the pipe. *)
Definition room (p : subprocess) : bool :=
  Nat.ltb (pipe_bytes (p_pipe p)) pipe_capacity.

(** End of file on the pipe: bash and the program it started have gone and
    every line has been read. *)
Definition at_eof (p : subprocess) : bool :=
  match returncode p, p_running p, p_pipe p with
  | Some _, None, [] => true
  | _, _, _ => false
  end.

(** What happened, for the statements: the programs the scripts started,
    by the number of the script's process. *)
Inductive event :=
| Started (k : nat) (prog : program)
| Exited (k : nat) (prog : program) (code : Z).

(** Where the worker thread is in [run_processing]. *)
Inductive pc :=
| AtStart                           (* lines 335-336 *)
| AtStartLog                        (* line 338 *)
| AtLoopTop                         (* the [for] of line 340, the check of
                                       lines 341-342 *)
| AtHeader                          (* lines 344-345 *)
| AtHeaderLog                       (* line 347 *)
| AtBody                            (* lines 349-375, up to [Popen] *)
| AtAssign (k : nat)                (* the assignment to [self.process] *)
| AtReadline                        (* [for line in self.process.stdout] *)
| AtCheck (line : outline)          (* lines 379-380 *)
| AtLog (line : outline)            (* line 381 *)
| AtWait                            (* line 383 *)
| AtReport (code : Z)               (* lines 385-394 *)
| AtExcept (e : exception)          (* lines 396-397 *)
| AtEnd                             (* line 399 *)
| AtClosing (completed : bool)      (* line 400 or line 403 *)
| AtClosingSet (completed : bool)   (* line 401 or line 404, then
                                       [finally] *)
| AtOuter (e : exception)           (* lines 406-407 *)
| AtOuterSet                        (* line 408, then [finally] *)
| Finished.

(** Where the GUI thread is in [stop_processing]. *)
Inductive stop_pc :=
| StopIdle
| StopTest                          (* line 434 *)
| StopTerminate                     (* lines 435-438 *)
| StopSet.                          (* line 439 *)

Record state := mkState {
  self : ProcessingGUI;
  world : World;
  processing : bool;                (* self.processing *)
  procs : list subprocess;          (* every process launched, in order *)
  process : option nat;             (* self.process, as a number in [procs] *)
  at_stop : stop_pc;
  progress_var : progress;
  log : list log_entry;             (* self.log_text *)
  at_pc : pc;
  folders_to_process : list Path;
  remaining : list Path;            (* folders the [for] has not reached *)
  i : nat;
  folder_path : Path;
  trace : list event
}.

Inductive label :=
| Worker (fault : option exception) (* the worker runs to its next point;
                                       [fault]: what a statement on the way
                                       raises, if one does *)
| Bash (k : nat)                    (* bash number [k] begins its next
                                       command, or exits at the end of the
                                       script *)
| ToolPrints (k : nat) (line : string)
                                    (* the program bash [k] started prints *)
| ToolExits (k : nat) (code : Z)    (* the program bash [k] started exits *)
| Stop                              (* the Stop button: [stop_processing]
                                       begins, line 433 *)
| Gui                               (* [stop_processing] runs its next
                                       statement *)
| Touch (t : node).                 (* programs change the file tree *)

(** The working directory of the machine. *)
Definition cwd0 : Path := [].

(** The state [start_processing] leaves when it starts the worker. *)
Definition init (g : ProcessingGUI) (w : World) : state :=
  mkState g w true [] None StopIdle Ready [] AtStart [] [] 0 [] [].

(** [self.process], as a process. *)
Definition current (s : state) : option subprocess :=
  match process s with
  | Some k => nth_error (procs s) k
  | None => None
  end.

Fixpoint replace_nth (k : nat) (p : subprocess) (l : list subprocess)
  : list subprocess :=
  match l, k with
  | [], _ => []
  | _ :: l', 0 => p :: l'
  | q :: l', S k' => q :: replace_nth k' p l'
  end.

(** The worker moves to [next]. *)
Definition goto (s : state) (next : pc) : state :=
  mkState (self s) (world s) (processing s) (procs s) (process s) (at_stop s)
          (progress_var s) (log s) next (folders_to_process s) (remaining s)
          (i s) (folder_path s) (trace s).

(** The worker writes to the log and moves to [next]. *)
Definition say (s : state) (entries : list log_entry) (next : pc) : state :=
  mkState (self s) (world s) (processing s) (procs s) (process s) (at_stop s)
          (progress_var s) (log s ++ entries) next (folders_to_process s)
          (remaining s) (i s) (folder_path s) (trace s).

(** A process changes, and with it the file tree and the trace. *)
Definition set_proc (s : state) (k : nat) (p : subprocess) (t : node)
  (evs : list event) : state :=
  mkState (self s) (mkWorld t (spawned (world s))) (processing s)
          (replace_nth k p (procs s)) (process s) (at_stop s)
          (progress_var s) (log s) (at_pc s) (folders_to_process s)
          (remaining s) (i s) (folder_path s) (trace s ++ evs).

(** The [finally] clause of [run_processing], after the last statement
    before it has set the progress text, or has raised. *)
Definition finish (s : state) (pv : progress) : state :=
  mkState (self s) (world s) false (procs s) (process s) (at_stop s) pv
          (log s) Finished (folders_to_process s) (remaining s)
          (i s) (folder_path s) (trace s).

(** The outcome line of a folder whose script has ended. *)
Definition report (subgrid_prefix : string) (code : Z) : log_entry :=
  if Z.eqb code 0 then LogSuccess subgrid_prefix
  else LogExit subgrid_prefix code.

(** The process [Popen] starts on the script. *)
Definition launch (subgrid_prefix : string) (script_content : script)
  : subprocess :=
  mkProc subgrid_prefix (plain script_content) (script_body script_content)
         (EmptyString, EmptyString) None 0 None [].

(** The worker takes the first line off the pipe of [self.process]. *)
Definition take_line (s : state) (k : nat) (p : subprocess)
  (rest : list outline) (next : pc) : state :=
  mkState (self s) (world s) (processing s)
          (replace_nth k
             (mkProc (p_unit p) (p_plain p) (p_todo p) (p_env p)
                     (p_running p) (p_last p) (returncode p) rest)
             (procs s))
          (process s) (at_stop s) (progress_var s) (log s) next
          (folders_to_process s) (remaining s) (i s) (folder_path s)
          (trace s).

(** One step of [run_processing].  An exception raised between line 349
    and line 394 is caught at line 396; one raised elsewhere in the [try] of
    line 334 is caught at line 406; one raised in the handler of line 406
    leaves the function through the [finally] clause. *)
Definition run_processing_step (fault : option exception) (s : state)
  : state :=
  let subgrid_prefix := name (folder_path s) in
  let total_folders := List.length (folders_to_process s) in
  match at_pc s with
  | AtStart =>
      match fault with
      | Some e => goto s (AtOuter e)
      | None =>
          match get_processing_folders (self s) (world s) with
          | (Ok folders, w) =>
              mkState (self s) w (processing s) (procs s) (process s)
                      (at_stop s) (progress_var s) (log s)
                      AtStartLog folders folders 0 (folder_path s) (trace s)
          | (Raise e, w) => goto s (AtOuter (Known e))
          end
      end
  | AtStartLog =>
      match fault with
      | Some e => goto s (AtOuter e)
      | None => say s [LogStarting total_folders] AtLoopTop
      end
  | AtLoopTop =>
      match remaining s with
      | [] => goto s AtEnd
      | folder :: rest =>
          if negb (processing s) then goto s AtEnd
          else
            mkState (self s) (world s) (processing s) (procs s) (process s)
                    (at_stop s) (progress_var s) (log s) AtHeader
                    (folders_to_process s) rest (S (i s)) folder (trace s)
      end
  | AtHeader =>
      match fault with
      | Some e => goto s (AtOuter e)
      | None =>
          mkState (self s) (world s) (processing s) (procs s) (process s)
                  (at_stop s)
                  (ProcessingFolder subgrid_prefix (i s) total_folders)
                  (log s) AtHeaderLog (folders_to_process s) (remaining s)
                  (i s) (folder_path s) (trace s)
      end
  | AtHeaderLog =>
      match fault with
      | Some e => goto s (AtOuter e)
      | None => say s [LogFolder (i s) total_folders subgrid_prefix] AtBody
      end
  | AtBody =>
      match create_shell_script (self s) (folder_path s) subgrid_prefix
                                (world s) with
      | (Raise e, w) => goto s (AtExcept (Known e))
      | (Ok script_content, w) =>
          match fault with
          | Some e => goto s (AtExcept e)
          | None =>
              let script_path :=
                ("temp_script_" ++ subgrid_prefix ++ ".sh")%string in
              match popen ["bash"; script_path] w with
              | (_, w') =>
                  mkState (self s) w' (processing s)
                          (procs s ++ [launch subgrid_prefix script_content])
                          (process s) (at_stop s) (progress_var s) (log s)
                          (AtAssign (List.length (procs s)))
                          (folders_to_process s) (remaining s) (i s)
                          (folder_path s) (trace s)
              end
          end
      end
  | AtAssign k =>
      mkState (self s) (world s) (processing s) (procs s) (Some k)
              (at_stop s) (progress_var s) (log s) AtReadline
              (folders_to_process s) (remaining s) (i s) (folder_path s)
              (trace s)
  | AtReadline =>
      match process s, current s with
      | Some k, Some p =>
          match p_pipe p with
          | line :: rest =>
              match fault with
              | Some e => take_line s k p rest (AtExcept e)
              | None => take_line s k p rest (AtCheck line)
              end
          | [] => if at_eof p then goto s AtWait else s
          end
      | _, _ => s
      end
  | AtCheck line =>
      if negb (processing s) then goto s AtWait else goto s (AtLog line)
  | AtLog line =>
      match fault with
      | Some e => goto s (AtExcept e)
      | None => say s [LogLine line] AtReadline
      end
  | AtWait =>
      match fault with
      | Some e => goto s (AtExcept e)
      | None =>
          match current s with
          | Some p =>
              match returncode p with
              | Some code => goto s (AtReport code)
              | None => s
              end
          | None => s
          end
      end
  | AtReport code =>
      match fault with
      | Some e => goto s (AtExcept e)
      | None => say s [report subgrid_prefix code] AtLoopTop
      end
  | AtExcept e =>
      match fault with
      | Some e' => goto s (AtOuter e')
      | None => say s [LogException subgrid_prefix e] AtLoopTop
      end
  | AtEnd => goto s (AtClosing (processing s))
  | AtClosing completed =>
      match fault with
      | Some e => goto s (AtOuter e)
      | None =>
          say s [if completed then LogCompleted else LogStopped]
              (AtClosingSet completed)
      end
  | AtClosingSet completed =>
      match fault with
      | Some e => goto s (AtOuter e)
      | None => finish s (if completed then Completed else Stopped)
      end
  | AtOuter e =>
      match fault with
      | Some _ => finish s (progress_var s)
      | None => say s [LogError e] AtOuterSet
      end
  | AtOuterSet =>
      match fault with
      | Some _ => finish s (progress_var s)
      | None => finish s Error
      end
  | Finished => s
  end.

(** A process with other content of its pipe, other commands ahead and so
    on. *)
Definition wrote (p : subprocess) (todo : list command) (e : env)
  (last : Z) (lines : list outline) : subprocess :=
  mkProc (p_unit p) (p_plain p) todo e None last None (p_pipe p ++ lines).

(** One step of bash number [k]: its next command, or its exit at the end
    of the script.  A command that has to write waits for room in the
    pipe. *)
Definition bash_step (k : nat) (s : state) : state :=
  match nth_error (procs s) k with
  | None => s
  | Some p =>
      match returncode p, p_running p with
      | None, None =>
          let t := fs (world s) in
          match p_todo p with
          | [] =>
              set_proc s k
                (mkProc (p_unit p) (p_plain p) [] (p_env p) None (p_last p)
                        (Some (p_last p)) (p_pipe p))
                t []
          | Substitute v j file :: rest =>
              match substitution cwd0 t j file with
              | (x, []) =>
                  set_proc s k (wrote p rest (assign (p_env p) v x) 0 []) t []
              | (x, diagnostics) =>
                  if room p then
                    set_proc s k
                      (wrote p rest (assign (p_env p) v x) 0
                             (map Diagnostic diagnostics))
                      t []
                  else s
              end
          | Mkdir_p dir :: rest =>
              match mkdir_text cwd0 dir t with
              | (t', true) => set_proc s k (wrote p rest (p_env p) 0 []) t' []
              | (t', false) =>
                  if room p then
                    set_proc s k
                      (wrote p rest (p_env p) 1
                             [Diagnostic (MkdirCannotCreate dir)])
                      t' []
                  else s
              end
          | Echo w :: rest =>
              if room p then
                set_proc s k
                  (wrote p rest (p_env p) 0 [Line (expand (p_env p) w)]) t []
              else s
          | Run st argv :: rest =>
              set_proc s k
                (mkProc (p_unit p) (p_plain p) rest (p_env p)
                        (Some (StageProgram st)) (p_last p) None (p_pipe p))
                t [Started k (StageProgram st)]
          | Reparsed :: rest =>
              set_proc s k
                (mkProc (p_unit p) (p_plain p) rest (p_env p) (Some Foreign)
                        (p_last p) None (p_pipe p))
                t [Started k Foreign]
          end
      | _, _ => s
      end
  end.

(** The program bash number [k] started prints a line, if the pipe has
    room, or exits. *)
Definition tool_step (k : nat) (l : string + Z) (s : state) : state :=
  match nth_error (procs s) k with
  | None => s
  | Some p =>
      match p_running p with
      | None => s
      | Some prog =>
          match l with
          | inl line =>
              if room p then
                set_proc s k
                  (mkProc (p_unit p) (p_plain p) (p_todo p) (p_env p)
                          (Some prog) (p_last p) (returncode p)
                          (p_pipe p ++ [Line line]))
                  (fs (world s)) []
              else s
          | inr code =>
              set_proc s k
                (mkProc (p_unit p) (p_plain p) (p_todo p) (p_env p) None
                        code (returncode p) (p_pipe p))
                (fs (world s)) [Exited k prog code]
          end
      end
  end.

(** [stop_processing], statement by statement. *)
Definition stop_pressed (s : state) : state :=
  match at_stop s with
  | StopIdle =>
      mkState (self s) (world s) false (procs s) (process s) StopTest
              (progress_var s) (log s) (at_pc s) (folders_to_process s)
              (remaining s) (i s) (folder_path s) (trace s)
  | _ => s
  end.

Definition stop_goto (s : state) (next : stop_pc) : state :=
  mkState (self s) (world s) (processing s) (procs s) (process s) next
          (progress_var s) (log s) (at_pc s) (folders_to_process s)
          (remaining s) (i s) (folder_path s) (trace s).

Definition stop_processing_step (s : state) : state :=
  match at_stop s with
  | StopIdle => s
  | StopTest =>
      match process s with
      | Some _ => stop_goto s StopTerminate
      | None => stop_goto s StopSet
      end
  | StopTerminate =>
      match process s, current s with
      | Some k, Some p =>
          mkState (self s) (world s) (processing s)
                  (replace_nth k (terminate p) (procs s)) (process s) StopSet
                  (progress_var s) (log s) (at_pc s) (folders_to_process s)
                  (remaining s) (i s) (folder_path s) (trace s)
      | _, _ => stop_goto s StopSet
      end
  | StopSet =>
      mkState (self s) (world s) (processing s) (procs s) (process s)
              StopIdle Stopping (log s) (at_pc s) (folders_to_process s)
              (remaining s) (i s) (folder_path s) (trace s)
  end.

Definition touch (t : node) (s : state) : state :=
  mkState (self s) (mkWorld t (spawned (world s))) (processing s) (procs s)
          (process s) (at_stop s) (progress_var s) (log s) (at_pc s)
          (folders_to_process s) (remaining s) (i s) (folder_path s)
          (trace s).

Definition step (s : state) (l : label) : state :=
  match l with
  | Worker fault => run_processing_step fault s
  | Bash k => bash_step k s
  | ToolPrints k line => tool_step k (inl line) s
  | ToolExits k code => tool_step k (inr code) s
  | Stop => stop_pressed s
  | Gui => stop_processing_step s
  | Touch t => touch t s
  end.

Definition run (schedule : list label) (s : state) : state :=
  fold_left step schedule s.

(** ** The decimation tool, [func/decimate/decimate.py]

    The calls into Blender are black boxes that return or raise, and so is
    standard output: [print] raises when it cannot take a line (a name it
    cannot encode, a closed pipe), and the last flush, when the interpreter
    exits, may fail. *)

Module Decimate.

(** The parsed command line. *)
Record args := mkArgs {
  input : string;
  output : string;
  angle : Z                        (* degrees; 25 in the script *)
}.

(** What the code of the tool can raise. *)
Inductive error :=
| ZeroDivisionError                (* the division in [decimate_planar] *)
| BpyError (what : string)         (* a call into Blender *)
| MakedirsError                    (* [os.makedirs] *)
| PrintError                       (* [print] *)
| SystemExit (code : Z).           (* [sys.exit(code)] *)

Inductive outcome (A : Type) :=
| Done (a : A)
| Throw (e : error).
Arguments Done {A} a.
Arguments Throw {A} e.

(** What a call into Blender does. *)
Inductive answer (A : Type) :=
| Returns (a : A)
| Raises (what : string).
Arguments Returns {A} a.
Arguments Raises {A} what.

(** An object of the scene, as far as the tool looks at it. *)
Record object := mkObject {
  type : string;                    (* obj.type *)
  polygons : nat                    (* len(obj.data.polygons) *)
}.

(** The calls into Blender:
    - [import_scene]: [clear_scene()] and [bpy.ops.import_scene.obj], then
      what [bpy.context.active_object] and [bpy.context.scene.objects] hold;
    - [vertices]: [len(obj.data.vertices)];
    - [modifier_apply]: selecting the object, adding the modifier and
      applying it; the object afterwards;
    - [export_scene]: selecting the object and [bpy.ops.export_scene.obj]. *)
Record bpy := mkBpy {
  import_scene : Path -> answer (option object * list object);
  vertices : object -> answer nat;
  modifier_apply : object -> Z -> answer object;
  export_scene : object -> Path -> answer unit
}.

(** The lines the tool prints. *)
Inductive message :=
| InputMissing (input_dir : Path)
| NoObjFiles (input_dir : Path)
| Found (n : nat)
| InputDirectory (input_dir : Path)
| OutputDirectory (output_dir : Path)
| AngleThreshold (angle_degrees : Z)
| Rule                              (* fifty dashes *)
| Progress (i total_files : nat)    (* [i/total], without a line end *)
| Processing (basename : string)
| FailedToImport (input_path : Path)
| OriginalVertices (n : nat)
| NotAMesh                          (* Warning: Object is not a mesh *)
| Faces (original_faces final_faces : nat)
| NoObjectToExport                  (* Warning: No object to export *)
| SavedTo (output_path : Path)
| FailedToExport (output_path : Path)
| ErrorProcessing (input_path : Path) (e : error)
| Blank
| Complete
| Summary (success_count total_files : nat)
| FailedCount (n : nat).

(** How a Python process ends. *)
Inductive termination :=
| Returned                         (* fell off the end of [main] *)
| SysExit (code : Z)               (* [sys.exit(code)] *)
| Uncaught (e : error).            (* traceback *)

(** The exit status the parent process sees; [flushed]: whether the last
    flush of standard output succeeded. *)
Definition exit_status (flushed : bool) (t : termination) : Z :=
  if flushed then
    match t with
    | Returned => 0
    | SysExit code => code
    | Uncaught _ => 1
    end
  else 120.

(** What the tool has done so far: the file tree, the lines printed and
    the files the exports wrote. *)
Record tool_state := mkTool {
  tree : node;
  printed : list message;
  exported : list Path
}.

Definition T (A : Type) : Type := tool_state -> outcome A * tool_state.

Definition unit_T {A} (a : A) : T A := fun st => (Done a, st).

Definition throw {A} (e : error) : T A := fun st => (Throw e, st).

Definition bind_T {A B} (m : T A) (k : A -> T B) : T B :=
  fun st =>
    match m st with
    | (Done a, st') => k a st'
    | (Throw e, st') => (Throw e, st')
    end.

Notation "x <~ m ;; k" := (bind_T m (fun x => k))
  (at level 61, m at next level, right associativity).
Notation "m ;;; k" := (bind_T m (fun _ => k))
  (at level 61, right associativity).

(** [try: m  except Exception as e: handler e]; [SystemExit] is no
    [Exception]. *)
Definition try_except {A} (m : T A) (handler : error -> T A) : T A :=
  fun st =>
    match m st with
    | (Done a, st') => (Done a, st')
    | (Throw (SystemExit code), st') => (Throw (SystemExit code), st')
    | (Throw e, st') => handler e st'
    end.

Definition is_dir_entry (e : string * node) : bool :=
  match snd e with Dir _ => true | File _ => false end.

(** [os.walk(top)], top-down: for each directory its path, the names of
    its subdirectories and the names of its other entries. *)
Fixpoint walk (root : Path) (t : node) {struct t}
  : list (Path * list string * list string) :=
  match t with
  | File _ => []
  | Dir es =>
      (root,
       map fst (filter is_dir_entry es),
       map fst (filter (fun e => negb (is_dir_entry e)) es))
      :: (fix walk_entries (l : list (string * node)) :=
            match l with
            | [] => []
            | (n, x) :: l' => walk (root ++ [n]) x ++ walk_entries l'
            end) es
  end.

Fixpoint insert_sorted (x : Path) (l : list Path) : list Path :=
  match l with
  | [] => [x]
  | y :: l' =>
      if String.leb (str x) (str y) then x :: l else y :: insert_sorted x l'
  end.

(** [sorted], on the joined text of the paths. *)
Definition sorted (l : list Path) : list Path := fold_right insert_sorted [] l.

(** [find_obj_files] *)
Definition find_obj_files (t : node) (input_dir : Path) : list Path :=
  match resolve input_dir t with
  | None => []
  | Some top =>
      sorted
        (flat_map
           (fun '(root, _, files) =>
              map (fun file => root ++ [file])
                  (filter (fun file => endswith (lower file) ".obj") files))
           (walk input_dir top))
  end.

Section Tool.
Variable b : bpy.
Variable stdout : message -> bool.

(** [print]: the line is printed, or [print] raises. *)
Definition print (m : message) : T unit :=
  fun st =>
    if stdout m then
      (Done tt, mkTool (tree st) (printed st ++ [m]) (exported st))
    else (Throw PrintError, st).

Definition call {A} (r : answer A) : T A :=
  fun st =>
    match r with
    | Returns a => (Done a, st)
    | Raises what => (Throw (BpyError what), st)
    end.

(** [os.makedirs(p, exist_ok=True)] *)
Definition makedirs (p : Path) : T unit :=
  fun st =>
    match mkdir_p p (tree st) with
    | Some t' => (Done tt, mkTool t' (printed st) (exported st))
    | None => (Throw MakedirsError, st)
    end.

Definition wrote (filepath : Path) : T unit :=
  fun st =>
    (Done tt, mkTool (tree st) (printed st) (exported st ++ [filepath])).

(** [import_obj] *)
Definition import_obj (filepath : Path) : T (option object) :=
  r <~ call (import_scene b filepath) ;;
  match r with
  | (Some obj, _) => unit_T (Some obj)
  | (None, objects) =>
      unit_T (find (fun o => String.eqb (type o) "MESH") objects)
  end.

(** [decimate_planar] *)
Definition decimate_planar (obj : option object) (angle_degrees : Z)
  : T (option object) :=
  match obj with
  | None => print NotAMesh ;;; unit_T None
  | Some o =>
      if negb (String.eqb (type o) "MESH") then
        print NotAMesh ;;; unit_T (Some o)
      else
        let original_faces := polygons o in
        o' <~ call (modifier_apply b o angle_degrees) ;;
        let final_faces := polygons o' in
        (if Nat.eqb original_faces 0 then throw ZeroDivisionError
         else print (Faces original_faces final_faces)) ;;;
        unit_T (Some o')
  end.

(** [export_obj] *)
Definition export_obj (obj : option object) (filepath : Path) : T bool :=
  match obj with
  | None => print NoObjectToExport ;;; unit_T false
  | Some o =>
      call (export_scene b o filepath) ;;;
      wrote filepath ;;;
      unit_T true
  end.

(** [process_obj_file] *)
Definition process_obj_file (input_path output_path : Path)
  (angle_degrees : Z) : T bool :=
  print (Processing (name input_path)) ;;;
  try_except
    (obj <~ import_obj input_path ;;
     match obj with
     | None => print (FailedToImport input_path) ;;; unit_T false
     | Some o =>
         n <~ call (vertices b o) ;;
         print (OriginalVertices n) ;;;
         decimated_obj <~ decimate_planar (Some o) angle_degrees ;;
         makedirs (removelast output_path) ;;;
         success <~ export_obj decimated_obj output_path ;;
         if success then print (SavedTo output_path) ;;; unit_T true
         else print (FailedToExport output_path) ;;; unit_T false
     end)
    (fun e => print (ErrorProcessing input_path e) ;;; unit_T false).

(** The loop of [main] over the files. *)
Fixpoint process_all (input_dir output_dir : Path) (angle_degrees : Z)
  (total_files : nat) (obj_files : list Path) (i success_count : nat)
  : T nat :=
  match obj_files with
  | [] => unit_T success_count
  | obj_file :: rest =>
      print (Progress i total_files) ;;;
      let rel_path := skipn (List.length input_dir) obj_file in
      let output_path := output_dir ++ rel_path in
      ok <~ process_obj_file obj_file output_path angle_degrees ;;
      print Blank ;;;
      process_all input_dir output_dir angle_degrees total_files rest (S i)
                  (if ok then S success_count else success_count)
  end.

(** [main], after the command line is parsed; [cwd] is the working
    directory of the process. *)
Definition main_body (cwd : Path) (a : args) : T unit :=
  let input_dir := locate cwd (input a) in
  let output_dir := locate cwd (output a) in
  let angle_degrees := angle a in
  exists_input <~ (fun st => (Done (exists_fs (tree st) input_dir), st)) ;;
  (if negb exists_input then
     print (InputMissing input_dir) ;;; throw (SystemExit 1)
   else unit_T tt) ;;;
  makedirs output_dir ;;;
  obj_files <~ (fun st => (Done (find_obj_files (tree st) input_dir), st)) ;;
  (match obj_files with
   | [] => print (NoObjFiles input_dir) ;;; throw (SystemExit 1)
   | _ :: _ => unit_T tt
   end) ;;;
  let total_files := List.length obj_files in
  print (Found total_files) ;;;
  print (InputDirectory input_dir) ;;;
  print (OutputDirectory output_dir) ;;;
  print (AngleThreshold angle_degrees) ;;;
  print Rule ;;;
  success_count <~ process_all input_dir output_dir angle_degrees total_files
                               obj_files 1 0 ;;
  print Rule ;;;
  print Complete ;;;
  print (Summary success_count total_files) ;;;
  (if Nat.ltb success_count total_files then
     print (FailedCount (total_files - success_count))
   else unit_T tt).

(** The process from [main()] to its end. *)
Definition main (cwd : Path) (a : args) (t : node)
  : termination * tool_state :=
  match main_body cwd a (mkTool t [] []) with
  | (Done _, st) => (Returned, st)
  | (Throw (SystemExit code), st) => (SysExit code, st)
  | (Throw e, st) => (Uncaught e, st)
  end.

End Tool.

(** The OBJ files below a directory, as [find_obj_files] collects them
    from the walk. *)
Definition obj_of (r : Path * list string * list string) : list Path :=
  let '(root, _, files) := r in
  map (fun file => root ++ [file])
      (filter (fun file => endswith (lower file) ".obj") files).

Definition objs (root : Path) (t : node) : list Path :=
  flat_map obj_of (walk root t).

Definition files_of (es : list (string * node)) : list string :=
  map fst (filter (fun e => negb (is_dir_entry e)) es).

End Decimate.
(** ** Vocabulary of the statements *)

(** The number of entries of directory [D] whose name ends with [ext]. *)
Definition count_ext (t : node) (D : Path) (ext : string) : nat :=
  List.length (filter (fun n => endswith n ext) (listdir_fs t D)).

Definition countMesh (t : node) (D : Path) : nat := count_ext t D ".obj".
Definition countFootprint (t : node) (D : Path) : nat := count_ext t D ".geojson".
Definition countText (t : node) (D : Path) : nat := count_ext t D ".txt".

(** The qualification test on the file tree. *)
Definition qualifies (t : node) (D : Path) : bool :=
  Nat.ltb 0 (List.length (glob_fs t D "*.obj")) &&
  Nat.ltb 0 (List.length (glob_fs t D "*.geojson")) &&
  Nat.ltb 0 (List.length (glob_fs t D "*.txt")).

(** The children of a directory, in listing order. *)
Definition children (root : Path) (es : list (string * node)) : list Path :=
  map (fun n => root ++ [n]) (map fst es).

Definition name_le (a b : string) : Prop := String.leb a b = true.

Fixpoint sorted_by_name (l : list Path) : bool :=
  match l with
  | [] => true
  | p :: l' =>
      forallb (fun q => String.leb (name p) (name q)) l' && sorted_by_name l'
  end.
(** ** Auxiliary definitions of the proofs *)

(** A text file with the given lines, each ended by a line feed. *)
Definition text_of (ls : list string) : string :=
  String.concat "" (map (fun l => (l ++ String LF "")%string) ls).

(** A data folder whose listing is B, A, C; C has no footprint file. *)
Definition listing_BAC : list (string * node) :=
  [("B", Dir [("b.obj", File ""); ("b.geojson", File "");
              ("b.txt", File (text_of ["10"; "20"]))]);
   ("A", Dir [("a.obj", File ""); ("a.geojson", File "");
              ("a.txt", File (text_of ["1"; "2"]))]);
   ("C", Dir [("c.obj", File ""); ("c.txt", File (text_of ["5"; "6"]))])].

Definition data_BAC : node := Dir [("data", Dir listing_BAC)].

Definition gui_batch : ProcessingGUI := mkGUI "data" "dtm.tif" "out" true.

(** The same data folder, listed in the order A, B, C. *)
Definition listing_ABC : list (string * node) :=
  [("A", Dir [("a.obj", File ""); ("a.geojson", File ""); ("a.txt", File "")]);
   ("B", Dir [("b.obj", File ""); ("b.geojson", File ""); ("b.txt", File "")]);
   ("C", Dir [("c.obj", File ""); ("c.txt", File "")])].

Definition data_ABC : node := Dir [("data", Dir listing_ABC)].

(** ** Vocabulary of the statements about the script *)

(** The stages in the order of the script. *)
Definition all_stages : list stage :=
  [Separation; Decimation; Translation; Elevation; SemanticMapping;
   ConvertCityGML; MergeCityGML].

(** The directories the script creates. *)
Definition work_dirs (s : script) : list string :=
  [out_separate s; out_decimate s; out_translate s; out_semantic s;
   out_elevate s; out_citygml s].

Definition created_dirs (s : script) : list string :=
  work_dirs s ++ [final_output_dir s].

(** The name of a directory entry: one part of a path, neither empty nor a
    dot or a double dot. *)
Fixpoint no_slash (s : string) : Prop :=
  match s with
  | EmptyString => True
  | String c s' => c <> "/"%char /\ no_slash s'
  end.

Definition dir_name (n : string) : Prop :=
  no_slash n /\ n <> "" /\ n <> "." /\ n <> "..".

(** The character [c] does not occur in [s]. *)
Fixpoint free_of (c : ascii) (s : string) : Prop :=
  match s with
  | EmptyString => True
  | String a s' => a <> c /\ free_of c s'
  end.

(** A line of text: no line feed and no carriage return inside. *)
Fixpoint one_line (s : string) : Prop :=
  match s with
  | EmptyString => True
  | String c s' => c <> LF /\ c <> CR /\ one_line s'
  end.

(** Strict sequencing, as a property of one run of a unit's script and of
    the outcome line the worker writes for it: after a stage that exits
    non-zero no stage is run, and the outcome is that failure. *)
Definition strict_sequencing (r : sh_state) (unit : string)
  (outcome : log_entry) : Prop :=
  forall pre stg code post,
    sh_ran r = pre ++ (stg, code) :: post ->
    code <> 0%Z ->
    post = [] /\ outcome = LogExit unit code.

Definition stage_of (c : command) : list stage :=
  match c with
  | Run st _ => [st]
  | _ => []
  end.

(** The arguments of the separation and of the translation program, as the
    script text has them. *)
Definition separation_argv (s : script) : list arg :=
  [Quoted [Text "go"]; Quoted [Text "run"];
   Quoted [Text "func/separator/objseparator.go"];
   Unquoted [Text "-cx="; Var CX];
   Unquoted [Text "-cy="; Var CY];
   Quoted [Text (str (OBJ s))];
   Quoted [Text (str (BO s))];
   Quoted [Text (out_separate s)]].

(** The commands of the script that read the coordinates, and those that
    make the directories. *)
Definition reads (s : script) : list command :=
  [Substitute CX 1 (str (TXT s)); Substitute CY 2 (str (TXT s))].

Definition prelude (s : script) : list command :=
  map Mkdir_p (created_dirs s).

Definition says_mkdir_failed (l : outline) : bool :=
  match l with
  | Diagnostic (MkdirCannotCreate _) => true
  | _ => false
  end.

(** One place lies on the path to the other, or is the other. *)
Definition prefix_of (p q : Path) : Prop := exists r, q = p ++ r.

(** Two directories whose trees meet: one is the other or lies inside
    it. *)
Definition comparable (p q : Path) : Prop := prefix_of p q \/ prefix_of q p.

(** The places of the directories a list of commands makes. *)
Definition made_by (cwd : Path) (cmds : list command) : list Path :=
  flat_map (fun c => match c with
                     | Mkdir_p dir => [locate cwd dir]
                     | _ => []
                     end) cmds.

Definition stage_dirs : list string :=
  ["separate"; "decimate"; "translate"; "split"; "elevate"; "citygml"].

(** The working directories of unit [n] and its output directory, as
    places. *)
Definition working_places (cwd : Path) (n : string) : list Path :=
  map (fun d => cwd ++ ["temp"; n; d]) stage_dirs.

Definition output_root (cwd : Path) (s : script) : Path :=
  locate cwd (OUTPUT_PATH s ++ "/").

(** ** Auxiliary definitions of the proofs about the script *)

(** An optional carriage return at the end of a line. *)
Definition opt_cr (s : string) : Prop := s = "" \/ s = String CR "".

(** A separation program that fails; every other stage succeeds. *)
Definition separation_fails (stg : stage) (argv : list argument) (t : node)
  : node * list string * Z :=
  match stg with
  | Separation => (t, ["separation failed"], 1%Z)
  | _ => (t, [], 0%Z)
  end.

Definition stages_succeed (stg : stage) (argv : list argument) (t : node)
  : node * list string * Z := (t, [], 0%Z).

(** A re-parsed script that does nothing. *)
Definition shell_exits (t : node) : node * list string * Z := (t, [], 0%Z).

Definition script_B : script :=
  mkScript ["data"; "B"; "b.txt"] ["data"; "B"; "b.obj"]
           ["data"; "B"; "b.geojson"] "dtm.tif" "B" "out".

Definition crlf (s : string) : string := String CR (String LF s).

(** Folder B with the coordinate file of the specification's example. *)
Definition data_crlf : node :=
  Dir [("data",
        Dir [("B", Dir [("b.obj", File ""); ("b.geojson", File "");
                        ("b.txt", File ("12345.6" ++ crlf ("67890.1" ++ crlf "")))])])].

(** Folder B with a coordinate file of one line. *)
Definition data_one_line : node :=
  Dir [("data",
        Dir [("B", Dir [("b.obj", File ""); ("b.geojson", File "");
                        ("b.txt", File ("12345.6" ++ String LF ""))])])].

(** The entry a path part leads to, or the fresh directory made for it. *)
Definition entry_or_new (c : string) (es : list (string * node)) : node :=
  match lookup_entry c es with
  | Some x => x
  | None => Dir []
  end.

Definition script_of (n out : string) : script :=
  mkScript ["data"; n; "c.txt"] ["data"; n; "m.obj"] ["data"; n; "f.geojson"]
           "dtm.tif" n out.

(** A folder whose name bash expands: the name is a dollar sign followed
    by the letter A. *)
Definition script_dollar : script :=
  script_of (String DOLLAR "A") "out".

(** The programs a list of commands starts, each with the arguments it
    receives when [$X] and [$Y] have the values of [e]. *)
Definition calls_of (e : env) (cmds : list command)
  : list (stage * list argument) :=
  flat_map (fun c => match c with
                     | Run stg argv => [(stg, eval_argv e argv)]
                     | _ => []
                     end) cmds.

Definition sets_variable (c : command) : bool :=
  match c with
  | Substitute _ _ _ => true
  | _ => false
  end.

(** ** Vocabulary of the statements about the decimation tool *)

(** Whatever [m] raises satisfies [P]. *)
Definition raises {A : Type} (m : Decimate.T A) (P : Decimate.error -> Prop)
  : Prop :=
  forall st e st', m st = (Decimate.Throw e, st') -> P e.

(** An exception that [except Exception] catches. *)
Definition caught (e : Decimate.error) : Prop :=
  forall code, e <> Decimate.SystemExit code.

(** The exception that a line which cannot be printed raises. *)
Definition print_failed (stdout : Decimate.message -> bool)
  (e : Decimate.error) : Prop :=
  e = Decimate.PrintError /\ exists m, stdout m = false.

(** A standard output that takes every line. *)
Definition stdout_open (m : Decimate.message) : bool := true.

(** An input directory with one OBJ file, and a regular file where the
    output directory should be. *)
Definition data_decimate : node :=
  Dir [("in", Dir [("a.obj", File "")]); ("out", File "")].

(** A Blender in which every call returns. *)
Definition bpy_returns : Decimate.bpy :=
  Decimate.mkBpy
    (fun _ => Decimate.Returns (Some (Decimate.mkObject "MESH" 4), []))
    (fun _ => Decimate.Returns 8)
    (fun o _ => Decimate.Returns (Decimate.mkObject "MESH" 2))
    (fun _ _ => Decimate.Returns tt).

(** ** Vocabulary of the statements about the worker *)

Definition is_stop (l : label) : bool :=
  match l with
  | Stop => true
  | _ => false
  end.

(** A schedule in which the Stop button is not pressed. *)
Definition no_stop (schedule : list label) : bool :=
  forallb (fun l => negb (is_stop l)) schedule.

(** The program points inside the [try] of line 349. *)
Definition in_inner_try (p : pc) : bool :=
  match p with
  | AtBody | AtAssign _ | AtReadline | AtCheck _ | AtLog _ | AtWait
  | AtReport _ => true
  | _ => false
  end.

(** A schedule, run from [s], in which whatever the worker's statements
    raise is raised inside the [try] of line 349: the calls of the GUI
    outside it (lines 338, 345, 347, 397, 400-408) return. *)
Fixpoint raises_inside_only (schedule : list label) (s : state) : bool :=
  match schedule with
  | [] => true
  | l :: rest =>
      match l with
      | Worker (Some _) => in_inner_try (at_pc s)
      | _ => true
      end && raises_inside_only rest (step s l)
  end.

(** A schedule, run from [s], that only lets the worker and the scripts
    go on: nothing is raised, nothing printed by the programs, and a
    program that bash number [k] started exits with the status
    [verdict k] gives it. *)
Fixpoint calm (verdict : nat -> program -> Z) (schedule : list label)
  (s : state) : bool :=
  match schedule with
  | [] => true
  | l :: rest =>
      match l with
      | Worker None => true
      | Bash _ => true
      | ToolExits k code =>
          match nth_error (procs s) k with
          | Some p =>
              match p_running p with
              | Some prog => Z.eqb code (verdict k prog)
              | None => false
              end
          | None => false
          end
      | _ => false
      end && calm verdict rest (step s l)
  end.

Definition is_line (e : log_entry) : bool :=
  match e with
  | LogLine _ => true
  | _ => false
  end.

(** The log without the lines forwarded from the scripts, and these
    lines. *)
Definition skeleton (l : list log_entry) : list log_entry :=
  filter (fun e => negb (is_line e)) l.

Definition forwarded (l : list log_entry) : list log_entry :=
  filter is_line l.

(** What became of a folder: an exception was caught at line 396, or the
    script ran as process number [k] and bash exited with [code]. *)
Inductive fate :=
| Raised (e : exception)
| Ran (k : nat) (code : Z).

(** The outcome line of a folder. *)
Definition outcome_line (subgrid_prefix : string) (f : fate) : log_entry :=
  match f with
  | Raised e => LogException subgrid_prefix e
  | Ran _ code => report subgrid_prefix code
  end.

(** The lines of the folders that have an outcome: for each, its header
    and its outcome line; [j] numbers the folders. *)
Fixpoint batch_lines (n j : nat) (folders : list Path) (fates : list fate)
  : list log_entry :=
  match folders, fates with
  | folder :: folders', f :: fates' =>
      LogFolder j n (name folder)
        :: outcome_line (name folder) f
        :: batch_lines n (S j) folders' fates'
  | _, _ => []
  end.

Definition header_lines (folders : list Path) (fates : list fate)
  : list log_entry :=
  LogStarting (List.length folders)
    :: batch_lines (List.length folders) 1 folders fates.

(** Every outcome that reports an exit status reports the status with
    which the bash process of that folder's script exited. *)
Definition justified (s : state) (folders : list Path) (fates : list fate)
  : Prop :=
  forall j folder k code,
    nth_error folders j = Some folder ->
    nth_error fates j = Some (Ran k code) ->
    exists p,
      nth_error (procs s) k = Some p /\
      p_unit p = name folder /\
      returncode p = Some code.

(** The batch has been worked through: the log holds, between the line
    that announces the batch and the line that closes it, the header and
    the outcome line of every folder, in the order of the list. *)
Definition complete (folders : list Path) (s : state) : Prop :=
  exists fates,
    List.length fates = List.length folders /\
    justified s folders fates /\
    skeleton (log s) = header_lines folders fates ++ [LogCompleted] /\
    progress_var s = Completed.

(** The batch so far: nothing is logged yet, or the folders with an
    outcome are the first of the list, and what follows their lines is
    nothing, the header of the next folder, or the closing line. *)
Definition underway (folders : list Path) (s : state) : Prop :=
  skeleton (log s) = [] \/
  exists fates tail,
    List.length fates <= List.length folders /\
    justified s folders fates /\
    skeleton (log s) = header_lines folders fates ++ tail /\
    (tail = [] \/
     (exists folder,
         nth_error folders (List.length fates) = Some folder /\
         tail = [LogFolder (S (List.length fates)) (List.length folders)
                           (name folder)]) \/
     (List.length fates = List.length folders /\ tail = [LogCompleted])).

(** ** Auxiliary definitions of the proofs about the worker *)

(** The worker is at the folder that follows those with an outcome. *)
Definition at_folder (folders : list Path) (fates : list fate) (s : state)
  : Prop :=
  nth_error folders (List.length fates) = Some (folder_path s) /\
  remaining s = skipn (S (List.length fates)) folders /\
  i s = S (List.length fates).

(** [self.process] is the process of the folder the worker is at. *)
Definition reading_process (s : state) (p : subprocess) : Prop :=
  exists k,
    process s = Some k /\
    nth_error (procs s) k = Some p /\
    p_unit p = name (folder_path s).

(** What holds at each program point of the worker while the Stop button
    has not been pressed and nothing was raised outside the [try] of line
    349. *)
Definition worker_inv (folders : list Path) (fates : list fate) (s : state)
  : Prop :=
  let n := List.length folders in
  let done := header_lines folders fates in
  let begun :=
    done ++ [LogFolder (S (List.length fates)) n (name (folder_path s))] in
  match at_pc s with
  | AtStart => False
  | AtStartLog =>
      fates = [] /\ skeleton (log s) = [] /\ remaining s = folders /\ i s = 0
  | AtLoopTop =>
      skeleton (log s) = done /\
      remaining s = skipn (List.length fates) folders /\
      i s = List.length fates
  | AtHeader | AtHeaderLog =>
      skeleton (log s) = done /\ at_folder folders fates s
  | AtBody | AtExcept _ =>
      skeleton (log s) = begun /\ at_folder folders fates s
  | AtAssign k =>
      skeleton (log s) = begun /\ at_folder folders fates s /\
      exists p,
        nth_error (procs s) k = Some p /\ p_unit p = name (folder_path s)
  | AtReadline | AtCheck _ | AtLog _ =>
      skeleton (log s) = begun /\ at_folder folders fates s /\
      exists p, reading_process s p
  | AtWait =>
      skeleton (log s) = begun /\ at_folder folders fates s /\
      exists p code, reading_process s p /\ returncode p = Some code
  | AtReport code =>
      skeleton (log s) = begun /\ at_folder folders fates s /\
      exists p, reading_process s p /\ returncode p = Some code
  | AtEnd | AtClosing true =>
      skeleton (log s) = done /\ List.length fates = n
  | AtClosing false => False
  | AtClosingSet completed =>
      completed = true /\
      skeleton (log s) = done ++ [LogCompleted] /\ List.length fates = n
  | AtOuter _ | AtOuterSet => False
  | Finished =>
      skeleton (log s) = done ++ [LogCompleted] /\
      List.length fates = n /\ progress_var s = Completed
  end.

Definition isolated (folders : list Path) (s : state) : Prop :=
  exists fates,
    folders_to_process s = folders /\
    at_stop s = StopIdle /\
    (processing s = true \/ at_pc s = Finished) /\
    justified s folders fates /\
    List.length fates <= List.length folders /\
    worker_inv folders fates s.

(** Every process of [l] is in [l'] under the same number, for the same
    folder, and has not come back to life. *)
Definition kept (l l' : list subprocess) : Prop :=
  forall k p,
    nth_error l k = Some p ->
    exists p',
      nth_error l' k = Some p' /\
      p_unit p' = p_unit p /\
      p_plain p' = p_plain p /\
      (forall c, returncode p = Some c -> returncode p' = Some c).

(** The state differs from [s] in its processes, file tree and trace
    only. *)
Definition same_worker (s s' : state) : Prop :=
  self s' = self s /\ processing s' = processing s /\
  process s' = process s /\ at_stop s' = at_stop s /\
  progress_var s' = progress_var s /\ log s' = log s /\
  at_pc s' = at_pc s /\ folders_to_process s' = folders_to_process s /\
  remaining s' = remaining s /\ i s' = i s /\
  folder_path s' = folder_path s.

(** From [s] a calm schedule leads to a state with [P]. *)
Definition can_reach (verdict : nat -> program -> Z) (s : state)
  (P : state -> Prop) : Prop :=
  exists schedule, calm verdict schedule s = true /\ P (run schedule s).

(** What a script process still has to do. *)
Definition weight (p : subprocess) : nat :=
  2 * List.length (p_todo p)
  + (match p_running p with Some _ => 1 | None => 0 end)
  + (match returncode p with Some _ => 0 | None => 1 end).

(** The worker is in the loop that reads the output of process [k]. *)
Definition reads_from (s : state) (k : nat) (p : subprocess) : Prop :=
  at_pc s = AtReadline /\ process s = Some k /\
  nth_error (procs s) k = Some p /\ processing s = true.

(** The target of the worker within a folder: the top of the loop, with
    the same folders ahead. *)
Definition next_folder (s s' : state) : Prop :=
  at_pc s' = AtLoopTop /\ remaining s' = remaining s.

(** The names of the folders that were begun, from their headers. *)
Definition begun (l : list log_entry) : list string :=
  flat_map (fun e => match e with
                     | LogFolder _ _ subgrid_prefix => [subgrid_prefix]
                     | _ => []
                     end) l.

(** A data folder with three qualifying folders. *)
Definition listing_three : list (string * node) :=
  [("A", Dir [("a.obj", File ""); ("a.geojson", File "");
              ("a.txt", File (text_of ["1"; "2"]))]);
   ("B", Dir [("b.obj", File ""); ("b.geojson", File "");
              ("b.txt", File (text_of ["10"; "20"]))]);
   ("C", Dir [("c.obj", File ""); ("c.geojson", File "");
              ("c.txt", File (text_of ["5"; "6"]))])].

Definition data_three : node := Dir [("data", Dir listing_three)].

(** The labels of a run of script number [k] in which the worker reads
    every line as soon as it is written and the stages exit with the
    statuses [codes] gives. *)
Definition command_labels (k : nat) (codes : stage -> Z) (c : command)
  : list label :=
  match c with
  | Run st _ => [Bash k; ToolExits k (codes st)]
  | Echo _ => [Bash k; Worker None; Worker None; Worker None]
  | _ => [Bash k]
  end.

Definition folder_labels (k : nat) (codes : stage -> Z) : list label :=
  repeat (Worker None) 5
    ++ flat_map (command_labels k codes) (script_commands script_B)
    ++ [Bash k]
    ++ repeat (Worker None) 3.

(** The labels of a folder whose script cannot be launched: [Popen]
    raises. *)
Definition failed_launch_labels : list label :=
  repeat (Worker None) 3
    ++ [Worker (Some (Other "Popen")); Worker None].

Definition translation_fails (st : stage) : Z :=
  match st with
  | Translation => 1%Z
  | _ => 0%Z
  end.

Definition all_succeed (st : stage) : Z := 0%Z.

(** A batch of three folders: in the first the translation exits with
    status 1, the script of the second cannot be launched, the third runs
    without a failure. *)
Definition batch_of_three : list label :=
  [Worker None]
    ++ folder_labels 0 translation_fails
    ++ failed_launch_labels
    ++ folder_labels 1 all_succeed
    ++ repeat (Worker None) 4.

(** ** Vocabulary of the statements about the Stop button *)

(** The worker is in the loop that reads the output of a script. *)
Definition reading (p : pc) : bool :=
  match p with
  | AtReadline | AtCheck _ | AtLog _ => true
  | _ => false
  end.

(** [stop_processing] is past its call of [terminate]. *)
Definition handled (sp : stop_pc) : bool :=
  match sp with
  | StopSet | StopIdle => true
  | _ => false
  end.

(** Bash number [k] has exited. *)
Definition dead (k : nat) (s : state) : Prop :=
  exists p code, nth_error (procs s) k = Some p /\ returncode p = Some code.

(** The programs bash number [k] started, in order. *)
Definition starts (k : nat) (tr : list event) : list program :=
  flat_map (fun e => match e with
                     | Started k' prog => if Nat.eqb k' k then [prog] else []
                     | _ => []
                     end) tr.

(** ** Auxiliary definitions of the proofs about the Stop button *)

(** The program points from which the worker begins no folder while the
    flag is down. *)
Definition quiet_point (p : pc) : bool :=
  match p with
  | AtStart | AtStartLog | AtHeader | AtHeaderLog | AtBody | AtAssign _ =>
      false
  | _ => true
  end.

(** What holds from the moment the Stop button is pressed while the
    worker reads the output of script [k]: [n] processes were launched, the
    folders [b] begun and [base] lines forwarded until then. *)
Definition halted (k n : nat) (b : list string) (base : nat) (s : state)
  : Prop :=
  processing s = false /\
  process s = Some k /\
  List.length (procs s) = n /\
  begun (log s) = b /\
  quiet_point (at_pc s) = true /\
  match at_pc s with
  | AtLog _ => List.length (forwarded (log s)) = base
  | _ => List.length (forwarded (log s)) <= S base
  end /\
  (exists p, nth_error (procs s) k = Some p /\ p_plain p = true) /\
  (handled (at_stop s) = true -> dead k s).

(** The labels that bring the worker and the first script to the moment
    at which the separation is in flight. *)
Definition until_separation : list label :=
  repeat (Worker None) 7
    ++ flat_map (command_labels 0 all_succeed)
                (firstn 13 (script_commands script_B))
    ++ [Bash 0].

(** The separation exits and bash goes on to the decimation. *)
Definition on_to_decimation : list label :=
  [ToolExits 0 0%Z; Bash 0; Bash 0].

(** The state in which the separation of folder A is in flight and the
    worker waits for its output. *)
Definition separation_in_flight : state :=
  run until_separation (init gui_batch (mkWorld data_three [])).

(** [stop_processing] runs up to its call of [terminate]. *)
Definition handler_terminates : list label := [Gui; Gui].

(** The decimation exits, the worker finds the end of the output and
    leaves the loop; [stop_processing] sets the progress text. *)
Definition winding_up : list label :=
  [ToolExits 0 0%Z; Bash 0] ++ repeat (Worker None) 7 ++ [Gui].

(** The process number [k], or a process that was never launched. *)
Definition process_number (k : nat) (s : state) : subprocess :=
  match nth_error (procs s) k with
  | Some p => p
  | None => mkProc EmptyString false [] (EmptyString, EmptyString) None 0 None []
  end.

(** * Properties *)
(** ** The locator: [has_required_files] and [get_processing_folders] *)

Lemma name_child : forall (root : Path) (n : string), name (root ++ [n]) = n.
Proof. intros root n. unfold name. apply last_last. Qed.

Lemma length_glob_star : forall t D ext,
  List.length (glob_fs t D (String "*"%char ext)) = count_ext t D ext.
Proof.
  intros t D ext. unfold glob_fs, count_ext.
  rewrite length_map. reflexivity.
Qed.

Lemma has_required_files_run : forall folder_path w,
  has_required_files folder_path w = (Ok (qualifies (fs w) folder_path), w).
Proof. reflexivity. Qed.

Lemma qualifies_counts : forall t D,
  qualifies t D = true <->
  countMesh t D >= 1 /\ countFootprint t D >= 1 /\ countText t D >= 1.
Proof.
  intros t D. unfold qualifies, countMesh, countFootprint, countText.
  rewrite !length_glob_star, !andb_true_iff, !Nat.ltb_lt. lia.
Qed.

Lemma valid_subfolders_run : forall subfolders w,
  valid_subfolders subfolders w =
  (Ok (filter (fun sub => is_dir_fs (fs w) sub && qualifies (fs w) sub)
              subfolders), w).
Proof.
  induction subfolders as [|sub rest IH]; intro w.
  - reflexivity.
  - cbn [valid_subfolders filter]. unfold bind at 1. unfold is_dir at 1.
    destruct (is_dir_fs (fs w) sub) eqn:Hd; cbn [andb].
    + unfold bind at 1. rewrite has_required_files_run.
      unfold bind at 1. rewrite IH.
      destruct (qualifies (fs w) sub); reflexivity.
    + unfold bind at 1. unfold ret at 1. unfold bind at 1. rewrite IH.
      reflexivity.
Qed.

Lemma iterdir_dir : forall root w es,
  resolve root (fs w) = Some (Dir es) ->
  iterdir root w = (Ok (children root es), w).
Proof. intros root w es H. unfold iterdir. rewrite H. reflexivity. Qed.

Lemma batch_folders : forall g w es,
  batch_mode g = true ->
  data_folder g <> "" ->
  resolve (mkPath (data_folder g)) (fs w) = Some (Dir es) ->
  get_processing_folders g w =
  (Ok (filter (fun sub => is_dir_fs (fs w) sub && qualifies (fs w) sub)
              (children (mkPath (data_folder g)) es)), w).
Proof.
  intros g w es Hb Hd Hr. unfold get_processing_folders.
  apply String.eqb_neq in Hd. rewrite Hd, Hb.
  unfold bind. rewrite (iterdir_dir _ _ _ Hr). apply valid_subfolders_run.
Qed.

(** The scan only reads: whatever it returns, the world is as before. *)
Lemma get_processing_folders_reads : forall g w,
  snd (get_processing_folders g w) = w.
Proof.
  intros g w. unfold get_processing_folders.
  destruct (String.eqb (data_folder g) ""); [reflexivity|].
  destruct (batch_mode g).
  - unfold bind, iterdir.
    destruct (resolve (mkPath (data_folder g)) (fs w)) as [[c|es]|];
      try reflexivity.
    rewrite valid_subfolders_run. reflexivity.
  - reflexivity.
Qed.

(** Every folder the scan returns passes the qualification test. *)
Lemma get_processing_folders_qualify : forall g w l w',
  get_processing_folders g w = (Ok l, w') ->
  w' = w /\ forall folder, In folder l -> qualifies (fs w) folder = true.
Proof.
  intros g w l w' H.
  assert (Hw : w' = w).
  { pose proof (get_processing_folders_reads g w) as R. rewrite H in R. exact R. }
  split; [exact Hw|]. subst w'.
  unfold get_processing_folders in H.
  destruct (String.eqb (data_folder g) "").
  - inversion H; subst. intros f [].
  - destruct (batch_mode g).
    + unfold bind, iterdir in H.
      destruct (resolve (mkPath (data_folder g)) (fs w)) as [[c|es]|];
        try discriminate.
      rewrite valid_subfolders_run in H. inversion H; subst.
      intros f Hin. apply filter_In in Hin. destruct Hin as [_ Hq].
      apply andb_true_iff in Hq. tauto.
    + unfold bind in H. rewrite has_required_files_run in H.
      unfold ret in H. inversion H; subst.
      destruct (qualifies (fs w) (mkPath (data_folder g))) eqn:Hq.
      * intros f [<-|[]]. exact Hq.
      * intros f [].
Qed.

(** C3.  A directory qualifies exactly when it lists at least one entry of
    each of the three kinds (names ending in .obj, .geojson and .txt); and in
    batch mode the scan of a root directory succeeds and returns, of the
    root's children, exactly the directories that qualify: a child that does
    not qualify is left out and raises nothing. *)
Theorem qualifies_iff_three_kinds :
  forall (w : World) (D : Path),
    (exists b,
        has_required_files D w = (Ok b, w) /\
        (b = true <->
         countMesh (fs w) D >= 1 /\ countFootprint (fs w) D >= 1 /\
         countText (fs w) D >= 1))
    /\
    (forall g es,
        batch_mode g = true ->
        data_folder g <> "" ->
        resolve (mkPath (data_folder g)) (fs w) = Some (Dir es) ->
        exists l,
          get_processing_folders g w = (Ok l, w) /\
          forall sub,
            In sub l <->
            In sub (children (mkPath (data_folder g)) es) /\
            is_dir_fs (fs w) sub = true /\
            has_required_files sub w = (Ok true, w)).
Proof.
  intros w D. split.
  - exists (qualifies (fs w) D). split.
    + apply has_required_files_run.
    + apply qualifies_counts.
  - intros g es Hb Hd Hr. eexists. split.
    + apply batch_folders; eassumption.
    + intro sub. rewrite filter_In, andb_true_iff, has_required_files_run.
      split.
      * intros (Hin & Hdir & Hq). rewrite Hq. auto.
      * intros (Hin & Hdir & Hq). inversion Hq as [Hq']. rewrite Hq'. auto.
Qed.

Lemma qualifies_iff_three_kinds_witness :
  (exists b,
      has_required_files ["data"; "C"] (mkWorld data_BAC []) =
      (Ok b, mkWorld data_BAC []) /\ b = false)
  /\
  (exists l,
      get_processing_folders gui_batch (mkWorld data_BAC []) =
      (Ok l, mkWorld data_BAC []) /\
      In ["data"; "A"] l /\ ~ In ["data"; "C"] l).
Proof.
  pose proof (qualifies_iff_three_kinds (mkWorld data_BAC []) ["data"; "C"])
    as [[b [Hrun Hb]] Hbatch].
  split.
  - exists b. split; [exact Hrun|].
    destruct b; [|reflexivity].
    destruct Hb as [Hb _]. specialize (Hb eq_refl).
    destruct Hb as (_ & Hf & _). vm_compute in Hf. lia.
  - destruct (Hbatch gui_batch listing_BAC) as [l [Hl Hin]].
    + reflexivity.
    + discriminate.
    + reflexivity.
    + exists l. split; [exact Hl|]. split.
      * apply Hin. split; [|split]; [vm_compute; auto | reflexivity | reflexivity].
      * intro HC. apply Hin in HC. destruct HC as (_ & _ & HC).
        discriminate HC.
Defined.

Lemma StronglySorted_filter : forall (A : Type) (R : A -> A -> Prop) (f : A -> bool) l,
  StronglySorted R l -> StronglySorted R (filter f l).
Proof.
  intros A R f l H. induction H as [|a l Hs IH Hall]; cbn [filter].
  - constructor.
  - destruct (f a); [|exact IH].
    constructor; [exact IH|].
    rewrite Forall_forall in *. intros x Hx. apply filter_In in Hx.
    apply Hall. tauto.
Qed.

Lemma map_name_children : forall root es (f : Path -> bool),
  map name (filter f (children root es)) =
  filter (fun n => f (root ++ [n])) (map fst es).
Proof.
  intros root es f. unfold children.
  induction (map fst es) as [|n ns IH]; [reflexivity|].
  cbn [map filter]. destruct (f (root ++ [n])); cbn [map].
  - rewrite name_child, IH. reflexivity.
  - exact IH.
Qed.

(** C6, as the code has it.  In batch mode the scan returns the qualifying
    subfolders in the order in which the root directory lists them: no sort
    is applied.  The names come out sorted whenever the listing is sorted,
    and a second scan of an unchanged tree returns the same list. *)
Theorem locator_keeps_listing_order :
  forall (g : ProcessingGUI) (w : World) (es : list (string * node)),
    batch_mode g = true ->
    data_folder g <> "" ->
    resolve (mkPath (data_folder g)) (fs w) = Some (Dir es) ->
    exists l,
      get_processing_folders g w = (Ok l, w) /\
      l = filter (fun sub => is_dir_fs (fs w) sub && qualifies (fs w) sub)
                 (children (mkPath (data_folder g)) es) /\
      (StronglySorted name_le (map fst es) ->
       StronglySorted name_le (map name l)) /\
      get_processing_folders g (snd (get_processing_folders g w)) =
      get_processing_folders g w.
Proof.
  intros g w es Hb Hd Hr. eexists. split; [|split; [reflexivity|split]].
  - apply batch_folders; assumption.
  - intro Hs. rewrite map_name_children. apply StronglySorted_filter, Hs.
  - rewrite get_processing_folders_reads. reflexivity.
Qed.

Lemma name_le_sorted_ABC : StronglySorted name_le ["A"; "B"; "C"].
Proof.
  repeat constructor.
Qed.

Lemma locator_keeps_listing_order_witness :
  exists l,
    get_processing_folders gui_batch (mkWorld data_ABC []) =
    (Ok l, mkWorld data_ABC []) /\
    l = [["data"; "A"]; ["data"; "B"]] /\
    StronglySorted name_le (map name l).
Proof.
  destruct (locator_keeps_listing_order gui_batch (mkWorld data_ABC [])
              listing_ABC eq_refl)
    as [l (Hrun & Hl & Hsorted & _)].
  - discriminate.
  - reflexivity.
  - exists l. split; [exact Hrun|]. split.
    + rewrite Hl. reflexivity.
    + apply Hsorted. exact name_le_sorted_ABC.
Defined.

(** C6, as the specification states it, fails: when the directory lists B before A,
    the scan returns B before A. *)
Lemma locator_sorted_counterexample :
  fst (get_processing_folders gui_batch (mkWorld data_BAC [])) =
  Ok [["data"; "B"]; ["data"; "A"]]
  /\ sorted_by_name [["data"; "B"]; ["data"; "A"]] = false.
Proof. split; reflexivity. Qed.

(** ** The plan: [create_shell_script] *)

Lemma create_shell_script_run : forall g folder prefix w,
  create_shell_script g folder prefix w =
  (match glob_fs (fs w) folder "*.obj", glob_fs (fs w) folder "*.geojson",
         glob_fs (fs w) folder "*.txt" with
   | obj_file :: _, geojson_file :: _, txt_file :: _ =>
       Ok (mkScript txt_file obj_file geojson_file (dtm_path g) prefix
                    (output_folder g))
   | _, _, _ => Raise (ValueError folder)
   end, w).
Proof.
  intros g folder prefix w. unfold create_shell_script, bind, glob.
  destruct (glob_fs (fs w) folder "*.obj") as [|o ?];
    destruct (glob_fs (fs w) folder "*.geojson") as [|j ?];
    destruct (glob_fs (fs w) folder "*.txt") as [|x ?]; reflexivity.
Qed.

Lemma qualifies_script : forall g folder prefix w,
  qualifies (fs w) folder = true ->
  exists s,
    create_shell_script g folder prefix w = (Ok s, w) /\
    hd_error (glob_fs (fs w) folder "*.obj") = Some (OBJ s) /\
    hd_error (glob_fs (fs w) folder "*.geojson") = Some (BO s) /\
    hd_error (glob_fs (fs w) folder "*.txt") = Some (TXT s) /\
    DTM s = dtm_path g /\ SUBGRID_PREFIX s = prefix /\
    OUTPUT_PATH s = output_folder g.
Proof.
  intros g folder prefix w Hq. rewrite create_shell_script_run.
  unfold qualifies in Hq. rewrite !andb_true_iff, !Nat.ltb_lt in Hq.
  destruct Hq as [[Ho Hj] Hx].
  destruct (glob_fs (fs w) folder "*.obj") as [|o ?]; [cbn in Ho; lia|].
  destruct (glob_fs (fs w) folder "*.geojson") as [|j ?]; [cbn in Hj; lia|].
  destruct (glob_fs (fs w) folder "*.txt") as [|x ?]; [cbn in Hx; lia|].
  eexists. split; [reflexivity|]. cbn. auto 10.
Qed.

(** C10.  For a folder the scan returned, on the tree the scan saw,
    [create_shell_script] raises nothing: the three globs are non-empty and
    the script is built from their first elements. *)
Theorem scanned_folder_has_script :
  forall (g : ProcessingGUI) (w w' : World) (l : list Path) (folder : Path),
    get_processing_folders g w = (Ok l, w') ->
    In folder l ->
    exists s,
      create_shell_script g folder (name folder) w' = (Ok s, w') /\
      hd_error (glob_fs (fs w') folder "*.obj") = Some (OBJ s) /\
      hd_error (glob_fs (fs w') folder "*.geojson") = Some (BO s) /\
      hd_error (glob_fs (fs w') folder "*.txt") = Some (TXT s).
Proof.
  intros g w w' l folder Hscan Hin.
  apply get_processing_folders_qualify in Hscan. destruct Hscan as [-> Hq].
  destruct (qualifies_script g folder (name folder) w (Hq folder Hin))
    as [s (Hs & Ho & Hj & Hx & _)].
  exists s. auto.
Qed.

Lemma scanned_folder_has_script_witness :
  exists s,
    create_shell_script gui_batch ["data"; "B"] "B" (mkWorld data_BAC []) =
    (Ok s, mkWorld data_BAC []) /\
    OBJ s = ["data"; "B"; "b.obj"] /\
    BO s = ["data"; "B"; "b.geojson"] /\
    TXT s = ["data"; "B"; "b.txt"].
Proof.
  destruct (scanned_folder_has_script gui_batch (mkWorld data_BAC [])
              (mkWorld data_BAC []) [["data"; "B"]; ["data"; "A"]]
              ["data"; "B"] eq_refl (or_introl eq_refl))
    as [s (Hs & Ho & Hj & Hx)].
  exists s. split; [exact Hs|].
  vm_compute in Ho, Hj, Hx.
  inversion Ho. inversion Hj. inversion Hx. auto.
Defined.

(** Building the script only reads the tree. *)
Lemma create_shell_script_reads : forall g folder prefix w,
  snd (create_shell_script g folder prefix w) = w.
Proof. intros. rewrite create_shell_script_run. reflexivity. Qed.
(** *** Text of the coordinate file *)

Lemma append_assoc : forall a b c : string, ((a ++ b) ++ c = a ++ (b ++ c))%string.
Proof.
  induction a as [|x a IH]; intros b c; cbn; [reflexivity|].
  rewrite IH. reflexivity.
Qed.

Lemma append_nil_r : forall a : string, (a ++ "")%string = a.
Proof. induction a as [|x a IH]; cbn; [reflexivity|]. rewrite IH. reflexivity. Qed.

Lemma lines_from_line : forall a b cur,
  one_line a ->
  lines_from (a ++ String LF b) cur = (cur ++ a)%string :: lines_from b "".
Proof.
  induction a as [|c a IH]; intros b cur Ha.
  - cbn. rewrite append_nil_r. reflexivity.
  - cbn [one_line] in Ha. destruct Ha as (Hlf & _ & Ha).
    cbn [append lines_from].
    apply Ascii.eqb_neq in Hlf. rewrite Hlf.
    rewrite IH by exact Ha. rewrite append_assoc. reflexivity.
Qed.

Lemma lines_from_last : forall a cur,
  one_line a ->
  lines_from a cur = if String.eqb (cur ++ a) "" then [] else [(cur ++ a)%string].
Proof.
  induction a as [|c a IH]; intros cur Ha.
  - cbn. rewrite append_nil_r. reflexivity.
  - cbn [one_line] in Ha. destruct Ha as (Hlf & _ & Ha).
    cbn [lines_from]. apply Ascii.eqb_neq in Hlf. rewrite Hlf.
    rewrite IH by exact Ha. rewrite append_assoc. reflexivity.
Qed.

Lemma tr_d_one_line : forall a, one_line a -> tr_d CR a = a.
Proof.
  induction a as [|c a IH]; intro Ha; cbn [tr_d]; [reflexivity|].
  cbn [one_line] in Ha. destruct Ha as (_ & Hcr & Ha).
  apply Ascii.eqb_neq in Hcr. rewrite Hcr, IH by exact Ha. reflexivity.
Qed.

Lemma tr_d_app : forall c a b, tr_d c (a ++ b) = (tr_d c a ++ tr_d c b)%string.
Proof.
  induction a as [|x a IH]; intro b; cbn [append tr_d]; [reflexivity|].
  destruct (Ascii.eqb x c); cbn [append]; rewrite IH; reflexivity.
Qed.

Lemma tr_d_line_cr : forall a cr,
  one_line a -> opt_cr cr -> tr_d CR (a ++ cr) = a.
Proof.
  intros a cr Ha [->| ->]; rewrite tr_d_app, tr_d_one_line by exact Ha; cbn.
  - apply append_nil_r.
  - apply append_nil_r.
Qed.

Lemma no_lf_line_cr : forall a cr b cur,
  one_line a -> opt_cr cr ->
  lines_from ((a ++ cr) ++ String LF b) cur =
  (cur ++ (a ++ cr))%string :: lines_from b "".
Proof.
  intros a cr b cur Ha [->| ->].
  - rewrite append_nil_r. apply lines_from_line, Ha.
  - rewrite append_assoc. cbn [append].
    revert cur. induction a as [|c a IH]; intro cur.
    + cbn. reflexivity.
    + cbn [one_line] in Ha. destruct Ha as (Hlf & _ & Ha).
      cbn [append lines_from]. apply Ascii.eqb_neq in Hlf. rewrite Hlf.
      rewrite IH by exact Ha. rewrite append_assoc. reflexivity.
Qed.

(** The two coordinates of a well-formed file: line 1 and line 2, each
    possibly ending in a carriage return, the second possibly the last line
    of the file and unterminated. *)
Lemma coordinates_of_text : forall x y crx cry tail,
  one_line x -> one_line y -> opt_cr crx -> opt_cr cry ->
  (tail = "" \/ exists rest, tail = String LF rest) ->
  let content := ((x ++ crx) ++ String LF ((y ++ cry) ++ tail))%string in
  tr_d CR (sed_n_p 1 content) = x /\ tr_d CR (sed_n_p 2 content) = y.
Proof.
  intros x y crx cry tail Hx Hy Hcx Hcy Htail content.
  unfold content, sed_n_p, lines.
  rewrite no_lf_line_cr by assumption. cbn [Nat.sub nth append].
  split; [apply tr_d_line_cr; assumption|].
  destruct Htail as [->|[rest ->]].
  - rewrite append_nil_r.
    assert (H : forall cur, lines_from (y ++ cry) cur =
                 if String.eqb (cur ++ (y ++ cry)) "" then []
                 else [(cur ++ (y ++ cry))%string]).
    { destruct Hcy as [->| ->].
      - rewrite append_nil_r. intro cur. apply lines_from_last, Hy.
      - clear Hx. induction y as [|c y IH]; intro cur.
        + cbn. destruct (cur ++ String CR "")%string eqn:E; [|reflexivity].
          destruct cur; discriminate.
        + cbn [one_line] in Hy. destruct Hy as (Hlf & _ & Hy).
          cbn [append lines_from]. apply Ascii.eqb_neq in Hlf. rewrite Hlf.
          rewrite IH by exact Hy. rewrite append_assoc. reflexivity. }
    rewrite H. cbn [append].
    destruct (String.eqb (y ++ cry) "") eqn:E.
    + apply String.eqb_eq in E. cbn.
      destruct y; [reflexivity|discriminate].
    + cbn. apply tr_d_line_cr; assumption.
  - rewrite no_lf_line_cr by assumption. cbn.
    apply tr_d_line_cr; assumption.
Qed.

(** ** The script, run to its end *)

Section BashFacts.
Variable cwd : Path.
Variable tool : stage -> list argument -> node -> node * list string * Z.
Variable shell : node -> node * list string * Z.

Lemma exec_command_ran : forall c st,
  map fst (sh_ran (exec_command cwd tool shell c st)) =
  map fst (sh_ran st) ++ stage_of c.
Proof.
  intros c st. destruct c as [v k file|dir|w|stg argv|];
    cbn [exec_command stage_of].
  - destruct (substitution cwd (sh_fs st) k file) as [x ds]. cbn.
    rewrite app_nil_r. reflexivity.
  - destruct (mkdir_text cwd dir (sh_fs st)) as [t' [|]]; cbn;
      rewrite app_nil_r; reflexivity.
  - cbn. rewrite app_nil_r. reflexivity.
  - destruct (tool stg (eval_argv (sh_env st) argv) (sh_fs st))
      as [[t' out] code]. cbn.
    rewrite map_app. reflexivity.
  - destruct (shell (sh_fs st)) as [[t' out] code]. cbn.
    rewrite app_nil_r. reflexivity.
Qed.

Lemma bash_ran : forall cmds st,
  map fst (sh_ran (bash cwd tool shell cmds st)) =
  map fst (sh_ran st) ++ flat_map stage_of cmds.
Proof.
  induction cmds as [|c cmds IH]; intro st; cbn [bash flat_map].
  - rewrite app_nil_r. reflexivity.
  - rewrite IH, exec_command_ran, app_assoc. reflexivity.
Qed.

Lemma bash_app : forall a b st,
  bash cwd tool shell (a ++ b) st =
  bash cwd tool shell b (bash cwd tool shell a st).
Proof.
  induction a as [|c a IH]; intros b st; cbn [bash app]; [reflexivity|].
  apply IH.
Qed.

Lemma bash_ends_with_echo : forall cmds w st,
  sh_status (bash cwd tool shell (cmds ++ [Echo w]) st) = 0%Z.
Proof. intros cmds w st. rewrite bash_app. reflexivity. Qed.

(** Only the two command substitutions set [$X] and [$Y]. *)
Lemma exec_command_env : forall c st,
  sets_variable c = false ->
  sh_env (exec_command cwd tool shell c st) = sh_env st /\
  sh_calls (exec_command cwd tool shell c st) =
  sh_calls st ++ calls_of (sh_env st) [c].
Proof.
  intros c st Hc. destruct c as [v k file|dir|w|stg argv|];
    try discriminate; cbn [exec_command calls_of flat_map app].
  - destruct (mkdir_text cwd dir (sh_fs st)) as [t' [|]]; cbn;
      rewrite app_nil_r; auto.
  - cbn. rewrite app_nil_r. auto.
  - destruct (tool stg (eval_argv (sh_env st) argv) (sh_fs st))
      as [[t' out] code]. cbn. auto.
  - destruct (shell (sh_fs st)) as [[t' out] code]. cbn.
    rewrite app_nil_r. auto.
Qed.

Lemma bash_env : forall cmds st,
  forallb (fun c => negb (sets_variable c)) cmds = true ->
  sh_env (bash cwd tool shell cmds st) = sh_env st /\
  sh_calls (bash cwd tool shell cmds st) =
  sh_calls st ++ calls_of (sh_env st) cmds.
Proof.
  induction cmds as [|c cmds IH]; intros st H; cbn [bash].
  - cbn. rewrite app_nil_r. auto.
  - cbn [forallb] in H. apply andb_true_iff in H. destruct H as [Hc H].
    apply negb_true_iff in Hc.
    destruct (exec_command_env c st Hc) as [E1 C1].
    destruct (IH (exec_command cwd tool shell c st) H) as [E2 C2].
    rewrite E2, C2, E1, C1, <- app_assoc. split; [reflexivity|].
    f_equal. unfold calls_of. cbn [flat_map]. rewrite app_nil_r.
    reflexivity.
Qed.

(** Whatever the stage programs do and return, a plain script runs the
    seven of them, each once and in the order of the text, and exits with
    status 0, the status of its closing [echo]. *)
Lemma run_script_runs_all : forall s t,
  plain s = true ->
  map fst (sh_ran (run_script cwd tool shell s t)) = all_stages /\
  sh_status (run_script cwd tool shell s t) = 0%Z.
Proof.
  intros s t Hp. unfold run_script, script_body. rewrite Hp. split.
  - rewrite bash_ran. reflexivity.
  - change (script_commands s)
      with (firstn 26 (script_commands s)
              ++ [Echo [Text ("Processing completed for " ++ SUBGRID_PREFIX s)]]).
    apply bash_ends_with_echo.
Qed.
End BashFacts.

(** C1, as the code has it.  A script whose pasted values bash reads as
    they were pasted runs its seven stage programs one after the other in
    the order of the text, each after the one before it has exited, and it
    runs all of them whatever their exit statuses are.  The script's own
    status is that of its last command, the closing [echo], so a script
    that ran to its end is reported as successfully processed. *)
Theorem stages_run_unconditionally :
  forall (cwd : Path)
         (tool : stage -> list argument -> node -> node * list string * Z)
         (shell : node -> node * list string * Z)
         (s : script) (t : node),
    plain s = true ->
    let r := run_script cwd tool shell s t in
    map fst (sh_ran r) = all_stages /\
    sh_status r = 0%Z /\
    report (SUBGRID_PREFIX s) (sh_status r) = LogSuccess (SUBGRID_PREFIX s).
Proof.
  intros cwd tool shell s t Hp r.
  destruct (run_script_runs_all cwd tool shell s t Hp) as [Hran Hst].
  split; [exact Hran|]. split; [exact Hst|].
  unfold r. rewrite Hst. reflexivity.
Qed.

Lemma stages_run_unconditionally_witness :
  let r := run_script [] separation_fails shell_exits script_B data_BAC in
  sh_ran r =
  [(Separation, 1%Z); (Decimation, 0%Z); (Translation, 0%Z); (Elevation, 0%Z);
   (SemanticMapping, 0%Z); (ConvertCityGML, 0%Z); (MergeCityGML, 0%Z)] /\
  report "B" (sh_status r) = LogSuccess "B".
Proof.
  intro r.
  destruct (stages_run_unconditionally [] separation_fails shell_exits
              script_B data_BAC eq_refl) as (_ & _ & H).
  split; [reflexivity|exact H].
Defined.

(** C1, as the specification states it, fails: the separation stage of
    folder B exits with status 1, the six later stages are run all the same,
    and the folder is reported as successfully processed. *)
Lemma strict_sequencing_counterexample :
  plain script_B = true /\
  ~ strict_sequencing
      (run_script [] separation_fails shell_exits script_B data_BAC) "B"
      (report "B"
         (sh_status
            (run_script [] separation_fails shell_exits script_B data_BAC))).
Proof.
  split; [reflexivity|]. intro H.
  destruct (H [] Separation 1%Z
              [(Decimation, 0%Z); (Translation, 0%Z); (Elevation, 0%Z);
               (SemanticMapping, 0%Z); (ConvertCityGML, 0%Z);
               (MergeCityGML, 0%Z)]) as [Hpost _].
  - reflexivity.
  - discriminate.
  - discriminate Hpost.
Qed.

(** ** The coordinate file *)

Lemma tr_d_free_same : forall c s, free_of c s -> tr_d c s = s.
Proof.
  intros c. induction s as [|a s IH]; cbn [free_of tr_d]; [reflexivity|].
  intros [Ha Hs]. apply Ascii.eqb_neq in Ha. rewrite Ha, IH by exact Hs.
  reflexivity.
Qed.

Lemma all_chars_free : forall c s,
  free_of c s -> all_chars (fun a => negb (Ascii.eqb a c)) s = true.
Proof.
  intros c. induction s as [|a s IH]; cbn [free_of all_chars]; [reflexivity|].
  intros [Ha Hs]. apply Ascii.eqb_neq in Ha. rewrite Ha, IH by exact Hs.
  reflexivity.
Qed.

(** The values of a file whose first two lines are [x] and [y]. *)
Lemma substituted_lines : forall x y crx cry tail,
  one_line x -> one_line y -> free_of NUL x -> free_of NUL y ->
  opt_cr crx -> opt_cr cry ->
  (tail = "" \/ exists rest, tail = String LF rest) ->
  let content := ((x ++ crx) ++ String LF ((y ++ cry) ++ tail))%string in
  substituted 1 content = (x, []) /\ substituted 2 content = (y, []).
Proof.
  intros x y crx cry tail Hx Hy Nx Ny Hcx Hcy Htail content.
  destruct (coordinates_of_text x y crx cry tail Hx Hy Hcx Hcy Htail)
    as [H1 H2].
  fold content in H1, H2. unfold substituted. rewrite H1, H2.
  rewrite !tr_d_free_same, !all_chars_free by assumption. auto.
Qed.

(** A line the file does not have gives an empty value. *)
Lemma substituted_missing : forall k content,
  List.length (lines content) < k -> substituted k content = (EmptyString, []).
Proof.
  intros k content Hlen. unfold substituted, sed_n_p.
  rewrite nth_overflow by lia. reflexivity.
Qed.

(** C2, as the code has it.  Building the script never reads the coordinate
    file: for a folder that qualifies it succeeds whatever the file holds.
    The values are taken when the script runs, and only a script whose
    pasted values bash reads as they were pasted is followed: X is line 1
    and Y is line 2 of the file, carriage returns deleted; a line the file
    does not have, or a file that cannot be read, gives an empty value;
    nothing is checked, the seven stage programs run all the same, and the
    two values are what their command lines are built from. *)
Theorem coordinates_read_by_script :
  forall (g : ProcessingGUI) (folder : Path) (prefix : string) (w : World),
    qualifies (fs w) folder = true ->
    exists s,
      create_shell_script g folder prefix w = (Ok s, w) /\
      (plain s = true ->
       forall (cwd : Path)
              (tool : stage -> list argument -> node -> node * list string * Z)
              (shell : node -> node * list string * Z) (t : node),
         let r := run_script cwd tool shell s t in
         let x := fst (substitution cwd t 1 (str (TXT s))) in
         let y := fst (substitution cwd t 2 (str (TXT s))) in
         sh_env r = (x, y) /\
         sh_calls r = calls_of (x, y) (script_commands s) /\
         map fst (sh_ran r) = all_stages /\
         (forall content,
             lookup_text cwd t (str (TXT s)) = Some (File content) ->
             (forall x' y' crx cry tail,
                 one_line x' -> one_line y' ->
                 free_of NUL x' -> free_of NUL y' ->
                 opt_cr crx -> opt_cr cry ->
                 tail = "" \/ (exists rest, tail = String LF rest) ->
                 content =
                 ((x' ++ crx) ++ String LF ((y' ++ cry) ++ tail))%string ->
                 x = x' /\ y = y')
             /\ (List.length (lines content) < 1 -> x = "")
             /\ (List.length (lines content) < 2 -> y = ""))
         /\
         ((forall content,
              lookup_text cwd t (str (TXT s)) <> Some (File content)) ->
          x = "" /\ y = "")).
Proof.
  intros g folder prefix w Hq.
  destruct (qualifies_script g folder prefix w Hq) as [s [Hs _]].
  exists s. split; [exact Hs|].
  intros Hp cwd tool shell t r x y.
  assert (Hrun : sh_env r = (x, y) /\
                 sh_calls r = calls_of (x, y) (script_commands s)).
  { unfold r, run_script, script_body. rewrite Hp.
    change (script_commands s) with (reads s ++ skipn 2 (script_commands s)).
    rewrite bash_app.
    set (st2 := bash cwd tool shell (reads s)
                     (mkSh t (EmptyString, EmptyString) 0 [] [] [])).
    assert (E2 : sh_env st2 = (x, y) /\ sh_calls st2 = []).
    { unfold st2, reads. cbn [bash exec_command sh_fs sh_env].
      fold x. destruct (substitution cwd t 1 (str (TXT s))) as [x1 d1] eqn:E1.
      cbn [sh_fs sh_env assign fst snd].
      fold y. destruct (substitution cwd t 2 (str (TXT s))) as [y1 d2] eqn:E3.
      cbn. subst x y. auto. }
    destruct E2 as [Ee Ec].
    destruct (bash_env cwd tool shell (skipn 2 (script_commands s)) st2
                eq_refl) as [H1 H2].
    rewrite H1, H2, Ee, Ec. split; [reflexivity|]. reflexivity. }
  destruct Hrun as [He Hc].
  split; [exact He|]. split; [exact Hc|]. split.
  { apply (run_script_runs_all cwd tool shell s t Hp). }
  split.
  - intros content Hr. unfold x, y, substitution. rewrite Hr.
    split; [|split].
    + intros x' y' crx cry tail Hx Hy Nx Ny Hcx Hcy Htail ->.
      destruct (substituted_lines x' y' crx cry tail Hx Hy Nx Ny Hcx Hcy Htail)
        as [-> ->]. auto.
    + intro Hlen. rewrite substituted_missing by exact Hlen. reflexivity.
    + intro Hlen. rewrite substituted_missing by exact Hlen. reflexivity.
  - intro Hno. unfold x, y, substitution.
    destruct (lookup_text cwd t (str (TXT s))) as [[content|es]|] eqn:E;
      [exfalso; apply (Hno content); reflexivity| |]; auto.
Qed.

Lemma coordinates_read_by_script_witness :
  exists s,
    create_shell_script gui_batch ["data"; "B"] "B" (mkWorld data_crlf []) =
    (Ok s, mkWorld data_crlf []) /\
    sh_env (run_script [] stages_succeed shell_exits s data_crlf) =
    ("12345.6", "67890.1").
Proof.
  destruct (coordinates_read_by_script gui_batch ["data"; "B"] "B"
              (mkWorld data_crlf []) eq_refl) as [s [Hs Hc]].
  exists s. split; [exact Hs|].
  rewrite create_shell_script_run in Hs. inversion Hs as [Hs']. clear Hs.
  subst s.
  destruct (Hc eq_refl [] stages_succeed shell_exits data_crlf)
    as (He & _).
  rewrite He. reflexivity.
Defined.

(** C2, as the specification states it, fails: with a coordinate file that
    has no second line the script is built without error, and when it runs
    the separation program is started with an empty Y and the other stages
    follow. *)
Lemma malformed_coordinates_counterexample :
  List.length (lines ("12345.6" ++ String LF "")) = 1 /\
  fst (create_shell_script gui_batch ["data"; "B"] "B"
         (mkWorld data_one_line [])) = Ok script_B /\
  plain script_B = true /\
  hd_error
    (sh_calls (run_script [] separation_fails shell_exits script_B
                          data_one_line)) =
  Some (Separation,
        [Arg "go"; Arg "run"; Arg "func/separator/objseparator.go";
         Arg "-cx=12345.6"; Arg "-cy="; Arg "data/B/b.obj";
         Arg "data/B/b.geojson"; Arg "temp/B/separate"]) /\
  map fst (sh_ran (run_script [] separation_fails shell_exits script_B
                              data_one_line)) =
  all_stages.
Proof. repeat split; reflexivity. Qed.
(** ** Directories: [mkdir -p] *)

Lemma mkdir_entries_same : forall c f es es',
  mkdir_entries c f es = Some es' ->
  exists x', f (entry_or_new c es) = Some x' /\ lookup_entry c es' = Some x'.
Proof.
  intros c f. unfold entry_or_new.
  induction es as [|[n x] es IH]; intros es' H; cbn [mkdir_entries] in H.
  - cbn [lookup_entry]. destruct (f (Dir [])) as [t'|]; [|discriminate].
    inversion H; subst. exists t'. split; [reflexivity|].
    cbn. rewrite String.eqb_refl. reflexivity.
  - cbn [lookup_entry]. destruct (String.eqb n c) eqn:E.
    + destruct (f x) as [x'|]; [|discriminate]. inversion H; subst.
      exists x'. split; [reflexivity|]. cbn. rewrite E. reflexivity.
    + destruct (mkdir_entries c f es) as [es''|]; [|discriminate].
      inversion H; subst. destruct (IH es'' eq_refl) as [x' [Hf Hl]].
      exists x'. split; [exact Hf|]. cbn. rewrite E. exact Hl.
Qed.

Lemma mkdir_entries_other : forall c f es es' c',
  mkdir_entries c f es = Some es' ->
  c' <> c ->
  lookup_entry c' es' = lookup_entry c' es.
Proof.
  intros c f. induction es as [|[n x] es IH]; intros es' c' H Hne;
    cbn [mkdir_entries] in H.
  - destruct (f (Dir [])) as [t'|]; [|discriminate]. inversion H; subst.
    cbn. apply not_eq_sym in Hne. apply String.eqb_neq in Hne.
    rewrite Hne. reflexivity.
  - destruct (String.eqb n c) eqn:E.
    + destruct (f x) as [x'|]; [|discriminate]. inversion H; subst.
      apply String.eqb_eq in E. subst n. cbn.
      apply not_eq_sym in Hne. apply String.eqb_neq in Hne. rewrite Hne.
      reflexivity.
    + destruct (mkdir_entries c f es) as [es''|]; [|discriminate].
      inversion H; subst. cbn. destruct (String.eqb n c'); [reflexivity|].
      apply IH; [reflexivity|exact Hne].
Qed.

(** After a successful [mkdir -p] the path is a directory. *)
Lemma mkdir_p_is_dir : forall p t t',
  mkdir_p p t = Some t' -> is_dir_fs t' p = true.
Proof.
  unfold is_dir_fs.
  induction p as [|c p IH]; intros t t' H; cbn [mkdir_p] in H.
  - destruct t; [discriminate|]. inversion H; subst. reflexivity.
  - destruct t as [|es]; [discriminate|].
    destruct (mkdir_entries c (mkdir_p p) es) as [es'|] eqn:E; [|discriminate].
    inversion H; subst.
    destruct (mkdir_entries_same _ _ _ _ E) as [x' [Hf Hl]].
    cbn [resolve]. rewrite Hl. eapply IH. exact Hf.
Qed.

(** [mkdir -p] removes no directory. *)
Lemma mkdir_p_keeps_dir : forall q t t' p,
  mkdir_p q t = Some t' -> is_dir_fs t p = true -> is_dir_fs t' p = true.
Proof.
  unfold is_dir_fs.
  induction q as [|c q IH]; intros t t' p H Hp; cbn [mkdir_p] in H.
  - destruct t; [discriminate|]. inversion H; subst. exact Hp.
  - destruct t as [|es]; [discriminate|].
    destruct (mkdir_entries c (mkdir_p q) es) as [es'|] eqn:E; [|discriminate].
    inversion H; subst.
    destruct p as [|c' p]; [reflexivity|].
    cbn [resolve] in *.
    destruct (String.eqb_spec c' c) as [->|Hne].
    + destruct (mkdir_entries_same _ _ _ _ E) as [x' [Hf Hl]].
      rewrite Hl. unfold entry_or_new in Hf.
      destruct (lookup_entry c es) as [x|]; [|discriminate].
      eapply IH; eassumption.
    + rewrite (mkdir_entries_other _ _ _ _ _ E Hne). exact Hp.
Qed.

Lemma split_on_not_nil : forall sep s cur, split_on sep s cur <> [].
Proof.
  intros sep. induction s as [|c s IH]; intro cur; cbn [split_on].
  - discriminate.
  - destruct (Ascii.eqb c sep); [discriminate|apply IH].
Qed.

(** [mkdir -p] on a path text removes no directory, whether it succeeds or
    not. *)
Lemma mkdir_parts_keeps_dir : forall parts cur t t' ok p,
  mkdir_parts cur parts t = (t', ok) ->
  is_dir_fs t p = true -> is_dir_fs t' p = true.
Proof.
  induction parts as [|c rest IH]; intros cur t t' ok p H Hp;
    cbn [mkdir_parts] in H.
  - inversion H; subst. exact Hp.
  - destruct (mkdir_p (enter cur c) t) as [t1|] eqn:E.
    + eapply IH; [exact H|]. eapply mkdir_p_keeps_dir; eassumption.
    + inversion H; subst. exact Hp.
Qed.

Lemma mkdir_parts_is_dir : forall parts cur t t',
  mkdir_parts cur parts t = (t', true) ->
  is_dir_fs t cur = true ->
  is_dir_fs t' (fold_left enter parts cur) = true.
Proof.
  induction parts as [|c rest IH]; intros cur t t' H Hc;
    cbn [mkdir_parts fold_left] in *.
  - inversion H; subst. exact Hc.
  - destruct (mkdir_p (enter cur c) t) as [t1|] eqn:E; [|discriminate].
    apply (IH _ _ _ H). eapply mkdir_p_is_dir. exact E.
Qed.

Lemma mkdir_text_keeps_dir : forall cwd text t t' ok p,
  mkdir_text cwd text t = (t', ok) ->
  is_dir_fs t p = true -> is_dir_fs t' p = true.
Proof.
  intros cwd text t t' ok p H Hp. unfold mkdir_text in H.
  destruct (String.eqb text "").
  - inversion H; subst. exact Hp.
  - eapply mkdir_parts_keeps_dir; eassumption.
Qed.

(** After a successful [mkdir -p] the place the text names is a
    directory. *)
Lemma mkdir_text_is_dir : forall cwd text t t',
  mkdir_text cwd text t = (t', true) ->
  is_dir_fs t' (locate cwd text) = true.
Proof.
  intros cwd text t t' H. unfold mkdir_text in H. unfold locate.
  destruct (String.eqb text ""); [discriminate|].
  destruct (split_on "/"%char text "") as [|c rest] eqn:E.
  - exfalso. eapply split_on_not_nil. exact E.
  - cbn [mkdir_parts fold_left] in *.
    destruct (mkdir_p (enter (start_of cwd text) c) t) as [t1|] eqn:E1;
      [|discriminate].
    apply (mkdir_parts_is_dir _ _ _ _ H). eapply mkdir_p_is_dir. exact E1.
Qed.

Section Prelude.
Variable cwd : Path.
Variable tool : stage -> list argument -> node -> node * list string * Z.
Variable shell : node -> node * list string * Z.

Lemma exec_command_out : forall c st,
  exists added,
    sh_out (exec_command cwd tool shell c st) = sh_out st ++ added.
Proof.
  intros c st. destruct c as [v k file|dir|w|stg argv|]; cbn [exec_command].
  - destruct (substitution cwd (sh_fs st) k file) as [x ds]. cbn. eauto.
  - destruct (mkdir_text cwd dir (sh_fs st)) as [t' [|]]; cbn;
      [exists []; rewrite app_nil_r; reflexivity|eauto].
  - cbn. eauto.
  - destruct (tool stg (eval_argv (sh_env st) argv) (sh_fs st))
      as [[t' out] code]. cbn. eauto.
  - destruct (shell (sh_fs st)) as [[t' out] code]. cbn. eauto.
Qed.

Lemma bash_out : forall cmds st,
  exists added, sh_out (bash cwd tool shell cmds st) = sh_out st ++ added.
Proof.
  induction cmds as [|c cmds IH]; intro st; cbn [bash].
  - exists []. rewrite app_nil_r. reflexivity.
  - destruct (IH (exec_command cwd tool shell c st)) as [a2 H2].
    destruct (exec_command_out c st) as [a1 H1].
    exists (a1 ++ a2). rewrite H2, H1, app_assoc. reflexivity.
Qed.

(** Running [mkdir -p] commands: no stage runs, no directory is lost, and
    when none of them reported an error every directory named exists
    afterwards. *)
Lemma mkdirs_create : forall dirs st,
  let r := bash cwd tool shell (map Mkdir_p dirs) st in
  sh_ran r = sh_ran st /\
  (forall p, is_dir_fs (sh_fs st) p = true -> is_dir_fs (sh_fs r) p = true) /\
  (existsb says_mkdir_failed (sh_out r) = false ->
   forall d, In d dirs -> is_dir_fs (sh_fs r) (locate cwd d) = true).
Proof.
  induction dirs as [|d dirs IH]; intro st; cbn [map bash].
  - split; [reflexivity|]. split; [auto|]. intros _ d [].
  - cbv zeta in IH. cbn [exec_command].
    destruct (mkdir_text cwd d (sh_fs st)) as [t' [|]] eqn:E.
    + destruct (IH (mkSh t' (sh_env st) 0 (sh_out st) (sh_ran st)
                         (sh_calls st))) as (Hran & Hkeep & Hnew).
      cbn [sh_fs sh_ran] in *.
      split; [exact Hran|]. split.
      * intros p Hp. apply Hkeep. eapply mkdir_text_keeps_dir; eassumption.
      * intros Hout d' [<-|Hin].
        -- apply Hkeep. eapply mkdir_text_is_dir. exact E.
        -- apply Hnew; assumption.
    + set (st1 := mkSh t' (sh_env st) 1
                       (sh_out st ++ [Diagnostic (MkdirCannotCreate d)])
                       (sh_ran st) (sh_calls st)).
      destruct (IH st1) as (Hran & Hkeep & Hnew).
      split; [exact Hran|]. split.
      * intros p Hp. apply Hkeep. unfold st1. cbn [sh_fs].
        eapply mkdir_text_keeps_dir; eassumption.
      * intro Hout. exfalso.
        destruct (bash_out (map Mkdir_p dirs) st1) as [added Ha].
        rewrite Ha in Hout. unfold st1 in Hout. cbn [sh_out] in Hout.
        rewrite !existsb_app in Hout. cbn in Hout.
        rewrite orb_true_r in Hout. discriminate Hout.
Qed.
End Prelude.

(** C7, as the code has it.  Building the script launches no program and
    creates no directory: it leaves the world as it found it.  The six
    working directories and the final output directory are created by the
    script when it runs, if bash reads the pasted values as they were
    pasted: after the two command substitutions, its first commands are the
    [mkdir -p] of these seven paths, and unless one of them reports an error
    all seven are directories, at the places the paths name from the
    working directory of the script, when the commands that follow, the
    first stage among them, are run. *)
Theorem script_creates_directories :
  forall (g : ProcessingGUI) (folder : Path) (prefix : string) (w w' : World)
         (s : script),
    create_shell_script g folder prefix w = (Ok s, w') ->
    w' = w /\
    (plain s = true ->
     forall (cwd : Path)
            (tool : stage -> list argument -> node -> node * list string * Z)
            (shell : node -> node * list string * Z) (t : node),
       let ready :=
         bash cwd tool shell (reads s ++ prelude s)
              (mkSh t (EmptyString, EmptyString) 0 [] [] []) in
       (exists rest,
           script_body s = reads s ++ prelude s ++ rest /\
           run_script cwd tool shell s t = bash cwd tool shell rest ready /\
           flat_map stage_of rest = all_stages) /\
       sh_ran ready = [] /\
       (existsb says_mkdir_failed (sh_out ready) = false ->
        forall d, In d (created_dirs s) ->
                  is_dir_fs (sh_fs ready) (locate cwd d) = true)).
Proof.
  intros g folder prefix w w' s Hs.
  split.
  { pose proof (create_shell_script_reads g folder prefix w) as R.
    rewrite Hs in R. exact R. }
  intros Hp cwd tool shell t ready.
  assert (Hready : ready =
            bash cwd tool shell (prelude s)
              (bash cwd tool shell (reads s)
                 (mkSh t (EmptyString, EmptyString) 0 [] [] []))).
  { unfold ready. apply bash_app. }
  set (st2 := bash cwd tool shell (reads s)
                (mkSh t (EmptyString, EmptyString) 0 [] [] [])) in *.
  assert (H2 : sh_ran st2 = []).
  { apply (map_eq_nil fst). unfold st2. rewrite bash_ran. reflexivity. }
  destruct (mkdirs_create cwd tool shell (created_dirs s) st2)
    as (Hran & _ & Hnew).
  fold (prelude s) in Hran, Hnew. rewrite <- Hready in Hran, Hnew.
  split; [|split].
  - exists (skipn 9 (script_commands s)). split; [|split].
    + unfold script_body. rewrite Hp. reflexivity.
    + unfold run_script, script_body. rewrite Hp. unfold ready.
      change (script_commands s)
        with ((reads s ++ prelude s) ++ skipn 9 (script_commands s)) at 1.
      apply bash_app.
    + reflexivity.
  - rewrite Hran. exact H2.
  - exact Hnew.
Qed.

Lemma script_creates_directories_witness :
  let w := mkWorld data_BAC [] in
  let ready :=
    bash [] stages_succeed shell_exits (reads script_B ++ prelude script_B)
         (mkSh data_BAC (EmptyString, EmptyString) 0 [] [] []) in
  create_shell_script gui_batch ["data"; "B"] "B" w = (Ok script_B, w) /\
  is_dir_fs data_BAC ["out"; "B"] = false /\
  is_dir_fs (sh_fs ready) (locate [] "out/B") = true /\
  is_dir_fs (sh_fs ready) (locate [] "temp/B/separate") = true.
Proof.
  intros w ready.
  destruct (script_creates_directories gui_batch ["data"; "B"] "B" w w
              script_B eq_refl) as (_ & H).
  destruct (H eq_refl [] stages_succeed shell_exits data_BAC)
    as (_ & _ & Hdirs).
  cbv zeta in Hdirs. specialize (Hdirs eq_refl).
  split; [reflexivity|]. split; [reflexivity|]. split.
  - apply (Hdirs "out/B"%string). vm_compute. tauto.
  - apply (Hdirs "temp/B/separate"%string). vm_compute. tauto.
Defined.

(** C7, as the specification states it, fails: when [create_shell_script]
    returns for folder B, neither the final output directory nor any working
    directory exists. *)
Lemma plan_creates_directories_counterexample :
  exists s w',
    create_shell_script gui_batch ["data"; "B"] "B" (mkWorld data_BAC []) =
    (Ok s, w') /\
    plain s = true /\
    is_dir_fs (fs w') (locate [] (final_output_dir s)) = false /\
    forallb (fun d => negb (exists_fs (fs w') (locate [] d))) (created_dirs s)
    = true.
Proof.
  exists script_B, (mkWorld data_BAC []).
  split; [reflexivity|]. split; [reflexivity|]. split; reflexivity.
Qed.

(** ** The directory layout of a unit *)

Lemma split_on_sep : forall sep a b cur,
  split_on sep (a ++ String sep b) cur = split_on sep a cur ++ split_on sep b "".
Proof.
  intros sep. induction a as [|c a IH]; intros b cur; cbn [append split_on].
  - rewrite Ascii.eqb_refl. reflexivity.
  - destruct (Ascii.eqb c sep); rewrite IH; reflexivity.
Qed.

Lemma split_on_no_slash : forall n cur,
  no_slash n -> split_on "/"%char n cur = [(cur ++ n)%string].
Proof.
  induction n as [|c n IH]; intros cur Hn; cbn [split_on].
  - rewrite append_nil_r. reflexivity.
  - cbn [no_slash] in Hn. destruct Hn as [Hc Hn].
    apply Ascii.eqb_neq in Hc. rewrite Hc, IH by exact Hn.
    rewrite append_assoc. reflexivity.
Qed.

Lemma no_slash_app : forall a b, no_slash a -> no_slash b -> no_slash (a ++ b).
Proof.
  induction a as [|c a IH]; intros b Ha Hb; cbn [append no_slash]; [exact Hb|].
  cbn [no_slash] in Ha. destruct Ha as [Hc Ha]. auto.
Qed.

Lemma dir_name_ext : forall n, dir_name n -> dir_name (n ++ ".gml").
Proof.
  intros n (Hs & He & Hd & _). split; [|split; [|split]].
  - apply no_slash_app; [exact Hs|]. cbn. repeat split; discriminate.
  - destruct n; [congruence|discriminate].
  - destruct n as [|c n]; [congruence|]. cbn [append].
    destruct n; discriminate.
  - destruct n as [|c n]; [congruence|]. cbn [append].
    destruct n as [|c' n]; [discriminate|]. cbn [append].
    destruct n; discriminate.
Qed.

Lemma enter_dir_name : forall cur n, dir_name n -> enter cur n = cur ++ [n].
Proof.
  intros cur n (_ & He & Hd & Hdd). unfold enter.
  apply String.eqb_neq in He. apply String.eqb_neq in Hd.
  apply String.eqb_neq in Hdd. rewrite He, Hd, Hdd. reflexivity.
Qed.

Lemma is_absolute_sep : forall a b,
  is_absolute (a ++ String "/"%char b) = is_absolute (a ++ "/").
Proof. intros [|c a] b; reflexivity. Qed.

(** A path text is read part by part: what follows a slash is read from
    the place the text up to the slash names. *)
Lemma locate_sep : forall cwd a b,
  locate cwd (a ++ String "/"%char b) =
  fold_left enter (split_on "/"%char b "") (locate cwd (a ++ "/")).
Proof.
  intros cwd a b. unfold locate, start_of.
  rewrite is_absolute_sep.
  change (a ++ "/")%string with (a ++ String "/"%char "")%string.
  rewrite !split_on_sep, !fold_left_app. reflexivity.
Qed.

Lemma locate_child : forall cwd a n,
  dir_name n ->
  locate cwd (a ++ String "/"%char n) = locate cwd (a ++ "/") ++ [n].
Proof.
  intros cwd a n Hn. rewrite locate_sep.
  rewrite split_on_no_slash by apply Hn. cbn [append fold_left].
  apply enter_dir_name. exact Hn.
Qed.

Lemma locate_grandchild : forall cwd a n d,
  dir_name n -> dir_name d ->
  locate cwd (a ++ String "/"%char (n ++ String "/"%char d)) =
  locate cwd (a ++ "/") ++ [n; d].
Proof.
  intros cwd a n d Hn Hd. rewrite locate_sep, split_on_sep.
  rewrite !split_on_no_slash by (apply Hn || apply Hd).
  cbn [append app fold_left].
  rewrite (enter_dir_name _ n Hn), (enter_dir_name _ d Hd), <- app_assoc.
  reflexivity.
Qed.

Lemma stage_dirs_names : forall d, In d stage_dirs -> dir_name d.
Proof.
  intros d Hd. cbn in Hd.
  repeat (destruct Hd as [<-|Hd];
          [unfold dir_name; cbn; repeat split; discriminate|]).
  destruct Hd.
Qed.

(** The places of the seven directories the script of a unit makes. *)
Lemma script_makes : forall cwd s,
  plain s = true ->
  dir_name (SUBGRID_PREFIX s) ->
  made_by cwd (script_body s) =
  working_places cwd (SUBGRID_PREFIX s) ++
  [output_root cwd s ++ [SUBGRID_PREFIX s]].
Proof.
  intros cwd s Hp Hn. unfold script_body. rewrite Hp.
  unfold script_commands, made_by. cbn [flat_map app].
  unfold out_separate, out_decimate, out_translate, out_semantic, out_elevate,
    out_citygml, final_output_dir, working_places, stage_dirs, output_root.
  cbn [map app].
  assert (Hw : forall d, In d stage_dirs ->
             locate cwd ("temp/" ++ SUBGRID_PREFIX s ++ String "/"%char d) =
             cwd ++ ["temp"; SUBGRID_PREFIX s; d]).
  { intros d Hd.
    change ("temp/" ++ SUBGRID_PREFIX s ++ String "/"%char d)%string
      with ("temp" ++ String "/"%char
                      (SUBGRID_PREFIX s ++ String "/"%char d))%string.
    rewrite (locate_grandchild cwd "temp" _ d Hn (stage_dirs_names d Hd)).
    change (locate cwd ("temp" ++ "/")) with (cwd ++ ["temp"]).
    rewrite <- app_assoc. reflexivity. }
  change ("/separate")%string with (String "/"%char "separate").
  change ("/decimate")%string with (String "/"%char "decimate").
  change ("/translate")%string with (String "/"%char "translate").
  change ("/split")%string with (String "/"%char "split").
  change ("/elevate")%string with (String "/"%char "elevate").
  change ("/citygml")%string with (String "/"%char "citygml").
  rewrite !Hw by (cbn; tauto).
  change (OUTPUT_PATH s ++ "/" ++ SUBGRID_PREFIX s)%string
    with (OUTPUT_PATH s ++ String "/"%char (SUBGRID_PREFIX s))%string.
  rewrite (locate_child cwd _ _ Hn). reflexivity.
Qed.

Lemma artifact_place : forall cwd s,
  dir_name (SUBGRID_PREFIX s) ->
  locate cwd (final_output_citygml s) =
  output_root cwd s ++ [SUBGRID_PREFIX s; (SUBGRID_PREFIX s ++ ".gml")%string].
Proof.
  intros cwd s Hn. unfold final_output_citygml, output_root.
  change (OUTPUT_PATH s ++ "/" ++ SUBGRID_PREFIX s ++ "/"
            ++ SUBGRID_PREFIX s ++ ".gml")%string
    with (OUTPUT_PATH s ++ String "/"%char
            (SUBGRID_PREFIX s ++ String "/"%char
               (SUBGRID_PREFIX s ++ ".gml")))%string.
  apply locate_grandchild; [exact Hn|apply dir_name_ext; exact Hn].
Qed.

Lemma prefix_of_refl : forall p, prefix_of p p.
Proof. intro p. exists []. symmetry. apply app_nil_r. Qed.

Lemma prefix_of_trans : forall p q r,
  prefix_of p q -> prefix_of q r -> prefix_of p r.
Proof.
  intros p q r [a ->] [b ->]. exists (a ++ b). symmetry. apply app_assoc.
Qed.

(** Two places on the path to one place lie on one path. *)
Lemma prefixes_comparable : forall (p q l : Path),
  prefix_of p l -> prefix_of q l -> comparable p q.
Proof.
  induction p as [|x p IH]; intros q l Hp Hq.
  - left. exists q. reflexivity.
  - destruct q as [|y q].
    + right. exists (x :: p). reflexivity.
    + destruct Hp as [a ->]. destruct Hq as [b Hb]. cbn [app] in Hb.
      injection Hb as <- Hb.
      destruct (IH q (p ++ a)) as [[r ->]|[r ->]].
      * exists a. reflexivity.
      * exists b. exact Hb.
      * left. exists r. reflexivity.
      * right. exists r. reflexivity.
Qed.

Lemma siblings_apart : forall (R : Path) (n1 n2 : string),
  n1 <> n2 -> ~ comparable (R ++ [n1]) (R ++ [n2]).
Proof.
  intros R n1 n2 Hne [[r Hr]|[r Hr]];
    rewrite <- app_assoc in Hr; apply app_inv_head in Hr;
    cbn [app] in Hr; congruence.
Qed.

Lemma comparable_below : forall (p q p' q' : Path),
  prefix_of p p' -> prefix_of q q' -> comparable p' q' -> comparable p q.
Proof.
  intros p q p' q' Hp Hq [H|H].
  - apply (prefixes_comparable p q q'); [|exact Hq].
    eapply prefix_of_trans; eassumption.
  - apply (prefixes_comparable p q p'); [exact Hp|].
    eapply prefix_of_trans; eassumption.
Qed.

Lemma working_place_inv : forall cwd n p,
  In p (working_places cwd n) ->
  exists d, In d stage_dirs /\ p = (cwd ++ ["temp"; n]) ++ [d].
Proof.
  intros cwd n p Hp. unfold working_places in Hp.
  apply in_map_iff in Hp. destruct Hp as (d & <- & Hd).
  exists d. split; [exact Hd|]. rewrite <- app_assoc. reflexivity.
Qed.

(** When a working directory of a unit and another directory lie on one
    path. *)
Lemma working_place_meets : forall cwd n q,
  (exists p, In p (working_places cwd n) /\ comparable p q) <->
  prefix_of q (cwd ++ ["temp"; n]) \/
  (exists p, In p (working_places cwd n) /\ prefix_of p q).
Proof.
  intros cwd n q. split.
  - intros (p & Hp & [H|H]).
    + right. eauto.
    + destruct (working_place_inv _ _ _ Hp) as (d & Hd & ->).
      destruct H as [r Hr].
      destruct r as [|y r0] using rev_ind.
      * right. exists ((cwd ++ ["temp"; n]) ++ [d]). split.
        -- unfold working_places. rewrite <- app_assoc.
           apply in_map_iff. exists d. split; [reflexivity|exact Hd].
        -- exists []. rewrite app_nil_r in Hr. rewrite app_nil_r.
           symmetry. exact Hr.
      * rewrite app_assoc in Hr. apply app_inj_tail in Hr.
        destruct Hr as [Hr _]. left. exists r0. exact Hr.
  - intros [H|(p & Hp & H)].
    + exists ((cwd ++ ["temp"; n]) ++ ["separate"]). split.
      * unfold working_places. rewrite <- app_assoc. cbn. tauto.
      * right. eapply prefix_of_trans; [exact H|].
        exists ["separate"]. reflexivity.
    + exists p. split; [exact Hp|left; exact H].
Qed.

(** C8, as the code has it.  A script that bash reads as pasted, of a unit
    whose name is the name of a directory entry, makes seven directories,
    at places read from the working directory [cwd] of the script: the six
    stage directories separate, decimate, translate, split, elevate and
    citygml under cwd/temp/NAME, and the output directory ROOT/NAME, where ROOT
    is the place the output folder text names; the artifact NAME.gml lies in
    ROOT/NAME.  For two such units with different names: the working trees
    cwd/temp/NAME1 and cwd/temp/NAME2 do not meet (neither is the other nor lies
    inside it); with the same output folder text the output directories do
    not meet; and a stage directory of the first and the output directory
    of the second meet exactly when the output directory is cwd/temp/NAME1 or
    on the path to it, or is a stage directory of the first or lies
    inside one.  That is excluded when the output root and cwd/temp do not
    meet. *)
Theorem unit_paths_disjoint :
  forall (cwd : Path) (s1 s2 : script),
    plain s1 = true -> plain s2 = true ->
    dir_name (SUBGRID_PREFIX s1) -> dir_name (SUBGRID_PREFIX s2) ->
    SUBGRID_PREFIX s1 <> SUBGRID_PREFIX s2 ->
    let n1 := SUBGRID_PREFIX s1 in
    let n2 := SUBGRID_PREFIX s2 in
    let work1 := cwd ++ ["temp"; n1] in
    let work2 := cwd ++ ["temp"; n2] in
    let out1 := output_root cwd s1 ++ [n1] in
    let out2 := output_root cwd s2 ++ [n2] in
    made_by cwd (script_body s1) = working_places cwd n1 ++ [out1] /\
    made_by cwd (script_body s2) = working_places cwd n2 ++ [out2] /\
    (forall p, In p (working_places cwd n1) -> prefix_of work1 p) /\
    (forall p, In p (working_places cwd n2) -> prefix_of work2 p) /\
    prefix_of out1 (locate cwd (final_output_citygml s1)) /\
    prefix_of out2 (locate cwd (final_output_citygml s2)) /\
    ~ comparable work1 work2 /\
    (OUTPUT_PATH s1 = OUTPUT_PATH s2 -> ~ comparable out1 out2) /\
    ((exists p, In p (working_places cwd n1) /\ comparable p out2) <->
     prefix_of out2 work1 \/
     (exists p, In p (working_places cwd n1) /\ prefix_of p out2)) /\
    (~ comparable (output_root cwd s2) (cwd ++ ["temp"]) ->
     ~ comparable work1 out2).
Proof.
  intros cwd s1 s2 Hp1 Hp2 Hn1 Hn2 Hne n1 n2 work1 work2 out1 out2.
  assert (Hw : forall n p, In p (working_places cwd n) ->
                           prefix_of (cwd ++ ["temp"; n]) p).
  { intros n p Hp. destruct (working_place_inv _ _ _ Hp) as (d & _ & ->).
    exists [d]. reflexivity. }
  assert (Ha : forall s, dir_name (SUBGRID_PREFIX s) ->
             prefix_of (output_root cwd s ++ [SUBGRID_PREFIX s])
                       (locate cwd (final_output_citygml s))).
  { intros s Hn. rewrite (artifact_place cwd s Hn).
    exists [(SUBGRID_PREFIX s ++ ".gml")%string].
    rewrite <- app_assoc. reflexivity. }
  split; [apply script_makes; assumption|].
  split; [apply script_makes; assumption|].
  split; [apply Hw|]. split; [apply Hw|].
  split; [apply Ha; exact Hn1|]. split; [apply Ha; exact Hn2|].
  split; [|split; [|split]].
  - unfold work1, work2.
    change (cwd ++ ["temp"; n1]) with (cwd ++ ["temp"] ++ [n1]).
    change (cwd ++ ["temp"; n2]) with (cwd ++ ["temp"] ++ [n2]).
    rewrite !app_assoc. apply siblings_apart. exact Hne.
  - intro Ho. unfold out1, out2, output_root. rewrite Ho.
    apply siblings_apart. exact Hne.
  - apply working_place_meets.
  - intros Hfree Hc. apply Hfree. apply comparable_below with out2 work1.
    + exists [n2]. reflexivity.
    + exists [n1]. unfold work1. rewrite <- app_assoc. reflexivity.
    + destruct Hc as [H|H]; [right|left]; exact H.
Qed.

Lemma unit_paths_disjoint_witness :
  let cwd := ["home"; "u"] in
  made_by cwd (script_body (script_of "a" "out")) =
  working_places cwd "a" ++ [["home"; "u"; "out"; "a"]] /\
  ~ comparable ["home"; "u"; "temp"; "a"] ["home"; "u"; "out"; "b"].
Proof.
  intro cwd.
  assert (Ha : dir_name "a")
    by (unfold dir_name; cbn; repeat split; discriminate).
  assert (Hb : dir_name "b")
    by (unfold dir_name; cbn; repeat split; discriminate).
  assert (Hne : "a"%string <> "b"%string) by discriminate.
  destruct (unit_paths_disjoint cwd (script_of "a" "out") (script_of "b" "out")
              eq_refl eq_refl Ha Hb Hne)
    as (Hm & _ & _ & _ & _ & _ & _ & _ & _ & Hfree).
  split; [exact Hm|]. apply Hfree.
  intros [[r Hr]|[r Hr]]; discriminate Hr.
Defined.

(** C8, as the specification states it, fails: with the output folder
    /home/u/temp/a and the working directory /home/u, the separation
    directory of unit [a] and the output directory of unit [separate] are one
    directory. *)
Lemma unit_paths_shared_counterexample :
  exists (cwd : Path) (s1 s2 : script),
    plain s1 = true /\ plain s2 = true /\
    dir_name (SUBGRID_PREFIX s1) /\ dir_name (SUBGRID_PREFIX s2) /\
    SUBGRID_PREFIX s1 <> SUBGRID_PREFIX s2 /\
    OUTPUT_PATH s1 = OUTPUT_PATH s2 /\
    locate cwd (out_separate s1) = locate cwd (final_output_dir s2) /\
    In (locate cwd (out_separate s1)) (made_by cwd (script_body s1)) /\
    In (locate cwd (final_output_dir s2)) (made_by cwd (script_body s2)).
Proof.
  exists ["home"; "u"], (script_of "a" "/home/u/temp/a"),
    (script_of "separate" "/home/u/temp/a").
  split; [reflexivity|]. split; [reflexivity|].
  split; [unfold dir_name; cbn; repeat split; discriminate|].
  split; [unfold dir_name; cbn; repeat split; discriminate|].
  split; [discriminate|]. split; [reflexivity|]. split; [reflexivity|].
  split; vm_compute; tauto.
Qed.
Section DecimateFacts.
Import Decimate.

Lemma walk_dir : forall root es,
  walk root (Dir es) =
  (root, map fst (filter is_dir_entry es), files_of es)
    :: flat_map (fun e => walk (root ++ [fst e]) (snd e)) es.
Proof.
  intros root es. cbn [walk]. f_equal.
  induction es as [|[n x] es IH]; [reflexivity|].
  cbn [flat_map fst snd]. rewrite <- IH. reflexivity.
Qed.

Lemma objs_dir : forall root es,
  objs root (Dir es) =
  obj_of (root, map fst (filter is_dir_entry es), files_of es)
    ++ flat_map (fun e => objs (root ++ [fst e]) (snd e)) es.
Proof.
  intros root es. unfold objs. rewrite walk_dir. cbn [flat_map].
  f_equal. induction es as [|e es IH]; [reflexivity|].
  cbn [flat_map]. rewrite flat_map_app, IH. reflexivity.
Qed.

Lemma mkdir_p_dir : forall q t t',
  mkdir_p q t = Some t' ->
  (exists es, t = Dir es) /\ (exists es', t' = Dir es').
Proof.
  intros [|c q] t t' H; cbn [mkdir_p] in H; destruct t as [|es];
    try discriminate.
  - inversion H; subst. eauto.
  - destruct (mkdir_entries c (mkdir_p q) es) as [es'|]; [|discriminate].
    inversion H; subst. eauto.
Qed.

(** [os.makedirs] adds no file: the OBJ files under a directory are the
    same before and after. *)
Lemma objs_mkdir_p : forall q t t' root,
  mkdir_p q t = Some t' -> objs root t' = objs root t.
Proof.
  induction q as [|c q IH]; intros t t' root H.
  - cbn [mkdir_p] in H. destruct t; [discriminate|]. inversion H. reflexivity.
  - cbn [mkdir_p] in H. destruct t as [|es]; [discriminate|].
    destruct (mkdir_entries c (mkdir_p q) es) as [es'|] eqn:E; [|discriminate].
    inversion H; subst. clear H. rewrite !objs_dir.
    assert (Hes : files_of es' = files_of es /\
                  flat_map (fun e => objs (root ++ [fst e]) (snd e)) es' =
                  flat_map (fun e => objs (root ++ [fst e]) (snd e)) es).
    { revert es' E. induction es as [|[n x] es IHes]; intros es' E;
        cbn [mkdir_entries] in E.
      - destruct (mkdir_p q (Dir [])) as [new|] eqn:En; [|discriminate].
        inversion E; subst.
        destruct (mkdir_p_dir _ _ _ En) as [_ [es2 ->]].
        split; [reflexivity|]. cbn [flat_map fst snd].
        rewrite (IH _ _ (root ++ [c]) En). reflexivity.
      - destruct (String.eqb n c).
        + destruct (mkdir_p q x) as [x'|] eqn:Ex; [|discriminate].
          inversion E; subst.
          destruct (mkdir_p_dir _ _ _ Ex) as [[es1 ->] [es2 ->]].
          split; [reflexivity|]. cbn [flat_map fst snd].
          rewrite (IH _ _ (root ++ [n]) Ex). reflexivity.
        + destruct (mkdir_entries c (mkdir_p q) es) as [es''|]; [|discriminate].
          inversion E; subst. destruct (IHes es'' eq_refl) as [Hf Hw].
          split.
          * unfold files_of in *. cbn [filter].
            destruct (negb (is_dir_entry (n, x))); cbn [map]; rewrite Hf;
              reflexivity.
          * cbn [flat_map]. rewrite Hw. reflexivity. }
    destruct Hes as [Hf Hw]. rewrite Hw. unfold obj_of. rewrite Hf.
    reflexivity.
Qed.

Lemma resolve_mkdir_p : forall q t t' p n,
  mkdir_p q t = Some t' ->
  resolve p t = Some n ->
  exists n', resolve p t' = Some n' /\
             (n' = n \/ exists q', mkdir_p q' n = Some n').
Proof.
  induction q as [|c q IH]; intros t t' p n H Hp.
  - cbn [mkdir_p] in H. destruct t; [discriminate|]. inversion H; subst.
    eauto.
  - pose proof H as H0. cbn [mkdir_p] in H. destruct t as [|es]; [discriminate|].
    destruct (mkdir_entries c (mkdir_p q) es) as [es'|] eqn:E; [|discriminate].
    inversion H; subst. clear H.
    destruct p as [|c' p].
    + cbn [resolve] in *. inversion Hp; subst. eauto.
    + cbn [resolve] in *.
      destruct (String.eqb_spec c' c) as [->|Hne].
      * destruct (mkdir_entries_same _ _ _ _ E) as [x' [Hf Hl]].
        rewrite Hl. unfold entry_or_new in Hf.
        destruct (lookup_entry c es) as [x|]; [|discriminate].
        eapply IH; eassumption.
      * rewrite (mkdir_entries_other _ _ _ _ _ E Hne).
        destruct (lookup_entry c' es) as [x|]; [|discriminate]. eauto.
Qed.

Lemma find_obj_files_objs : forall t input_dir,
  find_obj_files t input_dir =
  match resolve input_dir t with
  | None => []
  | Some top => sorted (objs input_dir top)
  end.
Proof.
  intros t input_dir. unfold find_obj_files, objs.
  destruct (resolve input_dir t) as [top|]; reflexivity.
Qed.

Lemma find_obj_files_mkdir_p : forall q t t' input_dir,
  mkdir_p q t = Some t' ->
  exists_fs t input_dir = true ->
  find_obj_files t' input_dir = find_obj_files t input_dir.
Proof.
  intros q t t' input_dir H Hex. rewrite !find_obj_files_objs.
  unfold exists_fs in Hex.
  destruct (resolve input_dir t) as [n|] eqn:Hn; [|discriminate].
  destruct (resolve_mkdir_p _ _ _ _ _ H Hn) as [n' [-> Hn']].
  destruct Hn' as [->|[q' Hq']]; [reflexivity|].
  rewrite (objs_mkdir_p _ _ _ input_dir Hq'). reflexivity.
Qed.

End DecimateFacts.

Section ToolFacts.
Import Decimate.
Variable b : bpy.
Variable stdout : message -> bool.

Lemma raises_unit : forall A (a : A) P, raises (unit_T a) P.
Proof. intros A a P st e st' H. discriminate H. Qed.

Lemma raises_throw : forall A e (P : error -> Prop),
  P e -> raises (@throw A e) P.
Proof. intros A e P He st e' st' H. inversion H; subst. exact He. Qed.

Lemma raises_bind : forall A B (m : T A) (k : A -> T B) P,
  raises m P -> (forall a, raises (k a) P) -> raises (bind_T m k) P.
Proof.
  intros A B m k P Hm Hk st e st' H. unfold bind_T in H.
  destruct (m st) as [[a|e0] st1] eqn:E.
  - eapply Hk. exact H.
  - inversion H; subst. eapply Hm. exact E.
Qed.

Lemma raises_print : forall m (P : error -> Prop),
  (stdout m = false -> P PrintError) -> raises (print stdout m) P.
Proof.
  intros m P HP st e st' H. unfold print in H.
  destruct (stdout m); [discriminate|]. inversion H; subst. auto.
Qed.

Lemma raises_call : forall A (r : answer A) (P : error -> Prop),
  (forall what, P (BpyError what)) -> raises (call r) P.
Proof.
  intros A r P HP st e st' H. unfold call in H.
  destruct r; [discriminate|]. inversion H; subst. apply HP.
Qed.

Lemma raises_makedirs : forall p (P : error -> Prop),
  P MakedirsError -> raises (makedirs p) P.
Proof.
  intros p P HP st e st' H. unfold makedirs in H.
  destruct (mkdir_p p (tree st)); [discriminate|]. inversion H; subst.
  exact HP.
Qed.

Lemma raises_wrote : forall p P, raises (wrote p) P.
Proof. intros p P st e st' H. discriminate H. Qed.

Lemma raises_try : forall A (m : T A) handler (P : error -> Prop),
  raises m caught ->
  (forall e, raises (handler e) P) ->
  raises (try_except m handler) P.
Proof.
  intros A m handler P Hm Hh st e st' H. unfold try_except in H.
  destruct (m st) as [[a|e0] st1] eqn:E; [discriminate|].
  pose proof (Hm _ _ _ E) as Hc.
  destruct e0; try (eapply Hh; exact H).
  exfalso. eapply Hc. reflexivity.
Qed.

Ltac caught_tac :=
  repeat first
    [ apply raises_unit
    | apply raises_wrote
    | apply raises_print; intros _ code; discriminate
    | apply raises_call; intros what code; discriminate
    | apply raises_makedirs; intros code; discriminate
    | apply raises_throw; intros code; discriminate
    | apply raises_bind; [|intro]
    | match goal with
      | |- raises (match ?x with _ => _ end) _ => destruct x
      | |- raises (if ?x then _ else _) _ => destruct x
      end ].

(** Nothing in the body of the [try] of [process_obj_file] leaves the
    process: whatever is raised there is caught. *)
Lemma import_obj_caught : forall p, raises (import_obj b p) caught.
Proof. intro p. unfold import_obj. caught_tac. Qed.

Lemma decimate_planar_caught : forall o angle_degrees,
  raises (decimate_planar b stdout o angle_degrees) caught.
Proof. intros o angle_degrees. unfold decimate_planar. caught_tac. Qed.

Lemma export_obj_caught : forall o p, raises (export_obj b stdout o p) caught.
Proof. intros o p. unfold export_obj. caught_tac. Qed.

Ltac print_tac :=
  repeat first
    [ apply raises_unit
    | apply raises_wrote
    | apply raises_print; intro Hm; split; [reflexivity|eauto]
    | apply raises_bind; [|intro]
    | match goal with
      | |- raises (match ?x with _ => _ end) _ => destruct x
      | |- raises (if ?x then _ else _) _ => destruct x
      end ].

(** [process_obj_file] raises only when a line cannot be printed: the
    first line, which is printed before the [try], or the line of the
    handler. *)
Lemma process_obj_file_raises : forall input_path output_path angle_degrees,
  raises (process_obj_file b stdout input_path output_path angle_degrees)
         (print_failed stdout).
Proof.
  intros input_path output_path angle_degrees. unfold process_obj_file.
  apply raises_bind; [print_tac|intros _].
  apply raises_try; [|intro e; print_tac].
  apply raises_bind; [apply import_obj_caught|intros [o|]]; [|caught_tac].
  apply raises_bind; [caught_tac|intro n].
  apply raises_bind; [caught_tac|intros _].
  apply raises_bind; [apply decimate_planar_caught|intro d].
  apply raises_bind; [caught_tac|intros _].
  apply raises_bind; [apply export_obj_caught|intro ok].
  caught_tac.
Qed.

Lemma process_all_raises :
  forall input_dir output_dir angle_degrees total_files obj_files i n,
    raises (process_all b stdout input_dir output_dir angle_degrees
                        total_files obj_files i n)
           (print_failed stdout).
Proof.
  intros input_dir output_dir angle_degrees total_files.
  induction obj_files as [|f rest IH]; intros i n; cbn [process_all].
  - apply raises_unit.
  - apply raises_bind; [print_tac|intros _].
    apply raises_bind; [apply process_obj_file_raises|intro ok].
    apply raises_bind; [print_tac|intros _]. apply IH.
Qed.

(** How [main] ends, case by case. *)
Lemma main_ends : forall cwd a t,
  let input_dir := locate cwd (input a) in
  let output_dir := locate cwd (output a) in
  let ending := fst (main b stdout cwd a t) in
  let print_raised :=
    ending = Uncaught PrintError /\ exists m, stdout m = false in
  (exists_fs t input_dir = false /\ (ending = SysExit 1 \/ print_raised)) \/
  (exists_fs t input_dir = true /\ mkdir_p output_dir t = None /\
   ending = Uncaught MakedirsError) \/
  (exists_fs t input_dir = true /\ mkdir_p output_dir t <> None /\
   find_obj_files t input_dir = [] /\
   (ending = SysExit 1 \/ print_raised)) \/
  (exists_fs t input_dir = true /\ mkdir_p output_dir t <> None /\
   find_obj_files t input_dir <> [] /\
   (ending = Returned \/ print_raised)).
Proof.
  intros cwd a t input_dir output_dir ending print_raised.
  unfold print_raised, ending. clear print_raised ending.
  remember (main b stdout cwd a t) as r eqn:Er.
  unfold main, main_body in Er. fold input_dir in Er. fold output_dir in Er.
  unfold bind_T at 1 in Er. cbn [tree] in Er.
  destruct (exists_fs t input_dir) eqn:Hex; cbn [negb] in Er.
  - right. unfold bind_T at 1 in Er. unfold unit_T at 1 in Er.
    unfold bind_T at 1 in Er. unfold makedirs at 1 in Er. cbn [tree] in Er.
    destruct (mkdir_p output_dir t) as [t'|] eqn:Hmk.
    + right. unfold bind_T at 1 in Er. cbn [tree] in Er.
      rewrite (find_obj_files_mkdir_p _ _ _ _ Hmk Hex) in Er.
      destruct (find_obj_files t input_dir) as [|f fl] eqn:Hobj.
      * left. unfold bind_T at 1 in Er. unfold bind_T at 1 in Er.
        unfold print at 1 in Er.
        destruct (stdout (NoObjFiles input_dir)) eqn:Hm; subst r; cbn.
        -- repeat split; try discriminate; auto.
        -- repeat split; try discriminate. right. eauto.
      * right. unfold bind_T at 1 in Er. unfold unit_T at 1 in Er.
        match type of Er with
        | _ = match ?m ?st with _ => _ end =>
            assert (Hr : raises m (print_failed stdout));
            [|destruct (m st) as [[u|e] st1] eqn:E]
        end.
        -- repeat (apply raises_bind;
                   [apply raises_print; intro; split; [reflexivity|eauto]
                   |intros _]).
           apply raises_bind; [apply process_all_raises|intro n].
           print_tac.
        -- subst r. cbn. repeat split; try discriminate; auto.
        -- destruct (Hr _ _ _ E) as [-> Hm]. subst r. cbn.
           repeat split; try discriminate; auto.
    + left. subst r. cbn. repeat split; auto.
  - left. unfold bind_T at 1 in Er. unfold bind_T at 1 in Er.
    unfold bind_T at 1 in Er. unfold print at 1 in Er.
    destruct (stdout (InputMissing input_dir)) eqn:Hm; subst r; cbn.
    + repeat split; auto.
    + repeat split. right. eauto.
Qed.
End ToolFacts.



(** ** The worker, the script processes and the Stop button *)

Lemma run_app : forall a b s, run (a ++ b) s = run b (run a s).
Proof. intros a b s. unfold run. apply fold_left_app. Qed.

Lemma run_cons : forall l a s, run (l :: a) s = run a (step s l).
Proof. reflexivity. Qed.

Lemma skeleton_app : forall a b, skeleton (a ++ b) = skeleton a ++ skeleton b.
Proof. intros a b. unfold skeleton. apply filter_app. Qed.

Lemma nth_error_replace_same : forall k p l q,
  nth_error l k = Some q -> nth_error (replace_nth k p l) k = Some p.
Proof.
  induction k as [|k IH]; intros p [|x l] q H; try discriminate H.
  - reflexivity.
  - cbn [replace_nth nth_error] in *. eapply IH. exact H.
Qed.

Lemma nth_error_replace_other : forall k p l j,
  j <> k -> nth_error (replace_nth k p l) j = nth_error l j.
Proof.
  induction k as [|k IH]; intros p [|x l] j Hne; try reflexivity.
  - destruct j; [congruence|reflexivity].
  - destruct j; [reflexivity|]. cbn [replace_nth nth_error].
    apply IH. congruence.
Qed.

Lemma length_replace_nth : forall k p l,
  List.length (replace_nth k p l) = List.length l.
Proof.
  induction k as [|k IH]; intros p [|x l]; cbn [replace_nth length];
    try reflexivity.
  rewrite IH. reflexivity.
Qed.

Lemma kept_refl : forall l, kept l l.
Proof. intros l k p H. exists p. auto. Qed.

Lemma kept_trans : forall a b c, kept a b -> kept b c -> kept a c.
Proof.
  intros a b c Hab Hbc k p H.
  destruct (Hab k p H) as (p' & H' & Hu & Hp & Hr).
  destruct (Hbc k p' H') as (p'' & H'' & Hu' & Hp' & Hr').
  exists p''. repeat split; try congruence. auto.
Qed.

Lemma kept_replace : forall l k p p',
  nth_error l k = Some p ->
  p_unit p' = p_unit p -> p_plain p' = p_plain p ->
  (forall c, returncode p = Some c -> returncode p' = Some c) ->
  kept l (replace_nth k p' l).
Proof.
  intros l k p p' H Hu Hp Hr j q Hq.
  destruct (Nat.eq_dec j k) as [->|Hne].
  - exists p'. rewrite (nth_error_replace_same _ _ _ _ H).
    assert (q = p) by congruence. subst q. auto.
  - exists q. rewrite nth_error_replace_other by exact Hne. auto.
Qed.

Lemma kept_app : forall l x, kept l (l ++ [x]).
Proof.
  intros l x k p H. exists p. split; [|auto].
  rewrite nth_error_app1; [exact H|].
  apply nth_error_Some. congruence.
Qed.

Lemma same_worker_refl : forall s, same_worker s s.
Proof. intro s. repeat split. Qed.

Lemma set_proc_same : forall s k p t evs,
  same_worker s (set_proc s k p t evs).
Proof. intros. repeat split. Qed.

(** A step of a script or of a program leaves the worker where it is and
    keeps the processes. *)
Lemma bash_step_keeps : forall k s,
  same_worker s (bash_step k s) /\ kept (procs s) (procs (bash_step k s)).
Proof.
  intros k s. unfold bash_step.
  destruct (nth_error (procs s) k) as [p|] eqn:Hk;
    [|split; [apply same_worker_refl|apply kept_refl]].
  destruct (returncode p) as [c|] eqn:Hrc;
    [split; [apply same_worker_refl|apply kept_refl]|].
  destruct (p_running p) as [prog|];
    [split; [apply same_worker_refl|apply kept_refl]|].
  assert (Hset : forall p' t evs,
             p_unit p' = p_unit p -> p_plain p' = p_plain p ->
             same_worker s (set_proc s k p' t evs) /\
             kept (procs s) (procs (set_proc s k p' t evs))).
  { intros p' t evs Hu Hp. split; [apply set_proc_same|].
    cbn [set_proc procs]. apply (kept_replace _ _ p); auto.
    intros c Hc. congruence. }
  assert (Hs : same_worker s s /\ kept (procs s) (procs s))
    by (split; [apply same_worker_refl|apply kept_refl]).
  destruct (p_todo p) as [|[v j file|dir|w|stg argv|] rest].
  - apply Hset; reflexivity.
  - destruct (substitution cwd0 (fs (world s)) j file) as [x [|d ds]];
      [apply Hset; reflexivity|].
    destruct (room p); [apply Hset; reflexivity|exact Hs].
  - destruct (mkdir_text cwd0 dir (fs (world s))) as [t' [|]];
      [apply Hset; reflexivity|].
    destruct (room p); [apply Hset; reflexivity|exact Hs].
  - destruct (room p); [apply Hset; reflexivity|exact Hs].
  - apply Hset; reflexivity.
  - apply Hset; reflexivity.
Qed.

Lemma tool_step_keeps : forall k l s,
  same_worker s (tool_step k l s) /\ kept (procs s) (procs (tool_step k l s)).
Proof.
  intros k l s. unfold tool_step.
  assert (Hs : same_worker s s /\ kept (procs s) (procs s))
    by (split; [apply same_worker_refl|apply kept_refl]).
  destruct (nth_error (procs s) k) as [p|] eqn:Hk; [|exact Hs].
  destruct (p_running p) as [prog|]; [|exact Hs].
  destruct l as [line|code].
  - destruct (room p); [|exact Hs].
    split; [apply set_proc_same|]. cbn [set_proc procs].
    apply (kept_replace _ _ p); auto.
  - split; [apply set_proc_same|]. cbn [set_proc procs].
    apply (kept_replace _ _ p); auto.
Qed.

Lemma justified_kept : forall s s' folders fates,
  kept (procs s) (procs s') ->
  justified s folders fates -> justified s' folders fates.
Proof.
  intros s s' folders fates Hk Hj j folder k code Hf Hn.
  destruct (Hj j folder k code Hf Hn) as (p & Hp & Hu & Hr).
  destruct (Hk k p Hp) as (p' & Hp' & Hu' & _ & Hr').
  exists p'. repeat split; [exact Hp'|congruence|auto].
Qed.

Lemma reading_process_kept : forall s s' p,
  same_worker s s' -> kept (procs s) (procs s') ->
  reading_process s p ->
  exists p', reading_process s' p' /\
             (forall c, returncode p = Some c -> returncode p' = Some c).
Proof.
  intros s s' p Hw Hk (k & Hproc & Hn & Hu).
  destruct Hw as (_ & _ & Hpr & _ & _ & _ & _ & _ & _ & _ & Hfp).
  destruct (Hk k p Hn) as (p' & Hn' & Hu' & _ & Hr').
  exists p'. split; [|exact Hr'].
  exists k. repeat split; [congruence|exact Hn'|congruence].
Qed.

(** The invariant does not look at the file tree or at the trace, and
    at the processes only for their folders and exit statuses. *)
Lemma isolated_kept : forall folders s s',
  same_worker s s' -> kept (procs s) (procs s') ->
  isolated folders s -> isolated folders s'.
Proof.
  intros folders s s' Hw Hk (fates & Hf & Hst & Hp & Hj & Hl & Hinv).
  pose proof Hw as
    (Hself & Hproc & Hpr & Hstop & Hpv & Hlog & Hpc & Hfs & Hrem & Hi & Hfp).
  exists fates. split; [congruence|]. split; [congruence|].
  split; [rewrite Hproc, Hpc; exact Hp|].
  split; [eapply justified_kept; eassumption|]. split; [exact Hl|].
  unfold worker_inv, at_folder in *. rewrite Hpc, Hlog, Hrem, Hi, Hfp, Hpv.
  destruct (at_pc s); try exact Hinv.
  - destruct Hinv as (H1 & H2 & p & Hn & Hu).
    destruct (Hk _ _ Hn) as (p' & Hn' & Hu' & _).
    split; [exact H1|]. split; [exact H2|]. exists p'. split; congruence.
  - destruct Hinv as (H1 & H2 & p & Hr).
    destruct (reading_process_kept _ _ _ Hw Hk Hr) as (p' & Hr' & _).
    eauto.
  - destruct Hinv as (H1 & H2 & p & Hr).
    destruct (reading_process_kept _ _ _ Hw Hk Hr) as (p' & Hr' & _).
    eauto.
  - destruct Hinv as (H1 & H2 & p & Hr).
    destruct (reading_process_kept _ _ _ Hw Hk Hr) as (p' & Hr' & _).
    eauto.
  - destruct Hinv as (H1 & H2 & p & c & Hr & Hc).
    destruct (reading_process_kept _ _ _ Hw Hk Hr) as (p' & Hr' & Hc').
    split; [exact H1|]. split; [exact H2|]. exists p', c. auto.
  - destruct Hinv as (H1 & H2 & p & Hr & Hc).
    destruct (reading_process_kept _ _ _ Hw Hk Hr) as (p' & Hr' & Hc').
    split; [exact H1|]. split; [exact H2|]. exists p'. auto.
Qed.

Lemma batch_lines_nil : forall n j folders, batch_lines n j folders [] = [].
Proof. intros n j [|f folders]; reflexivity. Qed.

Lemma batch_lines_snoc : forall n folders fates j folder f,
  nth_error folders (List.length fates) = Some folder ->
  batch_lines n j folders (fates ++ [f]) =
  batch_lines n j folders fates
    ++ [LogFolder (j + List.length fates) n (name folder);
        outcome_line (name folder) f].
Proof.
  intros n. induction folders as [|x folders IH]; intros fates j folder f H.
  - destruct fates; discriminate H.
  - destruct fates as [|f0 fates]; cbn [app batch_lines length nth_error] in *.
    + inversion H; subst. rewrite batch_lines_nil, Nat.add_0_r. reflexivity.
    + rewrite (IH fates (S j) folder f H).
      replace (S j + List.length fates) with (j + S (List.length fates)) by lia.
      reflexivity.
Qed.

Lemma header_lines_snoc : forall folders fates folder f,
  nth_error folders (List.length fates) = Some folder ->
  header_lines folders (fates ++ [f]) =
  (header_lines folders fates
     ++ [LogFolder (S (List.length fates)) (List.length folders)
                   (name folder)])
    ++ [outcome_line (name folder) f].
Proof.
  intros folders fates folder f H. unfold header_lines.
  rewrite (batch_lines_snoc _ _ _ _ _ f H). cbn [app Nat.add].
  rewrite <- !app_assoc. reflexivity.
Qed.

Lemma skipn_cons_nth : forall (A : Type) d (l : list A) x rest,
  skipn d l = x :: rest ->
  nth_error l d = Some x /\ rest = skipn (S d) l.
Proof.
  intros A. induction d as [|d IH]; intros [|y l] x rest H;
    cbn [skipn nth_error] in *; try discriminate H.
  - inversion H; subst. auto.
  - apply IH. exact H.
Qed.

Lemma skipn_nil_length : forall (A : Type) d (l : list A),
  skipn d l = [] -> List.length l <= d.
Proof.
  intros A. induction d as [|d IH]; intros [|y l] H; cbn [skipn length] in *;
    try discriminate H; try lia.
  apply IH in H. lia.
Qed.

Lemma justified_snoc_raised : forall s folders fates e,
  justified s folders fates -> justified s folders (fates ++ [Raised e]).
Proof.
  intros s folders fates e Hj j folder k code Hf Hn.
  destruct (Nat.lt_ge_cases j (List.length fates)) as [Hlt|Hge].
  - rewrite nth_error_app1 in Hn by exact Hlt. eapply Hj; eassumption.
  - rewrite nth_error_app2 in Hn by exact Hge.
    destruct (j - List.length fates) as [|m]; [discriminate Hn|].
    destruct m; discriminate Hn.
Qed.

Lemma justified_snoc_ran : forall s folders fates k code p folder,
  justified s folders fates ->
  nth_error folders (List.length fates) = Some folder ->
  nth_error (procs s) k = Some p ->
  p_unit p = name folder -> returncode p = Some code ->
  justified s folders (fates ++ [Ran k code]).
Proof.
  intros s folders fates k code p folder Hj Hfo Hp Hu Hr j folder' k' code'
    Hf Hn.
  destruct (Nat.lt_ge_cases j (List.length fates)) as [Hlt|Hge].
  - rewrite nth_error_app1 in Hn by exact Hlt. eapply Hj; eassumption.
  - rewrite nth_error_app2 in Hn by exact Hge.
    destruct (j - List.length fates) as [|m] eqn:E.
    + cbn in Hn. inversion Hn; subst k' code'.
      assert (j = List.length fates) by lia. subst j.
      assert (folder' = folder) by congruence. subst folder'.
      exists p. auto.
    + destruct m; discriminate Hn.
Qed.

Lemma skeleton_report : forall u code,
  skeleton [report u code] = [report u code].
Proof. intros u code. unfold report. destruct (Z.eqb code 0); reflexivity. Qed.

Lemma nth_error_lt : forall (A : Type) (l : list A) d x,
  nth_error l d = Some x -> d < List.length l.
Proof. intros A l d x H. apply nth_error_Some. congruence. Qed.

(** A step of the worker keeps the invariant, when nothing is raised
    outside the [try] of line 349. *)
Lemma worker_step_isolated : forall folders fault s,
  isolated folders s ->
  fault = None \/ in_inner_try (at_pc s) = true ->
  isolated folders (run_processing_step fault s).
Proof.
  intros folders fault s (fates & Hf & Hst & Hp & Hj & Hl & Hinv) Hfault.
  unfold worker_inv in Hinv. unfold run_processing_step.
  destruct (at_pc s) eqn:Hpc; cbn [in_inner_try] in Hfault.
  all: try (destruct Hfault as [->|Hfault]; [|discriminate Hfault]).
  all: try contradiction.
  all: unfold at_folder in *.
  all: try (assert (Hproc : processing s = true)
             by (destruct Hp as [Hp|Hp]; [exact Hp|discriminate Hp])).
  - (* AtStartLog *)
    destruct Hinv as (-> & Hlog & Hrem & Hi).
    exists []. unfold worker_inv.
    cbn [goto say finish take_line folders_to_process at_stop processing at_pc
         log remaining i folder_path progress_var procs process].
    rewrite skeleton_app, Hlog, Hf.
    repeat split; try tauto; auto. unfold header_lines.
    rewrite batch_lines_nil. reflexivity.
  - (* AtLoopTop *)
    destruct Hinv as (Hlog & Hrem & Hi).
    destruct (remaining s) as [|folder rest] eqn:Er.
    + exists fates. unfold worker_inv.
      cbn [goto say finish take_line folders_to_process at_stop processing at_pc
         log remaining i folder_path progress_var procs process].
      symmetry in Hrem. apply skipn_nil_length in Hrem.
      repeat split; try tauto; auto. lia.
    + rewrite Hproc. cbn [negb]. symmetry in Hrem.
      apply skipn_cons_nth in Hrem. destruct Hrem as [Hn Hrest].
      exists fates. unfold worker_inv, at_folder.
      cbn [goto say finish take_line folders_to_process at_stop processing at_pc
         log remaining i folder_path progress_var procs process].
      repeat split; auto; congruence.
  - (* AtHeader *)
    exists fates. unfold worker_inv, at_folder in *.
    cbn [goto say finish take_line folders_to_process at_stop processing at_pc
         log remaining i folder_path progress_var procs process].
    repeat split; try tauto.
  - (* AtHeaderLog *)
    destruct Hinv as (Hlog & Hn & Hrem & Hi).
    exists fates. unfold worker_inv, at_folder.
    cbn [goto say finish take_line folders_to_process at_stop processing at_pc
         log remaining i folder_path progress_var procs process].
    rewrite skeleton_app, Hlog, Hf, Hi.
    repeat split; try tauto; auto.
  - (* AtBody *)
    destruct Hinv as (Hlog & Hat).
    destruct (create_shell_script (self s) (folder_path s)
                (name (folder_path s)) (world s)) as [[script_content|e] w].
    + destruct fault as [e|].
      * exists fates. unfold worker_inv.
        cbn [goto say finish take_line folders_to_process at_stop processing at_pc
         log remaining i folder_path progress_var procs process].
        repeat split; try tauto; auto.
      * destruct (popen _ w) as [r w'].
        exists fates. unfold worker_inv, at_folder in *.
        cbn [goto say finish take_line folders_to_process at_stop processing at_pc
         log remaining i folder_path progress_var procs process].
        split; [exact Hf|]. split; [exact Hst|]. split; [left; exact Hproc|].
        split.
        { apply (justified_kept s); [cbn [procs]; apply kept_app|exact Hj]. }
        split; [exact Hl|]. split; [exact Hlog|]. split; [exact Hat|].
        exists (launch (name (folder_path s)) script_content).
        split; [|reflexivity].
        rewrite nth_error_app2 by lia. rewrite Nat.sub_diag. reflexivity.
    + exists fates. unfold worker_inv.
      cbn [goto say finish take_line folders_to_process at_stop processing at_pc
         log remaining i folder_path progress_var procs process].
      repeat split; try tauto; auto.
  - (* AtAssign *)
    destruct Hinv as (Hlog & Hat & p & Hn & Hu).
    exists fates. unfold worker_inv, at_folder in *.
    cbn [goto say finish take_line folders_to_process at_stop processing at_pc
         log remaining i folder_path progress_var procs process].
    repeat split; try tauto.
    exists p, k. cbn [process procs folder_path]. auto.
  - (* AtReadline *)
    destruct Hinv as (Hlog & Hat & p & k & Hk & Hn & Hu).
    assert (Hsame : isolated folders s).
    { exists fates. unfold worker_inv. rewrite Hpc.
      repeat split; try tauto; auto. exists p, k. auto. }
    unfold current. rewrite Hk, Hn.
    destruct (p_pipe p) as [|line rest] eqn:Epipe.
    + destruct (at_eof p) eqn:Eeof; [|exact Hsame].
      unfold at_eof in Eeof.
      destruct (returncode p) as [c|] eqn:Erc; [|discriminate Eeof].
      exists fates. unfold worker_inv.
      cbn [goto say finish take_line folders_to_process at_stop processing at_pc
         log remaining i folder_path progress_var procs process].
      repeat split; try tauto; auto. exists p, c. split; [|exact Erc].
      exists k. auto.
    + set (p' := mkProc (p_unit p) (p_plain p) (p_todo p) (p_env p)
                        (p_running p) (p_last p) (returncode p) rest).
      assert (Hkept : kept (procs s) (replace_nth k p' (procs s))).
      { apply (kept_replace _ _ p); auto. }
      assert (Hj' : forall next,
                 justified (take_line s k p rest next) folders fates).
      { intro next. eapply justified_kept; [|exact Hj]. exact Hkept. }
      assert (Hr' : forall next,
                 reading_process (take_line s k p rest next) p').
      { intro next. exists k. cbn [goto say finish take_line folders_to_process at_stop processing at_pc
         log remaining i folder_path progress_var procs process].
        split; [exact Hk|]. split; [|exact Hu].
        eapply nth_error_replace_same. exact Hn. }
      destruct fault as [e|].
      * exists fates. unfold worker_inv, at_folder in *.
        cbn [goto say finish take_line folders_to_process at_stop processing at_pc
         log remaining i folder_path progress_var procs process].
        split; [exact Hf|]. split; [exact Hst|]. split; [left; exact Hproc|].
        split; [apply (Hj' (AtExcept e))|]. split; [exact Hl|].
        split; [exact Hlog|exact Hat].
      * exists fates. unfold worker_inv, at_folder in *.
        cbn [goto say finish take_line folders_to_process at_stop processing at_pc
         log remaining i folder_path progress_var procs process].
        split; [exact Hf|]. split; [exact Hst|]. split; [left; exact Hproc|].
        split; [apply (Hj' (AtCheck line))|]. split; [exact Hl|].
        split; [exact Hlog|]. split; [exact Hat|].
        exists p'. apply (Hr' (AtCheck line)).
  - (* AtCheck *)
    rewrite Hproc. cbn [negb].
    exists fates. unfold worker_inv.
    cbn [goto say finish take_line folders_to_process at_stop processing at_pc
         log remaining i folder_path progress_var procs process].
    repeat split; try tauto.
  - (* AtLog *)
    destruct Hinv as (Hlog & Hat & p & Hr).
    destruct fault as [e|].
    + exists fates. unfold worker_inv.
      cbn [goto say finish take_line folders_to_process at_stop processing at_pc
         log remaining i folder_path progress_var procs process].
      repeat split; try tauto; auto.
    + exists fates. unfold worker_inv, at_folder in *.
      cbn [goto say finish take_line folders_to_process at_stop processing at_pc
         log remaining i folder_path progress_var procs process].
      rewrite skeleton_app. cbn [skeleton filter is_line negb].
      rewrite app_nil_r. repeat split; try tauto. exists p. exact Hr.
  - (* AtWait *)
    destruct Hinv as (Hlog & Hat & p & c & (k & Hk & Hn & Hu) & Hc).
    destruct fault as [e|].
    + exists fates. unfold worker_inv.
      cbn [goto say finish take_line folders_to_process at_stop processing at_pc
         log remaining i folder_path progress_var procs process].
      repeat split; try tauto; auto.
    + unfold current. rewrite Hk, Hn, Hc.
      exists fates. unfold worker_inv.
      cbn [goto say finish take_line folders_to_process at_stop processing at_pc
         log remaining i folder_path progress_var procs process].
      repeat split; try tauto; auto. exists p. split; [|exact Hc]. exists k. auto.
  - (* AtReport *)
    destruct Hinv as (Hlog & (Hnth & Hrem & Hi) & p & (k & Hk & Hn & Hu) & Hc).
    destruct fault as [e|].
    + exists fates. unfold worker_inv, at_folder.
      cbn [goto say finish take_line folders_to_process at_stop processing at_pc
         log remaining i folder_path progress_var procs process].
      repeat split; try tauto; auto.
    + exists (fates ++ [Ran k code]). unfold worker_inv.
      cbn [goto say finish take_line folders_to_process at_stop processing at_pc
         log remaining i folder_path progress_var procs process].
      rewrite skeleton_app, Hlog, length_app. cbn [length].
      rewrite (header_lines_snoc _ _ _ (Ran k code) Hnth).
      apply nth_error_lt in Hnth as Hlt.
      split; [exact Hf|]. split; [exact Hst|]. split; [left; exact Hproc|].
      split; [eapply justified_snoc_ran; eassumption|].
      split; [lia|].
      rewrite Nat.add_1_r, skeleton_report. repeat split; try tauto; auto.
  - (* AtExcept *)
    destruct Hinv as (Hlog & (Hnth & Hrem & Hi)).
    exists (fates ++ [Raised e]). unfold worker_inv.
    cbn [goto say finish take_line folders_to_process at_stop processing at_pc
         log remaining i folder_path progress_var procs process].
    rewrite skeleton_app, Hlog, length_app. cbn [length].
    rewrite (header_lines_snoc _ _ _ (Raised e) Hnth).
    apply nth_error_lt in Hnth as Hlt.
    split; [exact Hf|]. split; [exact Hst|]. split; [left; exact Hproc|].
    split; [apply justified_snoc_raised; exact Hj|].
    split; [lia|].
    rewrite Nat.add_1_r. repeat split; try tauto; auto.
  - (* AtEnd *)
    exists fates. unfold worker_inv.
    cbn [goto say finish take_line folders_to_process at_stop processing at_pc
         log remaining i folder_path progress_var procs process].
    rewrite Hproc. repeat split; tauto.
  - (* AtClosing *)
    destruct completed; [|contradiction].
    destruct Hinv as (Hlog & Hn).
    exists fates. unfold worker_inv.
    cbn [goto say finish take_line folders_to_process at_stop processing at_pc
         log remaining i folder_path progress_var procs process].
    rewrite skeleton_app, Hlog. repeat split; try tauto; auto.
  - (* AtClosingSet *)
    destruct Hinv as (-> & Hlog & Hn).
    exists fates. unfold worker_inv.
    cbn [goto say finish take_line folders_to_process at_stop processing at_pc
         log remaining i folder_path progress_var procs process].
    repeat split; try tauto; auto.
  - (* Finished *)
    exists fates. unfold worker_inv. rewrite Hpc. repeat split; try tauto; auto.
Qed.

Lemma step_isolated : forall folders l s,
  isolated folders s ->
  is_stop l = false ->
  match l with
  | Worker (Some _) => in_inner_try (at_pc s) = true
  | _ => True
  end ->
  isolated folders (step s l).
Proof.
  intros folders l s Hs Hl Hin.
  destruct l as [fault|k|k line|k code| | |t]; cbn [step].
  - apply worker_step_isolated; [exact Hs|].
    destruct fault; [right; exact Hin|left; reflexivity].
  - destruct (bash_step_keeps k s). eapply isolated_kept; eassumption.
  - destruct (tool_step_keeps k (inl line) s).
    eapply isolated_kept; eassumption.
  - destruct (tool_step_keeps k (inr code) s).
    eapply isolated_kept; eassumption.
  - discriminate Hl.
  - destruct Hs as (fates & Hf & Hst & Hrest) eqn:E. clear E.
    unfold stop_processing_step. rewrite Hst.
    exists fates. auto.
  - eapply isolated_kept; [| |exact Hs].
    + repeat split.
    + cbn [touch procs]. apply kept_refl.
Qed.

Lemma run_isolated : forall folders schedule s,
  isolated folders s ->
  no_stop schedule = true ->
  raises_inside_only schedule s = true ->
  isolated folders (run schedule s).
Proof.
  intros folders. induction schedule as [|l rest IH]; intros s Hs Hn Hr.
  - exact Hs.
  - rewrite run_cons. cbn [no_stop forallb raises_inside_only] in Hn, Hr.
    apply andb_prop in Hn. destruct Hn as [Hl Hn].
    apply andb_prop in Hr. destruct Hr as [Hin Hr].
    apply IH; [|exact Hn|exact Hr].
    apply step_isolated; [exact Hs|destruct l; try reflexivity; discriminate|].
    destruct l as [[e|]| | | | | |]; auto.
Qed.

(** The state in which the worker has the list of the locator. *)
Lemma located_isolated : forall g w w' folders,
  get_processing_folders g w = (Ok folders, w') ->
  isolated folders (step (init g w) (Worker None)).
Proof.
  intros g w w' folders H. cbn [step]. unfold run_processing_step.
  cbn [init at_pc self world]. rewrite H.
  exists []. unfold worker_inv.
  cbn [folders_to_process at_stop processing at_pc log remaining i].
  repeat split; auto.
  - intros j folder k code _ Hn. destruct j; discriminate Hn.
  - cbn. lia.
Qed.

Lemma isolated_underway : forall folders s,
  isolated folders s -> underway folders s.
Proof.
  intros folders s (fates & Hf & Hst & Hp & Hj & Hl & Hinv).
  unfold worker_inv, at_folder in Hinv. unfold underway.
  destruct (at_pc s) eqn:Hpc; try contradiction.
  - left. tauto.
  - right. exists fates, []. rewrite app_nil_r.
    destruct Hinv as (Hlog & _). auto.
  - right. exists fates, []. rewrite app_nil_r.
    destruct Hinv as (Hlog & _). auto.
  - right. exists fates, []. rewrite app_nil_r.
    destruct Hinv as (Hlog & _). auto.
  - right. eexists fates, _. destruct Hinv as (Hlog & Hn & _).
    split; [exact Hl|]. split; [exact Hj|]. split; [exact Hlog|].
    right. left. eauto.
  - right. eexists fates, _. destruct Hinv as (Hlog & (Hn & _) & _).
    split; [exact Hl|]. split; [exact Hj|]. split; [exact Hlog|].
    right. left. eauto.
  - right. eexists fates, _. destruct Hinv as (Hlog & (Hn & _) & _).
    split; [exact Hl|]. split; [exact Hj|]. split; [exact Hlog|].
    right. left. eauto.
  - right. eexists fates, _. destruct Hinv as (Hlog & (Hn & _) & _).
    split; [exact Hl|]. split; [exact Hj|]. split; [exact Hlog|].
    right. left. eauto.
  - right. eexists fates, _. destruct Hinv as (Hlog & (Hn & _) & _).
    split; [exact Hl|]. split; [exact Hj|]. split; [exact Hlog|].
    right. left. eauto.
  - right. eexists fates, _. destruct Hinv as (Hlog & (Hn & _) & _).
    split; [exact Hl|]. split; [exact Hj|]. split; [exact Hlog|].
    right. left. eauto.
  - right. eexists fates, _. destruct Hinv as (Hlog & (Hn & _) & _).
    split; [exact Hl|]. split; [exact Hj|]. split; [exact Hlog|].
    right. left. eauto.
  - right. eexists fates, _. destruct Hinv as (Hlog & Hn & _).
    split; [exact Hl|]. split; [exact Hj|]. split; [exact Hlog|].
    right. left. eauto.
  - right. exists fates, []. rewrite app_nil_r.
    destruct Hinv as (Hlog & _). auto.
  - destruct completed; [|contradiction].
    right. exists fates, []. rewrite app_nil_r.
    destruct Hinv as (Hlog & _). auto.
  - right. eexists fates, _. destruct Hinv as (_ & Hlog & Hn).
    split; [exact Hl|]. split; [exact Hj|]. split; [exact Hlog|]. auto.
  - right. eexists fates, _. destruct Hinv as (Hlog & Hn & _).
    split; [exact Hl|]. split; [exact Hj|]. split; [exact Hlog|]. auto.
Qed.

Lemma isolated_complete : forall folders s,
  isolated folders s -> at_pc s = Finished -> complete folders s.
Proof.
  intros folders s (fates & Hf & Hst & Hp & Hj & Hl & Hinv) Hpc.
  unfold worker_inv in Hinv. rewrite Hpc in Hinv.
  destruct Hinv as (Hlog & Hn & Hpv). exists fates. auto.
Qed.

(** *** The worker can always finish *)

Lemma calm_app : forall verdict a b s,
  calm verdict (a ++ b) s = calm verdict a s && calm verdict b (run a s).
Proof.
  intros verdict. induction a as [|l a IH]; intros b s; [reflexivity|].
  cbn [app calm]. rewrite IH, run_cons, andb_assoc. reflexivity.
Qed.

Lemma calm_no_stop : forall verdict c s,
  calm verdict c s = true -> no_stop c = true.
Proof.
  intros verdict. induction c as [|l c IH]; intros s H; [reflexivity|].
  cbn [calm] in H. apply andb_prop in H. destruct H as [Hl H].
  cbn [no_stop forallb]. fold (no_stop c). rewrite (IH _ H).
  destruct l as [[e|]| | | | | |]; try discriminate Hl; reflexivity.
Qed.

Lemma calm_raises_inside_only : forall verdict c s,
  calm verdict c s = true -> raises_inside_only c s = true.
Proof.
  intros verdict. induction c as [|l c IH]; intros s H; [reflexivity|].
  cbn [calm] in H. apply andb_prop in H. destruct H as [Hl H].
  cbn [raises_inside_only]. rewrite (IH _ H).
  destruct l as [[e|]| | | | | |]; try discriminate Hl; reflexivity.
Qed.

Lemma can_reach_here : forall verdict s (P : state -> Prop),
  P s -> can_reach verdict s P.
Proof. intros verdict s P H. exists []. split; [reflexivity|exact H]. Qed.

Lemma can_reach_worker : forall verdict s P,
  can_reach verdict (run_processing_step None s) P -> can_reach verdict s P.
Proof.
  intros verdict s P (c & Hc & HP). exists (Worker None :: c).
  split; [exact Hc|exact HP].
Qed.

Lemma can_reach_bash : forall verdict k s P,
  can_reach verdict (bash_step k s) P -> can_reach verdict s P.
Proof.
  intros verdict k s P (c & Hc & HP). exists (Bash k :: c).
  split; [exact Hc|exact HP].
Qed.

Lemma can_reach_exit : forall verdict k p prog s P,
  nth_error (procs s) k = Some p -> p_running p = Some prog ->
  can_reach verdict (tool_step k (inr (verdict k prog)) s) P ->
  can_reach verdict s P.
Proof.
  intros verdict k p prog s P Hn Hr (c & Hc & HP).
  exists (ToolExits k (verdict k prog) :: c). split; [|exact HP].
  cbn [calm step]. rewrite Hn, Hr, Z.eqb_refl. exact Hc.
Qed.

Lemma can_reach_trans : forall verdict s (Q P : state -> Prop),
  can_reach verdict s Q ->
  (forall s', Q s' -> can_reach verdict s' P) ->
  can_reach verdict s P.
Proof.
  intros verdict s Q P (c & Hc & HQ) H.
  destruct (H _ HQ) as (c' & Hc' & HP).
  exists (c ++ c'). rewrite calm_app, run_app, Hc. split; assumption.
Qed.

(** The invariant comes along. *)
Lemma can_reach_isolated : forall verdict folders s P,
  isolated folders s ->
  can_reach verdict s P ->
  can_reach verdict s (fun s' => P s' /\ isolated folders s').
Proof.
  intros verdict folders s P Hs (c & Hc & HP). exists c.
  split; [exact Hc|]. split; [exact HP|].
  apply run_isolated; [exact Hs|eapply calm_no_stop; exact Hc|].
  eapply calm_raises_inside_only. exact Hc.
Qed.

Lemma room_empty : forall p, p_pipe p = [] -> room p = true.
Proof. intros p H. unfold room. rewrite H. reflexivity. Qed.

(** The worker empties the pipe. *)
Lemma drain : forall verdict n s k p,
  reads_from s k p ->
  List.length (p_pipe p) <= n ->
  can_reach verdict s
    (fun s' =>
       remaining s' = remaining s /\
       exists p', reads_from s' k p' /\ p_pipe p' = [] /\
                  weight p' = weight p /\ p_running p' = p_running p /\
                  returncode p' = returncode p).
Proof.
  intros verdict. induction n as [|n IH]; intros s k p (Hpc & Hk & Hn & Hpr) Hlen.
  - apply can_reach_here. split; [reflexivity|]. exists p.
    split; [repeat split; assumption|].
    destruct (p_pipe p); [auto|cbn in Hlen; lia].
  - destruct (p_pipe p) as [|line rest] eqn:Epipe.
    + apply can_reach_here. split; [reflexivity|]. exists p.
      split; [repeat split; assumption|]. auto.
    + apply can_reach_worker. unfold run_processing_step at 1.
      rewrite Hpc. unfold current. rewrite Hk, Hn, Epipe.
      apply can_reach_worker. unfold run_processing_step at 1.
      cbn [take_line at_pc processing]. rewrite Hpr. cbn [negb].
      apply can_reach_worker. unfold run_processing_step at 1.
      cbn [goto take_line at_pc].
      set (p' := mkProc (p_unit p) (p_plain p) (p_todo p) (p_env p)
                        (p_running p) (p_last p) (returncode p) rest).
      match goal with |- can_reach _ ?s1 _ => set (s' := s1) end.
      assert (Hr : reads_from s' k p').
      { unfold reads_from, s'. cbn [say goto at_pc process procs processing].
        repeat split; try assumption.
        eapply nth_error_replace_same. exact Hn. }
      assert (Hlen' : List.length (p_pipe p') <= n)
        by (unfold p'; cbn [p_pipe]; cbn [length] in Hlen; lia).
      eapply can_reach_trans; [apply (IH s' k p' Hr Hlen')|].
      intros s2 (Hrem & p2 & Hr2 & Hp2 & Hw2 & Hrun2 & Hrc2).
      apply can_reach_here. split; [rewrite Hrem; reflexivity|].
      exists p2. split; [exact Hr2|]. split; [exact Hp2|].
      split; [rewrite Hw2; reflexivity|]. split; [rewrite Hrun2|rewrite Hrc2];
        reflexivity.
Qed.

Lemma bash_step_progress : forall k s p,
  nth_error (procs s) k = Some p ->
  returncode p = None -> p_running p = None -> room p = true ->
  exists p',
    nth_error (procs (bash_step k s)) k = Some p' /\ weight p' < weight p.
Proof.
  intros k s p Hn Hrc Hrun Hroom. unfold bash_step.
  rewrite Hn, Hrc, Hrun, Hroom.
  assert (Hset : forall p' t evs,
             weight p' < weight p ->
             exists q,
               nth_error (procs (set_proc s k p' t evs)) k = Some q /\
               weight q < weight p).
  { intros p' t evs Hw. exists p'. split; [|exact Hw].
    cbn [set_proc procs]. eapply nth_error_replace_same. exact Hn. }
  assert (Hp : weight p = 2 * List.length (p_todo p) + 1)
    by (unfold weight; rewrite Hrc, Hrun; lia).
  rewrite Hp in Hset |- *. clear Hp.
  destruct (p_todo p) as [|[v j file|dir|w|stg argv|] rest]; cbn [length] in *.
  - apply Hset. cbn. lia.
  - destruct (substitution cwd0 (fs (world s)) j file) as [x [|d ds]];
      apply Hset; cbn; lia.
  - destruct (mkdir_text cwd0 dir (fs (world s))) as [t' [|]];
      apply Hset; cbn; lia.
  - apply Hset. cbn. lia.
  - apply Hset. cbn. lia.
  - apply Hset. cbn. lia.
Qed.

Lemma tool_exit_progress : forall k s p prog code,
  nth_error (procs s) k = Some p -> p_running p = Some prog ->
  exists p',
    nth_error (procs (tool_step k (inr code) s)) k = Some p' /\
    weight p' < weight p /\ p_pipe p' = p_pipe p.
Proof.
  intros k s p prog code Hn Hrun. unfold tool_step. rewrite Hn, Hrun.
  eexists. split; [|split].
  - cbn [set_proc procs]. eapply nth_error_replace_same. exact Hn.
  - unfold weight. cbn [p_todo p_running returncode]. rewrite Hrun. lia.
  - reflexivity.
Qed.

Lemma reads_from_same : forall s s' k p p',
  same_worker s s' -> reads_from s k p ->
  nth_error (procs s') k = Some p' -> reads_from s' k p'.
Proof.
  intros s s' k p p'
    (_ & Hproc & Hpr & _ & _ & _ & Hpc & _) (H1 & H2 & H3 & H4) Hn.
  unfold reads_from. repeat split; congruence.
Qed.

(** The worker reads the script's output to its end and reaches the
    call of [wait]: the pipe is emptied whenever a writer could wait for
    room. *)
Lemma reads_to_the_end : forall verdict w s k p,
  reads_from s k p -> weight p <= w ->
  can_reach verdict s
    (fun s' => at_pc s' = AtWait /\ remaining s' = remaining s).
Proof.
  intros verdict w. induction w as [w IH] using lt_wf_ind.
  intros s k p Hr Hw.
  eapply can_reach_trans; [apply (drain verdict _ s k p Hr (le_n _))|].
  intros s1 (Hrem & p1 & Hr1 & Hpipe & Hw1 & _ & _).
  pose proof Hr1 as (Hpc1 & Hk1 & Hn1 & Hpr1).
  destruct (p_running p1) as [prog|] eqn:Hrun;
    [|destruct (returncode p1) as [c|] eqn:Hrc].
  - (* the program in flight exits *)
    destruct (tool_exit_progress k s1 p1 prog (verdict k prog) Hn1 Hrun)
      as (p2 & Hn2 & Hw2 & _).
    apply (can_reach_exit verdict k p1 prog s1 _ Hn1 Hrun).
    destruct (tool_step_keeps k (inr (verdict k prog)) s1) as [Hsame _].
    eapply can_reach_trans.
    + apply (IH (weight p2)) with (k := k) (p := p2);
        [lia|eapply reads_from_same; eassumption|lia].
    + intros s2 (Hpc2 & Hrem2). apply can_reach_here.
      split; [exact Hpc2|].
      destruct Hsame as (_ & _ & _ & _ & _ & _ & _ & _ & Hr' & _).
      congruence.
  - (* end of file *)
    apply can_reach_worker. unfold run_processing_step, current.
    rewrite Hpc1, Hk1, Hn1, Hpipe. unfold at_eof. rewrite Hrc, Hrun, Hpipe.
    apply can_reach_here. split; [reflexivity|exact Hrem].
  - (* bash goes on *)
    destruct (bash_step_progress k s1 p1 Hn1 Hrc Hrun (room_empty p1 Hpipe))
      as (p3 & Hn3 & Hw3).
    apply (can_reach_bash verdict k).
    destruct (bash_step_keeps k s1) as [Hsame _].
    eapply can_reach_trans.
    + apply (IH (weight p3)) with (k := k) (p := p3);
        [lia|eapply reads_from_same; eassumption|lia].
    + intros s2 (Hpc2 & Hrem2). apply can_reach_here.
      split; [exact Hpc2|].
      destruct Hsame as (_ & _ & _ & _ & _ & _ & _ & _ & Hr' & _).
      congruence.
Qed.

Ltac open_inv Hs Hpc :=
  let fates := fresh "fates" in
  let Hf := fresh "Hf" in
  let Hst := fresh "Hst" in
  let Hp := fresh "Hp" in
  let Hj := fresh "Hj" in
  let Hl := fresh "Hl" in
  let Hinv := fresh "Hinv" in
  let Hproc := fresh "Hproc" in
  pose proof Hs as (fates & Hf & Hst & Hp & Hj & Hl & Hinv);
  unfold worker_inv in Hinv; rewrite Hpc in Hinv;
  assert (Hproc : processing _ = true)
    by (destruct Hp as [Hp|Hp]; [exact Hp|rewrite Hpc in Hp; discriminate Hp]).

Section Liveness.
Variable verdict : nat -> program -> Z.
Variable folders : list Path.

Lemma from_report : forall s code,
  at_pc s = AtReport code -> can_reach verdict s (next_folder s).
Proof.
  intros s code Hpc. apply can_reach_worker. unfold run_processing_step.
  rewrite Hpc. apply can_reach_here. split; reflexivity.
Qed.

Lemma from_except : forall s e,
  at_pc s = AtExcept e -> can_reach verdict s (next_folder s).
Proof.
  intros s e Hpc. apply can_reach_worker. unfold run_processing_step.
  rewrite Hpc. apply can_reach_here. split; reflexivity.
Qed.

Lemma from_wait : forall s,
  isolated folders s -> at_pc s = AtWait ->
  can_reach verdict s (next_folder s).
Proof.
  intros s Hs Hpc. open_inv Hs Hpc.
  destruct Hinv as (_ & _ & p & code & (k & Hk & Hn & _) & Hc).
  apply can_reach_worker. unfold run_processing_step, current.
  rewrite Hpc, Hk, Hn, Hc.
  eapply can_reach_trans; [apply (from_report _ code); reflexivity|].
  intros s' H. apply can_reach_here. exact H.
Qed.

Lemma from_readline : forall s,
  isolated folders s -> at_pc s = AtReadline ->
  can_reach verdict s (next_folder s).
Proof.
  intros s Hs Hpc. open_inv Hs Hpc.
  destruct Hinv as (_ & _ & p & k & Hk & Hn & _).
  assert (Hr : reads_from s k p) by (repeat split; assumption).
  pose proof (can_reach_isolated verdict folders s _ Hs
                (reads_to_the_end verdict _ s k p Hr (le_n _))) as H.
  eapply can_reach_trans; [exact H|].
  intros s1 ((Hpc1 & Hrem1) & Hs1).
  eapply can_reach_trans; [apply (from_wait s1 Hs1 Hpc1)|].
  intros s2 (Hpc2 & Hrem2). apply can_reach_here.
  split; [exact Hpc2|congruence].
Qed.

(** One step of the worker, then on from the state it leads to. *)
Lemma by_worker_step : forall s,
  isolated folders s ->
  (isolated folders (run_processing_step None s) ->
   can_reach verdict (run_processing_step None s)
             (next_folder (run_processing_step None s))) ->
  remaining (run_processing_step None s) = remaining s ->
  can_reach verdict s (next_folder s).
Proof.
  intros s Hs H Hrem. apply can_reach_worker.
  eapply can_reach_trans.
  - apply H. apply (step_isolated folders (Worker None) s Hs eq_refl I).
  - intros s' (Hpc' & Hrem'). apply can_reach_here.
    split; [exact Hpc'|congruence].
Qed.

Lemma from_log : forall s line,
  isolated folders s -> at_pc s = AtLog line ->
  can_reach verdict s (next_folder s).
Proof.
  intros s line Hs Hpc. apply (by_worker_step s Hs).
  - intro Hs'. apply (from_readline _ Hs').
    unfold run_processing_step. rewrite Hpc. reflexivity.
  - unfold run_processing_step. rewrite Hpc. reflexivity.
Qed.

Lemma from_check : forall s line,
  isolated folders s -> at_pc s = AtCheck line ->
  can_reach verdict s (next_folder s).
Proof.
  intros s line Hs Hpc. open_inv Hs Hpc. apply (by_worker_step s Hs).
  - intro Hs'. apply (from_log _ line Hs').
    unfold run_processing_step. rewrite Hpc, Hproc. reflexivity.
  - unfold run_processing_step. rewrite Hpc, Hproc. reflexivity.
Qed.

Lemma from_assign : forall s k,
  isolated folders s -> at_pc s = AtAssign k ->
  can_reach verdict s (next_folder s).
Proof.
  intros s k Hs Hpc. apply (by_worker_step s Hs).
  - intro Hs'. apply (from_readline _ Hs').
    unfold run_processing_step. rewrite Hpc. reflexivity.
  - unfold run_processing_step. rewrite Hpc. reflexivity.
Qed.

Lemma from_body : forall s,
  isolated folders s -> at_pc s = AtBody ->
  can_reach verdict s (next_folder s).
Proof.
  intros s Hs Hpc. apply (by_worker_step s Hs).
  - intro Hs'. revert Hs'. unfold run_processing_step. rewrite Hpc.
    destruct (create_shell_script (self s) (folder_path s)
                (name (folder_path s)) (world s)) as [[script_content|e] w].
    + destruct (popen _ w) as [r w']. intro Hs'.
      apply (from_assign _ (List.length (procs s)) Hs'). reflexivity.
    + intros _. apply (from_except _ (Known e)). reflexivity.
  - unfold run_processing_step. rewrite Hpc.
    destruct (create_shell_script (self s) (folder_path s)
                (name (folder_path s)) (world s)) as [[script_content|e] w].
    + destruct (popen _ w) as [r w']. reflexivity.
    + reflexivity.
Qed.

Lemma from_header_log : forall s,
  isolated folders s -> at_pc s = AtHeaderLog ->
  can_reach verdict s (next_folder s).
Proof.
  intros s Hs Hpc. apply (by_worker_step s Hs).
  - intro Hs'. apply (from_body _ Hs').
    unfold run_processing_step. rewrite Hpc. reflexivity.
  - unfold run_processing_step. rewrite Hpc. reflexivity.
Qed.

Lemma from_header : forall s,
  isolated folders s -> at_pc s = AtHeader ->
  can_reach verdict s (next_folder s).
Proof.
  intros s Hs Hpc. apply (by_worker_step s Hs).
  - intro Hs'. apply (from_header_log _ Hs').
    unfold run_processing_step. rewrite Hpc. reflexivity.
  - unfold run_processing_step. rewrite Hpc. reflexivity.
Qed.

Lemma from_end : forall s,
  isolated folders s -> at_pc s = AtEnd ->
  can_reach verdict s (fun s' => at_pc s' = Finished).
Proof.
  intros s Hs Hpc. open_inv Hs Hpc.
  apply can_reach_worker. unfold run_processing_step at 1. rewrite Hpc, Hproc.
  apply can_reach_worker. unfold run_processing_step at 1. cbn [goto at_pc].
  apply can_reach_worker. unfold run_processing_step at 1. cbn [say at_pc].
  apply can_reach_here. reflexivity.
Qed.

(** From the top of the loop the worker gets through the folders that
    are left. *)
Lemma from_loop_top : forall n s,
  isolated folders s -> at_pc s = AtLoopTop ->
  List.length (remaining s) <= n ->
  can_reach verdict s (fun s' => at_pc s' = Finished).
Proof.
  induction n as [|n IH]; intros s Hs Hpc Hlen; open_inv Hs Hpc.
  - destruct (remaining s) as [|folder rest] eqn:Er; [|cbn in Hlen; lia].
    pose proof (step_isolated folders (Worker None) s Hs eq_refl I) as Hs1.
    apply can_reach_worker. cbn [step] in Hs1. revert Hs1.
    unfold run_processing_step at 1 2. rewrite Hpc, Er. intro Hs1.
    apply (from_end _ Hs1). reflexivity.
  - pose proof (step_isolated folders (Worker None) s Hs eq_refl I) as Hs1.
    apply can_reach_worker. cbn [step] in Hs1. revert Hs1.
    unfold run_processing_step at 1 2. rewrite Hpc.
    destruct (remaining s) as [|folder rest] eqn:Er.
    + intro Hs1. apply (from_end _ Hs1). reflexivity.
    + rewrite Hproc. cbn [negb]. intro Hs1.
      match type of Hs1 with isolated _ ?x => set (s1 := x) in * end.
      pose proof (can_reach_isolated verdict folders s1 _ Hs1
                    (from_header s1 Hs1 eq_refl)) as H.
      eapply can_reach_trans; [exact H|].
      intros s2 ((Hpc2 & Hrem2) & Hs2).
      apply (IH s2 Hs2 Hpc2). rewrite Hrem2. unfold s1. cbn [remaining].
      cbn [length] in Hlen. lia.
Qed.

(** Whatever has happened, as long as the Stop button was not pressed and
    nothing was raised outside the [try] of line 349: the worker gets to
    the end of [run_processing]. *)
Lemma can_finish : forall s,
  isolated folders s ->
  can_reach verdict s (fun s' => at_pc s' = Finished).
Proof.
  intros s Hs.
  assert (Hnext : can_reach verdict s (next_folder s) ->
                  can_reach verdict s (fun s' => at_pc s' = Finished)).
  { intro H.
    eapply can_reach_trans;
      [exact (can_reach_isolated verdict folders s _ Hs H)|].
    intros s1 ((Hpc1 & _) & Hs1).
    apply (from_loop_top _ s1 Hs1 Hpc1 (le_n _)). }
  destruct (at_pc s) eqn:Hpc.
  - open_inv Hs Hpc. contradiction.
  - apply Hnext. apply (by_worker_step s Hs).
    + intros _. apply can_reach_here. unfold run_processing_step.
      rewrite Hpc. split; reflexivity.
    + unfold run_processing_step. rewrite Hpc. reflexivity.
  - apply (from_loop_top _ s Hs Hpc (le_n _)).
  - apply Hnext. apply (from_header s Hs Hpc).
  - apply Hnext. apply (from_header_log s Hs Hpc).
  - apply Hnext. apply (from_body s Hs Hpc).
  - apply Hnext. apply (from_assign s k Hs Hpc).
  - apply Hnext. apply (from_readline s Hs Hpc).
  - apply Hnext. apply (from_check s line Hs Hpc).
  - apply Hnext. apply (from_log s line Hs Hpc).
  - apply Hnext. apply (from_wait s Hs Hpc).
  - apply Hnext. apply (from_report s code Hpc).
  - apply Hnext. apply (from_except s e Hpc).
  - apply (from_end s Hs Hpc).
  - open_inv Hs Hpc. destruct completed; [|contradiction].
    apply can_reach_worker. unfold run_processing_step at 1. rewrite Hpc.
    apply can_reach_worker. unfold run_processing_step at 1. cbn [say at_pc].
    apply can_reach_here. reflexivity.
  - open_inv Hs Hpc.
    apply can_reach_worker. unfold run_processing_step at 1. rewrite Hpc.
    apply can_reach_here. reflexivity.
  - open_inv Hs Hpc. contradiction.
  - open_inv Hs Hpc. contradiction.
  - apply can_reach_here. exact Hpc.
Qed.
End Liveness.

Lemma begun_skeleton : forall l, begun (skeleton l) = begun l.
Proof.
  induction l as [|e l IH]; [reflexivity|].
  destruct e; cbn [skeleton filter is_line negb begun flat_map app] in *;
    fold (skeleton l); fold (begun l); fold (begun (skeleton l));
    rewrite ?IH; reflexivity.
Qed.

Lemma begun_batch_lines : forall n folders fates j,
  List.length fates = List.length folders ->
  begun (batch_lines n j folders fates) = map name folders.
Proof.
  intros n. induction folders as [|f folders IH]; intros [|x fates] j H;
    try discriminate H; [reflexivity|].
  cbn [batch_lines begun flat_map map app length] in *.
  fold (begun (batch_lines n (S j) folders fates)).
  rewrite IH by lia.
  destruct x; cbn [outcome_line]; [reflexivity|].
  unfold report. destruct (Z.eqb code 0); reflexivity.
Qed.

(** When the batch is complete every folder of the list was begun, in the
    order of the list. *)
Lemma complete_begun : forall folders s,
  complete folders s -> begun (log s) = map name folders.
Proof.
  intros folders s (fates & Hn & _ & Hlog & _).
  rewrite <- begun_skeleton, Hlog. unfold header_lines, begun.
  cbn [flat_map app]. rewrite flat_map_app. cbn [flat_map app].
  rewrite app_nil_r. apply begun_batch_lines. exact Hn.
Qed.



(** *** The Stop button *)

Lemma begun_app : forall a b, begun (a ++ b) = begun a ++ begun b.
Proof. intros a b. unfold begun. apply flat_map_app. Qed.

Lemma forwarded_app : forall a b,
  forwarded (a ++ b) = forwarded a ++ forwarded b.
Proof. intros a b. unfold forwarded. apply filter_app. Qed.

Lemma starts_app : forall k a b, starts k (a ++ b) = starts k a ++ starts k b.
Proof. intros k a b. unfold starts. apply flat_map_app. Qed.

Lemma bash_step_length : forall k s,
  List.length (procs (bash_step k s)) = List.length (procs s).
Proof.
  intros k s. unfold bash_step.
  repeat match goal with
         | |- context [match ?x with _ => _ end] => destruct x
         end;
    cbn [set_proc procs]; rewrite ?length_replace_nth; reflexivity.
Qed.

Lemma tool_step_length : forall k l s,
  List.length (procs (tool_step k l s)) = List.length (procs s).
Proof.
  intros k l s. unfold tool_step.
  repeat match goal with
         | |- context [match ?x with _ => _ end] => destruct x
         end;
    cbn [set_proc procs]; rewrite ?length_replace_nth; reflexivity.
Qed.

Lemma dead_kept : forall k s s',
  kept (procs s) (procs s') -> dead k s -> dead k s'.
Proof.
  intros k s s' Hk (p & c & Hn & Hc).
  destruct (Hk k p Hn) as (p' & Hn' & _ & _ & Hr). exists p', c. auto.
Qed.

Lemma halted_kept : forall k n b base s s',
  same_worker s s' -> kept (procs s) (procs s') ->
  List.length (procs s') = List.length (procs s) ->
  halted k n b base s -> halted k n b base s'.
Proof.
  intros k n b base s s'
    (_ & Hproc & Hpr & Hstop & _ & Hlog & Hpc & _) Hk Hlen
    (H1 & H2 & H3 & H4 & H5 & H6 & (p & Hn & Hpl) & H8).
  unfold halted. rewrite Hproc, Hpr, Hlen, Hlog, Hpc, Hstop.
  repeat split; try assumption.
  - destruct (Hk k p Hn) as (p' & Hn' & _ & Hpl' & _).
    exists p'. split; [exact Hn'|congruence].
  - intro Hh. eapply dead_kept; [exact Hk|auto].
Qed.

Lemma halted_bound : forall k n b base s,
  halted k n b base s -> List.length (forwarded (log s)) <= S base.
Proof.
  intros k n b base s (_ & _ & _ & _ & _ & H6 & _).
  destruct (at_pc s); lia.
Qed.

Lemma halted_say : forall k n b base s entries next,
  halted k n b base s ->
  quiet_point next = true -> reading next = false ->
  forwarded entries = [] -> begun entries = [] ->
  halted k n b base (say s entries next).
Proof.
  intros k n b base s entries next Hs Hq Hr Hfw Hbg.
  pose proof (halted_bound _ _ _ _ _ Hs) as Hb.
  destruct Hs as (H1 & H2 & H3 & H4 & H5 & H6 & H7 & H8).
  unfold halted. cbn [say processing process procs log at_pc at_stop].
  rewrite begun_app, forwarded_app, Hfw, Hbg, !app_nil_r.
  repeat split; try assumption.
  destruct next; try discriminate Hr; exact Hb.
Qed.

Lemma halted_goto : forall k n b base s next,
  halted k n b base s ->
  quiet_point next = true ->
  (forall line, next <> AtLog line) ->
  halted k n b base (goto s next).
Proof.
  intros k n b base s next Hs Hq Hr.
  pose proof (halted_bound _ _ _ _ _ Hs) as Hb.
  destruct Hs as (H1 & H2 & H3 & H4 & H5 & H6 & H7 & H8).
  unfold halted. cbn [goto processing process procs log at_pc at_stop].
  repeat split; try assumption.
  destruct next; try exact Hb. exfalso. eapply Hr. reflexivity.
Qed.

Lemma halted_finish : forall k n b base s pv,
  halted k n b base s -> halted k n b base (finish s pv).
Proof.
  intros k n b base s pv Hs.
  pose proof (halted_bound _ _ _ _ _ Hs) as Hb.
  destruct Hs as (H1 & H2 & H3 & H4 & H5 & H6 & H7 & H8).
  unfold halted. cbn [finish processing process procs log at_pc at_stop].
  repeat split; try assumption.
Qed.

Lemma halted_take_line : forall k n b base s p rest next,
  halted k n b base s ->
  nth_error (procs s) k = Some p ->
  quiet_point next = true ->
  (forall line, next <> AtLog line) ->
  halted k n b base (take_line s k p rest next).
Proof.
  intros k n b base s p rest next Hs Hn Hq Hr.
  assert (Hg : halted k n b base (goto s next))
    by (apply halted_goto; assumption).
  eapply halted_kept; [| | |exact Hg].
  - repeat split.
  - cbn [goto take_line procs]. apply (kept_replace _ _ p); auto.
  - cbn [goto take_line procs]. apply length_replace_nth.
Qed.

(** A step of the worker while the flag is down: no folder is begun, no
    script launched, and at most the line that had passed the check is
    forwarded. *)
Lemma worker_step_halted : forall k n b base fault s,
  halted k n b base s -> halted k n b base (run_processing_step fault s).
Proof.
  intros k n b base fault s Hs.
  pose proof Hs as (H1 & H2 & H3 & H4 & H5 & H6 & (p & Hn & Hpl) & H8).
  unfold run_processing_step.
  destruct (at_pc s) eqn:Hpc; try discriminate H5.
  - (* AtLoopTop *)
    rewrite H1. cbn [negb].
    destruct (remaining s); apply halted_goto;
      try assumption; try reflexivity; discriminate.
  - (* AtReadline *)
    unfold current. rewrite H2, Hn.
    destruct (p_pipe p) as [|line rest].
    + destruct (at_eof p); [|exact Hs].
      apply halted_goto; try assumption; try reflexivity; discriminate.
    + destruct fault; apply halted_take_line;
        try assumption; try reflexivity; discriminate.
  - (* AtCheck *)
    rewrite H1. cbn [negb].
    apply halted_goto; try assumption; try reflexivity; discriminate.
  - (* AtLog *)
    destruct fault.
    + apply halted_goto; try assumption; try reflexivity; discriminate.
    + unfold halted.
      cbn [say processing process procs log at_pc at_stop].
      rewrite begun_app, forwarded_app, length_app, H6, app_nil_r.
      cbn. repeat split; try assumption; try lia. eauto.
  - (* AtWait *)
    destruct fault.
    + apply halted_goto; try assumption; try reflexivity; discriminate.
    + unfold current. rewrite H2, Hn.
      destruct (returncode p); [|exact Hs].
      apply halted_goto; try assumption; try reflexivity; discriminate.
  - (* AtReport *)
    destruct fault.
    + apply halted_goto; try assumption; try reflexivity; discriminate.
    + apply halted_say; try assumption; try reflexivity;
        unfold report; destruct (Z.eqb code 0); reflexivity.
  - (* AtExcept *)
    destruct fault.
    + apply halted_goto; try assumption; try reflexivity; discriminate.
    + apply halted_say; try assumption; reflexivity.
  - (* AtEnd *)
    apply halted_goto; try assumption; try reflexivity; discriminate.
  - (* AtClosing *)
    destruct fault.
    + apply halted_goto; try assumption; try reflexivity; discriminate.
    + apply halted_say; try assumption; try reflexivity;
        destruct completed; reflexivity.
  - (* AtClosingSet *)
    destruct fault.
    + apply halted_goto; try assumption; try reflexivity; discriminate.
    + apply halted_finish. exact Hs.
  - (* AtOuter *)
    destruct fault.
    + apply halted_finish. exact Hs.
    + apply halted_say; try assumption; reflexivity.
  - (* AtOuterSet *)
    destruct fault; apply halted_finish; exact Hs.
  - (* Finished *)
    exact Hs.
Qed.

Lemma terminate_dead : forall p,
  p_plain p = true -> exists code, returncode (terminate p) = Some code.
Proof.
  intros p Hp. unfold terminate.
  destruct (returncode p) as [c|] eqn:E; [eauto|].
  rewrite Hp. cbn [returncode]. eauto.
Qed.

Lemma terminate_keeps : forall l k p,
  nth_error l k = Some p -> kept l (replace_nth k (terminate p) l).
Proof.
  intros l k p Hn. apply (kept_replace _ _ p); try exact Hn.
  - unfold terminate. destruct (returncode p); [reflexivity|].
    destruct (p_plain p); reflexivity.
  - unfold terminate. destruct (returncode p); [reflexivity|].
    destruct (p_plain p) eqn:E; cbn [p_plain]; congruence.
  - intros c Hc. unfold terminate. rewrite Hc. exact Hc.
Qed.

(** A step of the stop handler. *)
Lemma stop_step_halted : forall k n b base s,
  halted k n b base s -> halted k n b base (stop_processing_step s).
Proof.
  intros k n b base s Hs.
  pose proof Hs as (H1 & H2 & H3 & H4 & H5 & H6 & (p & Hn & Hpl) & H8).
  unfold stop_processing_step.
  destruct (at_stop s) eqn:Hst.
  - exact Hs.
  - rewrite H2. unfold halted.
    cbn [stop_goto processing process procs log at_pc at_stop handled].
    repeat split; try assumption; try discriminate; eauto.
  - unfold current. rewrite H2, Hn.
    destruct (terminate_dead p Hpl) as [code Hcode].
    unfold halted.
    cbn [processing process procs log at_pc at_stop handled].
    rewrite length_replace_nth.
    repeat split; try assumption.
    + exists (terminate p). split.
      * eapply nth_error_replace_same. exact Hn.
      * unfold terminate. destruct (returncode p); [exact Hpl|].
        rewrite Hpl. reflexivity.
    + intros _. exists (terminate p), code. split; [|exact Hcode].
      cbn [procs]. eapply nth_error_replace_same. exact Hn.
  - unfold halted.
    cbn [processing process procs log at_pc at_stop handled].
    repeat split; try assumption; try (intros _; exact (H8 eq_refl)); eauto.
Qed.

Lemma step_halted : forall k n b base l s,
  halted k n b base s -> halted k n b base (step s l).
Proof.
  intros k n b base l s Hs.
  destruct l as [fault|j|j line|j code| | |t]; cbn [step].
  - apply worker_step_halted. exact Hs.
  - destruct (bash_step_keeps j s).
    eapply halted_kept; try eassumption. apply bash_step_length.
  - destruct (tool_step_keeps j (inl line) s).
    eapply halted_kept; try eassumption. apply tool_step_length.
  - destruct (tool_step_keeps j (inr code) s).
    eapply halted_kept; try eassumption. apply tool_step_length.
  - pose proof Hs as (H1 & H2 & H3 & H4 & H5 & H6 & H7 & H8).
    unfold stop_pressed. destruct (at_stop s) eqn:Hst; try exact Hs.
    unfold halted.
    cbn [processing process procs log at_pc at_stop handled].
    repeat split; try assumption. discriminate.
  - apply stop_step_halted. exact Hs.
  - eapply halted_kept; [| | |exact Hs].
    + repeat split.
    + cbn [touch procs]. apply kept_refl.
    + reflexivity.
Qed.

Lemma run_halted : forall k n b base c s,
  halted k n b base s -> halted k n b base (run c s).
Proof.
  intros k n b base. induction c as [|l c IH]; intros s Hs; [exact Hs|].
  rewrite run_cons. apply IH. apply step_halted. exact Hs.
Qed.

Lemma worker_step_kept : forall fault s,
  kept (procs s) (procs (run_processing_step fault s)) /\
  trace (run_processing_step fault s) = trace s.
Proof.
  intros fault s. unfold run_processing_step.
  repeat match goal with
         | |- context [match ?x with _ => _ end] => destruct x eqn:?
         end;
    cbn [procs trace goto say finish take_line];
    (split; [|reflexivity]);
    try apply kept_refl; try apply kept_app.
  all: match goal with
       | H1 : process ?s0 = Some ?k, H2 : current ?s0 = Some ?p |- _ =>
           unfold current in H2; rewrite H1 in H2;
           apply (kept_replace _ _ p); auto
       end.
Qed.

Lemma stop_step_kept : forall s,
  kept (procs s) (procs (stop_processing_step s)) /\
  trace (stop_processing_step s) = trace s.
Proof.
  intro s. unfold stop_processing_step.
  repeat match goal with
         | |- context [match ?x with _ => _ end] => destruct x eqn:?
         end;
    cbn [procs trace stop_goto];
    (split; [|reflexivity]);
    try apply kept_refl.
  match goal with
  | H1 : process ?s0 = Some ?k, H2 : current ?s0 = Some ?p |- _ =>
      unfold current in H2; rewrite H1 in H2;
      apply terminate_keeps; exact H2
  end.
Qed.

(** No step brings a process back to life. *)
Lemma step_kept : forall l s, kept (procs s) (procs (step s l)).
Proof.
  intros l s. destruct l as [fault|j|j line|j code| | |t]; cbn [step].
  - apply worker_step_kept.
  - apply bash_step_keeps.
  - apply tool_step_keeps.
  - apply tool_step_keeps.
  - unfold stop_pressed. destruct (at_stop s); apply kept_refl.
  - apply stop_step_kept.
  - apply kept_refl.
Qed.

(** A bash that has exited starts no program. *)
Lemma step_starts : forall k l s,
  dead k s -> starts k (trace (step s l)) = starts k (trace s).
Proof.
  intros k l s (p & c & Hn & Hc).
  destruct l as [fault|j|j line|j code| | |t]; cbn [step].
  - destruct (worker_step_kept fault s) as [_ ->]. reflexivity.
  - unfold bash_step.
    destruct (nth_error (procs s) j) as [q|] eqn:Hj; [|reflexivity].
    destruct (returncode q) as [cq|] eqn:Hq; [reflexivity|].
    destruct (p_running q); [reflexivity|].
    assert (Hjk : Nat.eqb j k = false).
    { apply Nat.eqb_neq. intros ->. congruence. }
    repeat match goal with
           | |- context [match ?x with _ => _ end] => destruct x eqn:?
           end;
      cbn [set_proc trace]; rewrite ?starts_app; cbn [starts flat_map app];
      rewrite ?Hjk, ?app_nil_r; reflexivity.
  - unfold tool_step.
    repeat match goal with
           | |- context [match ?x with _ => _ end] => destruct x eqn:?
           end;
      cbn [set_proc trace]; rewrite ?starts_app, ?app_nil_r; reflexivity.
  - unfold tool_step.
    repeat match goal with
           | |- context [match ?x with _ => _ end] => destruct x eqn:?
           end;
      cbn [set_proc trace]; rewrite ?starts_app; cbn [starts flat_map app];
      rewrite ?app_nil_r; reflexivity.
  - unfold stop_pressed. destruct (at_stop s); reflexivity.
  - destruct (stop_step_kept s) as [_ ->]. reflexivity.
  - reflexivity.
Qed.

Lemma run_starts : forall k c s,
  dead k s -> starts k (trace (run c s)) = starts k (trace s).
Proof.
  intros k. induction c as [|l c IH]; intros s Hd; [reflexivity|].
  rewrite run_cons, IH.
  - apply step_starts. exact Hd.
  - eapply dead_kept; [apply step_kept|exact Hd].
Qed.

(** C5, as the code has it.  The Stop button is pressed while the worker
    reads the output of the script of folder K, a script that bash reads as
    pasted; a stage of it may be in flight.  Whatever happens afterwards, in
    any interleaving and whatever is raised: the flag stays down, no script
    is launched and no folder begun any more, and the worker forwards at
    most one more line, the one that had passed the check of the flag.  From
    the moment [stop_processing] is past its call of [terminate], the bash
    process of the script has exited and starts no further stage.  Nothing
    is said about the time between the statement that sets the flag and the
    call of [terminate], nor about the stage program in flight, which is
    not signalled. *)
Theorem stop_halts_unit_and_batch :
  forall (s0 : state) (k : nat) (p : subprocess) (after : list label),
    at_stop s0 = StopIdle ->
    reading (at_pc s0) = true ->
    process s0 = Some k ->
    nth_error (procs s0) k = Some p ->
    p_plain p = true ->
    let s := run (Stop :: after) s0 in
    processing s = false /\
    List.length (procs s) = List.length (procs s0) /\
    begun (log s) = begun (log s0) /\
    List.length (forwarded (log s)) <= S (List.length (forwarded (log s0))) /\
    (forall mid rest,
        after = mid ++ rest ->
        let s1 := run (Stop :: mid) s0 in
        handled (at_stop s1) = true ->
        dead k s1 /\ starts k (trace s) = starts k (trace s1)).
Proof.
  intros s0 k p after Hst Hrd Hk Hn Hpl s.
  assert (H1 : halted k (List.length (procs s0)) (begun (log s0))
                      (List.length (forwarded (log s0))) (step s0 Stop)).
  { cbn [step]. unfold stop_pressed. rewrite Hst. unfold halted.
    cbn [processing process procs log at_pc at_stop handled].
    repeat split; try assumption; try discriminate; eauto.
    - destruct (at_pc s0); try discriminate Hrd; reflexivity.
    - destruct (at_pc s0); try discriminate Hrd; lia. }
  assert (Hs : halted k (List.length (procs s0)) (begun (log s0))
                      (List.length (forwarded (log s0))) s).
  { unfold s. rewrite run_cons. apply run_halted. exact H1. }
  pose proof (halted_bound _ _ _ _ _ Hs) as Hb.
  destruct Hs as (Hp & _ & Hlen & Hbg & _).
  split; [exact Hp|]. split; [exact Hlen|]. split; [exact Hbg|].
  split; [exact Hb|].
  intros mid rest -> s1 Hh.
  assert (Hs1 : halted k (List.length (procs s0)) (begun (log s0))
                       (List.length (forwarded (log s0))) s1).
  { unfold s1. rewrite run_cons. apply run_halted. exact H1. }
  destruct Hs1 as (_ & _ & _ & _ & _ & _ & _ & Hdead).
  specialize (Hdead Hh). split; [exact Hdead|].
  unfold s, s1. rewrite !run_cons, run_app. apply run_starts.
  rewrite <- run_cons. exact Hdead.
Qed.

Lemma stop_halts_unit_and_batch_witness :
  let s0 := separation_in_flight in
  let mid := on_to_decimation ++ handler_terminates in
  let s := run (Stop :: mid ++ winding_up) s0 in
  processing s = false /\
  List.length (procs s) = 1 /\
  begun (log s) = ["A"] /\
  dead 0 (run (Stop :: mid) s0) /\
  starts 0 (trace s) = starts 0 (trace (run (Stop :: mid) s0)).
Proof.
  intros s0 mid s.
  destruct (stop_halts_unit_and_batch s0 0 (process_number 0 s0)
              (mid ++ winding_up))
    as (Hflag & Hlen & Hbegun & _ & Hafter).
  - vm_compute. reflexivity.
  - vm_compute. reflexivity.
  - vm_compute. reflexivity.
  - vm_compute. reflexivity.
  - vm_compute. reflexivity.
  - destruct (Hafter mid winding_up eq_refl) as (Hdead & Hstarts).
    + vm_compute. reflexivity.
    + split; [exact Hflag|]. split; [exact Hlen|]. split; [exact Hbegun|].
      split; [exact Hdead|exact Hstarts].
Defined.

(** C5, as the specification states it, fails: the Stop button is pressed
    while the separation of folder A is in flight; [stop_processing] has set
    the flag and has not yet called [terminate] when the separation exits,
    and bash starts the decimation of folder A. *)
Lemma stop_race_counterexample :
  let s0 := separation_in_flight in
  let s1 := step s0 Stop in
  let s := run on_to_decimation s1 in
  processing s0 = true /\
  p_unit (process_number 0 s0) = "A"%string /\
  p_running (process_number 0 s0) = Some (StageProgram Separation) /\
  processing s1 = false /\
  starts 0 (trace s1) = [StageProgram Separation] /\
  processing s = false /\
  starts 0 (trace s) = [StageProgram Separation; StageProgram Decimation].
Proof. vm_compute. repeat split; reflexivity. Qed.
